(** * SoulSight-AI: the Gemini request gatekeeper of [app.py]

    A shallow embedding of the admission and caching layer that sits between
    the web handlers and the Gemini API: the daily quota tracker, the
    cooldown gate, the response cache, the image fingerprinter and
    [process_image_with_gemini] with its model fallback loop.

    Conventions of the embedding.
    - The module-level globals of [app.py] are the fields of [state]; every
      function that touches them is a computation in the monad [M], which
      threads the state and records which gatekeeper functions were called.
    - A [datetime] is the number of microseconds since [datetime.min], a
      [timedelta] a number of microseconds.  [total_seconds()] and the
      arithmetic on it are floats in the source; here they are exact, which
      agrees with the source on every comparison against a whole number of
      seconds and on values up to float rounding.
    - A Python [str] is a [string], one character per code point.
    - Everything outside the program that one call of
      [process_image_with_gemini] consults (clock, file system, configuration,
      hashlib, the Gemini client) is a field of [env].

    Around the gatekeeper the file also embeds the status and management
    functions ([get_gemini_status], [user_quota], [reset_cooldown],
    [cleanup_gemini_cache]), the naming of uploads ([allowed_file],
    [generate_unique_filename]), the line cutting of the PDF export, the
    view [process_image] that calls the gatekeeper, and [clean_old_files].
    What a view finds in the database and the file system is a field of
    [web] or an argument of the function. *)

From Stdlib Require Import Ascii.
From stdpp Require Import base numbers list strings gmap pretty.
From Equations Require Import Equations.

Local Open Scope Z_scope.

(** ** Python strings *)

Module PyStr.

(** [bool(s)] *)
Definition truthy (s : string) : bool :=
  match s with EmptyString => false | String _ _ => true end.

(** [needle in s] *)
Fixpoint contains (needle s : string) : bool :=
  String.prefix needle s ||
  match s with
  | EmptyString => false
  | String _ rest => contains needle rest
  end.

Definition lower_char (c : ascii) : ascii :=
  let n := N_of_ascii c in
  if ((65 <=? n) && (n <=? 90) ||
      (192 <=? n) && (n <=? 222) && negb (n =? 215))%N
  then ascii_of_N (n + 32) else c.

(** [s.lower()] *)
Fixpoint lower (s : string) : string :=
  match s with
  | EmptyString => EmptyString
  | String c rest => String (lower_char c) (lower rest)
  end.

(** [s.replace(old, '')] for a non-empty [old]: occurrences are removed
    left to right without overlap.  [skip] counts the characters of the
    occurrence being removed that are still to be dropped. *)
Fixpoint remove_from (old : string) (skip : nat) (s : string) : string :=
  match s with
  | EmptyString => EmptyString
  | String c rest =>
      match skip with
      | S k => remove_from old k rest
      | O =>
          if String.prefix old s
          then remove_from old (Nat.pred (String.length old)) rest
          else String c (remove_from old O rest)
      end
  end.

Definition remove (old s : string) : string := remove_from old O s.

(** how an optional string appears inside an f-string *)
Definition format (o : option string) : string := default "None" o.

(** [bool(o)] for a value that is [None] or a [str] *)
Definition truthy_opt (o : option string) : bool :=
  match o with Some s => truthy s | None => false end.

Definition newline : string := String (ascii_of_N 10) EmptyString.

End PyStr.

(** ** Data *)

Definition datetime := Z.
Definition timedelta := Z.
Definition date := Z.

Definition datetime_min : datetime := 0.

(** a whole number of seconds as a duration *)
Definition seconds (n : Z) : timedelta := n * 1000000.

(** The values [user_id] takes: [None] (the default), the integer primary
    key of a user, or a string. *)
Inductive user_id :=
| UNone
| UInt (n : Z)
| UStr (s : string).

#[global] Instance user_id_eq_dec : EqDecision user_id.
Proof. solve_decision. Defined.

#[global] Instance user_id_countable : Countable user_id.
Proof.
  apply (inj_countable'
    (λ u, match u with
          | UNone => inl ()
          | UInt n => inr (inl n)
          | UStr s => inr (inr s)
          end)
    (λ x, match x with
          | inl _ => UNone
          | inr (inl n) => UInt n
          | inr (inr s) => UStr s
          end)).
  by intros [].
Defined.

(** [bool(user_id)], the test behind every [if user_id:] *)
Definition truthy_user (u : user_id) : bool :=
  match u with
  | UNone => false
  | UInt n => negb (n =? 0)
  | UStr s => PyStr.truthy s
  end.

Inductive confidence_level := Low | Medium | High.

(** The third component of [check_gemini_cooldown]'s result.  The two
    rejection messages are f-strings over the wait time. *)
Inductive cooldown_message :=
| GlobalCooldownActive (wait_time : timedelta)
    (* "Global cooldown active. Please wait {wait_time:.0f} seconds." *)
| PleaseWait (wait_time : timedelta)
    (* "Please wait {wait_time:.0f} seconds before another analysis." *)
| OK.

(** The ['text'] of a result.  Each constructor is one of the string
    templates of [process_image_with_gemini] with the values it
    interpolates. *)
Inductive message :=
| DailyQuotaExceeded (current_count daily_limit : Z)
| Cooldown (m : cooldown_message)
| ModelText (response_text : string)
| FreeTierQuotaReached (daily_limit : Z)
| ModelConfigurationError
| ErrorText (error_str : string)      (* "Error: {error_str[:150]}" *)
| AllModelsFailed.

(** The dict returned by [process_image_with_gemini].  ['model_used'] is
    present on a fresh success only, ['quota_exceeded'] is absent from the
    cooldown rejection. *)
Record result := Result {
  text : message;
  confidence : confidence_level;
  processing_time : timedelta;
  cached : bool;
  cooldown : timedelta;
  model_used : option string;
  quota_exceeded : option bool
}.

(** A [dict] with string keys, kept in insertion order as Python does. *)
Definition dict (V : Type) := list (string * V).

Module Dict.
Section ops.
Context {V : Type}.

Definition keys (d : dict V) : list string := d.*1.

(** [d.get(k)] *)
Fixpoint get (k : string) (d : dict V) : option V :=
  match d with
  | [] => None
  | (k', v) :: rest => if decide (k' = k) then Some v else get k rest
  end.

(** [d[k] = v]: an existing key keeps its position, a new one goes last *)
Fixpoint set (k : string) (v : V) (d : dict V) : dict V :=
  match d with
  | [] => [(k, v)]
  | (k', v') :: rest =>
      if decide (k' = k) then (k, v) :: rest else (k', v') :: set k v rest
  end.

(** [del d[k]] *)
Fixpoint del (k : string) (d : dict V) : dict V :=
  match d with
  | [] => []
  | (k', v') :: rest =>
      if decide (k' = k) then rest else (k', v') :: del k rest
  end.

(** keys are unique in a dict *)
Definition wf (d : dict V) : Prop := NoDup (keys d).
End ops.
End Dict.

(** The module-level globals. *)
Record state := State {
  gemini_last_call_time : datetime;
  gemini_user_cooldowns : gmap user_id datetime;
  gemini_daily_counts : gmap user_id Z;
  gemini_daily_reset_date : date;
  gemini_request_cache : dict result
}.

Definition FREE_TIER_DAILY_LIMIT : Z := 15.
Definition FREE_TIER_COOLDOWN : Z := 60.

(** the globals as they are when the module is loaded on day [today] *)
Definition initial_state (today : date) : state :=
  State datetime_min ∅ ∅ today [].

(** ** The monad: global state and a log of calls *)

Inductive event :=
| Called_check_daily_quota (u : user_id)
| Called_check_gemini_cooldown (u : user_id)
| Called_calculate_image_hash
| Called_get_cached_result (cache_key : string)
| Attempting (model_name : string)
| Called_generate_content (model_name_clean final_prompt : string)
| Called_cache_result (cache_key : string)
| Called_update_gemini_call_time (u : user_id)
| Called_increment_daily_count (u : user_id).

#[global] Instance event_eq_dec : EqDecision event.
Proof. solve_decision. Defined.

Definition M (A : Type) : Type := state → A * state * list event.

Definition ret {A} (a : A) : M A := λ s, (a, s, []).

Definition bind {A B} (m : M A) (k : A → M B) : M B :=
  λ s, let '(a, s1, l1) := m s in
       let '(b, s2, l2) := k a s1 in
       (b, s2, l1 ++ l2).

Definition get_state : M state := λ s, (s, s, []).
Definition put_state (s' : state) : M unit := λ _, (tt, s', []).
Definition called (e : event) : M unit := λ s, (tt, s, [e]).

#[global] Instance M_ret : MRet M := @ret.
#[global] Instance M_bind : MBind M := λ A B k m, bind m k.

(** the three components of a run *)
Definition value {A} (r : A * state * list event) : A := r.1.1.
Definition final {A} (r : A * state * list event) : state := r.1.2.
Definition calls {A} (r : A * state * list event) : list event := r.2.

(** ** Quota tracker *)

Definition check_daily_quota (today : date) (user_id : user_id)
  : M (bool * Z * Z) :=
  called (Called_check_daily_quota user_id) ;;
  s ← get_state;
  (if decide (today ≠ gemini_daily_reset_date s)
   then put_state
          (State (gemini_last_call_time s) (gemini_user_cooldowns s)
                 ∅ today (gemini_request_cache s))
   else ret tt) ;;
  s ← get_state;
  let user_count := default 0 (gemini_daily_counts s !! user_id) in
  let daily_limit := FREE_TIER_DAILY_LIMIT in
  if daily_limit <=? user_count
  then ret (false, user_count, daily_limit)
  else ret (true, user_count, daily_limit).

Definition increment_daily_count (user_id : user_id) : M Z :=
  called (Called_increment_daily_count user_id) ;;
  s ← get_state;
  let n := default 0 (gemini_daily_counts s !! user_id) + 1 in
  put_state
    (State (gemini_last_call_time s) (gemini_user_cooldowns s)
           (<[user_id := n]> (gemini_daily_counts s))
           (gemini_daily_reset_date s) (gemini_request_cache s)) ;;
  ret n.

(** ** Cooldown gate *)

Definition check_gemini_cooldown (now : datetime) (user_id : user_id)
  : M (bool * timedelta * cooldown_message) :=
  called (Called_check_gemini_cooldown user_id) ;;
  s ← get_state;
  let time_since_last_call := now - gemini_last_call_time s in
  if time_since_last_call <? seconds FREE_TIER_COOLDOWN then
    let wait_time := seconds FREE_TIER_COOLDOWN - time_since_last_call in
    ret (false, wait_time, GlobalCooldownActive wait_time)
  else
    if truthy_user user_id then
      let last_user_call :=
        default datetime_min (gemini_user_cooldowns s !! user_id) in
      let time_since_user_call := now - last_user_call in
      if time_since_user_call <? seconds FREE_TIER_COOLDOWN then
        let wait_time := seconds FREE_TIER_COOLDOWN - time_since_user_call in
        ret (false, wait_time, PleaseWait wait_time)
      else ret (true, 0, OK)
    else ret (true, 0, OK).

(** [datetime.now()] is read twice, once for the global timestamp and once
    more for the user's: [now1] and [now2]. *)
Definition update_gemini_call_time (now1 now2 : datetime) (user_id : user_id)
  : M unit :=
  called (Called_update_gemini_call_time user_id) ;;
  s ← get_state;
  put_state
    (State now1
           (if truthy_user user_id
            then <[user_id := now2]> (gemini_user_cooldowns s)
            else gemini_user_cooldowns s)
           (gemini_daily_counts s) (gemini_daily_reset_date s)
           (gemini_request_cache s)).

(** ** Response cache *)

Definition cache_key (image_hash mode : string) (custom_prompt : option string)
    (tone length_ language : string) (question : option string) : string :=
  image_hash +:+ ":" +:+ mode +:+ ":" +:+ PyStr.format custom_prompt +:+ ":"
  +:+ tone +:+ ":" +:+ length_ +:+ ":" +:+ language +:+ ":"
  +:+ PyStr.format question.

Definition get_cached_result (image_hash mode : string)
    (custom_prompt : option string) (tone length_ language : string)
    (question : option string) : M (option result) :=
  let cache_key :=
    cache_key image_hash mode custom_prompt tone length_ language question in
  called (Called_get_cached_result cache_key) ;;
  s ← get_state;
  ret (Dict.get cache_key (gemini_request_cache s)).

(** [for key in keys_to_remove: del gemini_request_cache[key]] *)
Definition delete_keys {V} (keys_to_remove : list string) (d : dict V)
  : dict V :=
  foldl (λ d key, Dict.del key d) d keys_to_remove.

Definition cache_result (image_hash mode : string)
    (custom_prompt : option string) (tone length_ language : string)
    (question : option string) (result : result) : M unit :=
  let cache_key :=
    cache_key image_hash mode custom_prompt tone length_ language question in
  called (Called_cache_result cache_key) ;;
  s ← get_state;
  let cache := Dict.set cache_key result (gemini_request_cache s) in
  let cache :=
    if (1000 <? length cache)%nat then
      let keys_to_remove := take 100 (Dict.keys cache) in
      delete_keys keys_to_remove cache
    else cache in
  put_state
    (State (gemini_last_call_time s) (gemini_user_cooldowns s)
           (gemini_daily_counts s) (gemini_daily_reset_date s) cache).

(** ** Content fingerprinter *)

Inductive io_error := IOError (strerror : string).

(** The read loop of [calculate_image_hash].  [file_hash] is the hash
    object, held as the bytes fed to it so far; [chunk] is the chunk last
    read and [f] what is left of the file. *)
Equations? read_loop (file_hash chunk f : list Byte.byte) : list Byte.byte
  by wf (length chunk + length f)%nat lt :=
  read_loop file_hash [] f := file_hash;
  read_loop file_hash (b :: chunk) f :=
    read_loop (file_hash ++ b :: chunk)
              (take (Z.to_nat 8192) f) (drop (Z.to_nat 8192) f).
Proof.
  rewrite length_take, length_drop.
  change (length (b :: chunk)) with (S (length chunk)). lia.
Qed.

Section fingerprint.
(** [hashlib.md5]: the hex digest of the bytes fed to the hash object *)
Variable md5_hexdigest : list Byte.byte → string.
(** the file system: the bytes of a file, or the error raised by opening
    or reading it *)
Variable open_rb : string → io_error + list Byte.byte.

(** the body of the [try] *)
Definition hash_file (image_path : string) : io_error + string :=
  match open_rb image_path with
  | inl err => inl err
  | inr f =>
      let file_hash := [] in
      let chunk := take (Z.to_nat 8192) f in
      let file_hash := read_loop file_hash chunk (drop (Z.to_nat 8192) f) in
      inr (md5_hexdigest file_hash)
  end.

(** [except Exception: return None] *)
Definition calculate_image_hash (image_path : string) : M (option string) :=
  called Called_calculate_image_hash ;;
  match hash_file image_path with
  | inr digest => ret (Some digest)
  | inl _ => ret None
  end.
End fingerprint.

(** ** Provider adapter *)

(** What the Gemini client does when one candidate model is tried. *)
Inductive attempt :=
| Setup_raises (model_error : string)
    (* [genai.GenerativeModel(...)] or [Image.open(...)] raises;
       the string is [str(model_error)] *)
| Generate_raises (api_error : string)
    (* [model.generate_content(...)] or reading [response.text] raises;
       the string is [str(api_error)] *)
| Responds (response_text : string) (finished : datetime).
    (* a response arrives; [finished] is the [datetime.now()] read next *)

(** The world as one call of [process_image_with_gemini] finds it. *)
Record env := Env {
  today : date;                        (* [date.today()] *)
  now_at_check : datetime;             (* [datetime.now()] in the cooldown check *)
  open_rb : string → io_error + list Byte.byte;   (* reading a file *)
  md5_hexdigest : list Byte.byte → string;
  GEMINI_MODEL : option string;        (* [app.config.get('GEMINI_MODEL')] *)
  start_time : datetime;
  gemini : string → string → attempt;  (* by image path and model name *)
  now_at_update : datetime * datetime  (* the two reads of [update_gemini_call_time] *)
}.

Definition fallback_models : list string :=
  ["gemini-2.0-flash"; "gemini-flash-latest"; "gemini-1.5-flash-latest"].

(** [list(dict.fromkeys(l))]: the first occurrence of each element, in order *)
Fixpoint dict_fromkeys (seen l : list string) : list string :=
  match l with
  | [] => []
  | x :: rest =>
      if decide (x ∈ seen) then dict_fromkeys seen rest
      else x :: dict_fromkeys (x :: seen) rest
  end.

Definition models_to_try (e : env) : list string :=
  let models_to_try := fallback_models in
  let models_to_try :=
    match GEMINI_MODEL e with
    | Some m => if PyStr.truthy m then [m] ++ models_to_try else models_to_try
    | None => models_to_try
    end in
  dict_fromkeys [] models_to_try.

Definition prompts (mode : string) : string :=
  if decide (mode = "caption") then
    "Generate a concise, emotionally resonant caption for this image."
  else if decide (mode = "educational") then
    "Explain this image from an educational perspective. What can be learned from it? What concepts does it illustrate?"
  else if decide (mode = "creative_story") then
    "Create a romantic, emotionally engaging story or poem inspired by this image."
  else if decide (mode = "keywords") then
    "Generate relevant keywords and tags for this image, focusing on emotional and descriptive elements."
  else
    "Provide a detailed, emotionally rich description of this image, capturing its essence, mood, and significance.".

Definition languages (language : string) : string :=
  if decide (language = "hi") then "Hindi"
  else if decide (language = "ur") then "Urdu"
  else "English".

Definition tones (tone : string) : string :=
  if decide (tone = "formal") then "Use a formal, professional tone."
  else if decide (tone = "casual") then "Use a casual, conversational tone."
  else if decide (tone = "romantic") then
    "Use a romantic, poetic, emotionally expressive tone."
  else "".

Definition lengths (length_ : string) : string :=
  if decide (length_ = "short") then
    "Provide a brief response (1-2 sentences)."
  else if decide (length_ = "medium") then
    "Provide a detailed response (3-5 sentences)."
  else if decide (length_ = "long") then
    "Provide an extensive, comprehensive response (6+ sentences)."
  else "".

Definition final_prompt (mode : string) (custom_prompt : option string)
    (tone length_ language : string) (question : option string) : string :=
  let nl := PyStr.newline in
  let base_prompt := prompts mode in
  let language_instruction := "Respond in " +:+ languages language +:+ "." in
  let tone_instruction := tones tone in
  let length_instruction := lengths length_ in
  if PyStr.truthy_opt custom_prompt then
    PyStr.format custom_prompt +:+ nl +:+ language_instruction +:+ nl
    +:+ tone_instruction +:+ nl +:+ length_instruction
  else if PyStr.truthy_opt question then
    PyStr.format question +:+ nl +:+ language_instruction +:+ nl
    +:+ tone_instruction
  else
    base_prompt +:+ nl +:+ language_instruction +:+ nl
    +:+ tone_instruction +:+ nl +:+ length_instruction.

(** The three tests on [error_str] in the inner [except]. *)
Definition is_quota_error (error_str : string) : bool :=
  PyStr.contains "429" error_str
  || PyStr.contains "quota" (PyStr.lower error_str).

Definition is_not_found_error (error_str : string) : bool :=
  PyStr.contains "404" error_str
  || PyStr.contains "not found" (PyStr.lower error_str).

Definition is_unavailable_error (error_str : string) : bool :=
  PyStr.contains "503" error_str
  || PyStr.contains "unavailable" (PyStr.lower error_str).

(** The inner [try]: the remote call and the check for an empty text.
    [inl] is the exception that reaches the inner [except]. *)
Definition generate_content (a : attempt) : string + string * datetime :=
  match a with
  | Setup_raises err => inl err
  | Generate_raises err => inl err
  | Responds response_text finished =>
      if negb (PyStr.truthy response_text)
      then inl "Empty response from model"
      else inr (response_text, finished)
  end.

Definition estimate_confidence (response_text : string) : confidence_level :=
  let text_length := String.length response_text in
  if (100 <? text_length)%nat then High
  else if (50 <? text_length)%nat then Medium
  else Low.

(** How the [for] loop is left: by the [return] of a success, or by
    [break] or exhaustion with the [last_error] seen so far. *)
Inductive loop_exit :=
| Returned (result_data : result)
| Fell_through (last_error : option string).

(** The model name without its ['models/'] prefix. *)
Definition clean (model_name : string) : string :=
  if String.prefix "models/" model_name
  then PyStr.remove "models/" model_name
  else model_name.

Section call.
Variable e : env.
Variables (image_path mode : string) (custom_prompt : option string).
Variables (tone length_ language : string) (question : option string).
Variable user_id : user_id.

(** What follows a response with a non-empty text: build the result,
    cache it, record the call, count it, return.  The dict put in the
    cache is the one returned; no caller writes to it. *)
Definition on_success (image_hash : option string)
    (model_name_clean response_text : string) (finished : datetime)
  : M result :=
  let processing_time := finished - start_time e in
  let confidence := estimate_confidence response_text in
  let result_data :=
    Result (ModelText response_text) confidence processing_time
           false 0 (Some model_name_clean) (Some false) in
  match image_hash with
  | Some image_hash =>
      if PyStr.truthy image_hash then
        cache_result image_hash mode custom_prompt tone length_ language
                     question result_data
      else ret tt
  | None => ret tt
  end ;;
  update_gemini_call_time (now_at_update e).1 (now_at_update e).2 user_id ;;
  (if truthy_user user_id then
     new_count ← increment_daily_count user_id; ret tt
   else ret tt) ;;
  ret result_data.

(** [for model_name in models_to_try: ...] with [last_error] as it
    stands on entry. *)
Fixpoint for_each_model (image_hash : option string)
    (models : list string) (last_error : option string) : M loop_exit :=
  match models with
  | [] => ret (Fell_through last_error)
  | model_name :: rest =>
      called (Attempting model_name) ;;
      let model_name_clean := clean model_name in
      match gemini e image_path model_name with
      | Setup_raises model_error =>
          (* caught by the outer [except]: recorded, next model *)
          for_each_model image_hash rest (Some model_error)
      | a =>
          let final_prompt :=
            final_prompt mode custom_prompt tone length_ language question in
          called (Called_generate_content model_name_clean final_prompt) ;;
          match generate_content a with
          | inl error_str =>
              if is_quota_error error_str then
                (* [last_error = api_error; break] *)
                ret (Fell_through (Some error_str))
              else if is_not_found_error error_str then
                for_each_model image_hash rest last_error
              else if is_unavailable_error error_str then
                for_each_model image_hash rest last_error
              else
                (* [raise api_error], caught by the outer [except]:
                   recorded, next model *)
                for_each_model image_hash rest (Some error_str)
          | inr (response_text, finished) =>
              result_data ← on_success image_hash model_name_clean
                                       response_text finished;
              ret (Returned result_data)
          end
      end
  end.

(** The code after the loop: the outcome when no model succeeded. *)
Definition all_models_failed (last_error : option string) : result :=
  match last_error with
  | Some error_str =>
      if is_quota_error error_str then
        Result (FreeTierQuotaReached FREE_TIER_DAILY_LIMIT) Low 0 false
               (seconds 86400) None (Some true)
      else if PyStr.contains "404" error_str then
        Result ModelConfigurationError Low 0 false 0 None (Some false)
      else
        Result (ErrorText error_str) Low 0 false (seconds 300) None
               (Some false)
  | None =>
      Result AllModelsFailed Low 0 false (seconds 300) None (Some false)
  end.

(** The [try] block of [process_image_with_gemini], from [start_time] on.
    Every exception raised while a model is tried is caught by the
    handlers inside the loop, and nothing outside the loop raises, so
    the closing [except] of the block is never entered. *)
Definition provider_adapter (image_hash : option string) : M result :=
  exit ← for_each_model image_hash (models_to_try e) None;
  match exit with
  | Returned result_data => ret result_data
  | Fell_through last_error => ret (all_models_failed last_error)
  end.

(** The quota and cooldown checks that open the function: [Some] is the
    rejection returned to the caller, [None] lets the call through. *)
Definition admission : M (option result) :=
  rejected ←
    (if truthy_user user_id then
       '(has_quota, current_count, daily_limit) ←
          check_daily_quota (today e) user_id;
       if negb has_quota then
         ret (Some (Result (DailyQuotaExceeded current_count daily_limit)
                           Low 0 false (seconds 3600) None (Some true)))
       else ret None
     else ret None);
  match rejected with
  | Some r => ret (Some r)
  | None =>
      '(can_call, wait_time, message) ←
         check_gemini_cooldown (now_at_check e) user_id;
      if negb can_call then
        ret (Some (Result (Cooldown message) Low 0 false wait_time None None))
      else ret None
  end.

(** The cache lookup: [Some] is the result returned on a hit.  A cached
    value is a result dict, which is never empty, so [if cached_result:]
    asks whether the key is present. *)
Definition cache_lookup (image_hash : option string) : M (option result) :=
  match image_hash with
  | Some image_hash =>
      if PyStr.truthy image_hash then
        cached_result ←
          get_cached_result image_hash mode custom_prompt tone length_
                            language question;
        match cached_result with
        | Some cached_result =>
            ret (Some (Result (text cached_result)
                              (confidence cached_result)
                              (processing_time cached_result) true 0 None
                              (Some false)))
        | None => ret None
        end
      else ret None
  | None => ret None
  end.

Definition process_image_with_gemini : M result :=
  rejected ← admission;
  match rejected with
  | Some rejection => ret rejection
  | None =>
      image_hash ←
        calculate_image_hash (md5_hexdigest e) (open_rb e) image_path;
      hit ← cache_lookup image_hash;
      match hit with
      | Some cached_result => ret cached_result
      | None => provider_adapter image_hash
      end
  end.
End call.

(** ** Notions used in the statements *)

(** The cache as [cache_result] leaves it, as a function of the cache it
    finds. *)
Definition cache_after {V} (key : string) (v : V) (d : dict V) : dict V :=
  let d' := Dict.set key v d in
  if (1000 <? length d')%nat
  then delete_keys (take 100 (Dict.keys d')) d' else d'.

(** The globals as [on_success] leaves them. *)
Definition state_after_success (e : env) (u : user_id)
    (cache : dict result) (s : state) : state :=
  State (now_at_update e).1
        (if truthy_user u
         then <[u := (now_at_update e).2]> (gemini_user_cooldowns s)
         else gemini_user_cooldowns s)
        (if truthy_user u
         then <[u := default 0 (gemini_daily_counts s !! u) + 1]>
                (gemini_daily_counts s)
         else gemini_daily_counts s)
        (gemini_daily_reset_date s) cache.

(** The globals after the day check of [check_daily_quota]. *)
Definition after_rollover (today : date) (s : state) : state :=
  if decide (today = gemini_daily_reset_date s) then s
  else State (gemini_last_call_time s) (gemini_user_cooldowns s)
             ∅ today (gemini_request_cache s).

(** The globals after the admission checks of a call. *)
Definition after_admission (e : env) (u : user_id) (s : state) : state :=
  if truthy_user u then after_rollover (today e) s else s.

(** [image_hash] as a call computes it. *)
Definition image_hash_of (e : env) (image_path : string) : option string :=
  match hash_file (md5_hexdigest e) (open_rb e) image_path with
  | inr digest => Some digest
  | inl _ => None
  end.

(** The cached entry a call finds: none when there is no usable hash. *)
Definition cache_hit (key : string) (image_hash : option string) (s : state)
  : option result :=
  if PyStr.truthy_opt image_hash
  then Dict.get key (gemini_request_cache s) else None.

(** The events of a loop iteration that ends without a success. *)
Definition is_probe (ev : event) : Prop :=
  match ev with
  | Attempting _ | Called_generate_content _ _ => True
  | _ => False
  end.

(** The events that change no global: checks, lookups and probes.  (The
    day rollover inside [check_daily_quota] is accounted for separately, by
    [after_admission].) *)
Definition is_quiet (ev : event) : Prop :=
  match ev with
  | Called_cache_result _ | Called_update_gemini_call_time _
  | Called_increment_daily_count _ => False
  | _ => True
  end.

(** The events of the quota tracker. *)
Definition is_quota_event (ev : event) : Prop :=
  match ev with
  | Called_check_daily_quota _ | Called_increment_daily_count _ => True
  | _ => False
  end.

(** The events of the response cache. *)
Definition is_cache_event (ev : event) : Prop :=
  match ev with
  | Called_get_cached_result _ | Called_cache_result _ => True
  | _ => False
  end.

(** The seven arguments that make up a cache key. *)
Record request := Request {
  req_image_hash : string;
  req_mode : string;
  req_custom_prompt : option string;
  req_tone : string;
  req_length : string;
  req_language : string;
  req_question : option string
}.

Definition request_key (q : request) : string :=
  cache_key (req_image_hash q) (req_mode q) (req_custom_prompt q)
            (req_tone q) (req_length q) (req_language q) (req_question q).

(** [cache_result] called once for each entry, in order. *)
Definition cache_each (entries : list (request * result)) (s : state)
  : state :=
  foldl (λ s '(q, r),
           final (cache_result (req_image_hash q) (req_mode q)
                    (req_custom_prompt q) (req_tone q) (req_length q)
                    (req_language q) (req_question q) r s))
        s entries.

(** The entries as they sit in the cache when nothing is evicted. *)
Definition stored (entries : list (request * result)) : dict result :=
  (λ qr, (request_key qr.1, qr.2)) <$> entries.

(** ** Worked examples *)

(** An environment for worked examples: an empty image file with its MD5,
    the configured model of [config.py], the clock at [now] when the call
    starts and two seconds later when it records a success. *)
Definition example_env (now : datetime) (client : string → attempt) : env :=
  Env 738000 now (λ _, inr [])
      (λ _, "d41d8cd98f00b204e9800998ecf8427e")
      (Some "gemini-2.0-flash") now (λ _ model_name, client model_name)
      (now + seconds 2, now + seconds 2 + 9).

(** An environment in which the image cannot be opened. *)
Definition unreadable_env (now : datetime) (client : string → attempt) : env :=
  Env 738000 now (λ _, inl (IOError "No such file or directory"))
      (λ _, "d41d8cd98f00b204e9800998ecf8427e")
      (Some "gemini-2.0-flash") now (λ _ model_name, client model_name)
      (now + seconds 2, now + seconds 2 + 9).

(** A client whose every model responds. *)
Definition every_model_responds (model_name : string) : attempt :=
  Responds "A quiet harbour at dusk." (seconds 63000000001).

(** A client for which every model is missing. *)
Definition every_model_not_found (model_name : string) : attempt :=
  Generate_raises ("404 models/" +:+ model_name +:+ " is not found").

(** A client whose first model fails with an internal error and whose other
    models respond. *)
Definition first_model_breaks (model_name : string) : attempt :=
  if decide (model_name = "gemini-2.0-flash")
  then Generate_raises "500 Internal error encountered."
  else Responds "A quiet harbour at dusk." (seconds 63000000003).

(** A client whose first model fails with an internal error and whose other
    models are missing. *)
Definition first_breaks_rest_missing (model_name : string) : attempt :=
  if decide (model_name = "gemini-2.0-flash")
  then Generate_raises "500 Internal error encountered."
  else every_model_not_found model_name.

(** A client whose first model reports an exhausted quota. *)
Definition quota_exhausted (model_name : string) : attempt :=
  if decide (model_name = "gemini-2.0-flash")
  then Generate_raises "429 You exceeded your current quota."
  else Responds "A quiet harbour at dusk." (seconds 63000000003).

(** [n] requests that differ in their image hash, each with a result. *)
Definition numbered_entries (n : nat) : list (request * result) :=
  (λ i : nat,
     (Request (pretty i) "caption" None "neutral" "medium" "en" None,
      Result (ModelText (pretty i)) Low 0 false 0 (Some "gemini-2.0-flash")
             (Some false)))
  <$> seq 0 n.

(** ** More notions used in the statements *)

(** [increment_daily_count] called [k] times for one user. *)
Definition increment_times (k : nat) (u : user_id) (s : state) : state :=
  Nat.iter k (λ s, final (increment_daily_count u s)) s.

(** No user is above the daily limit. *)
Definition within_quota (s : state) : Prop :=
  ∀ u, default 0 (gemini_daily_counts s !! u) ≤ FREE_TIER_DAILY_LIMIT.

(** The result returned for a response of a model. *)
Definition fresh_result (e : env) (model_name response_text : string)
    (finished : datetime) : result :=
  Result (ModelText response_text) (estimate_confidence response_text)
         (finished - start_time e) false 0 (Some (clean model_name))
         (Some false).

(** A string without a colon. *)
Definition colon_free (s : string) : Prop := PyStr.contains ":" s = false.

(** A request whose fields before the question hold no colon and whose
    optional fields are not the text "None". *)
Definition plain_request (q : request) : Prop :=
  colon_free (req_image_hash q) ∧ colon_free (req_mode q)
  ∧ colon_free (PyStr.format (req_custom_prompt q))
  ∧ colon_free (req_tone q) ∧ colon_free (req_length q)
  ∧ colon_free (req_language q)
  ∧ req_custom_prompt q ≠ Some "None" ∧ req_question q ≠ Some "None".

(** [process_image_with_gemini] called with the fields of a request. *)
Definition process_request (e : env) (image_path : string) (q : request)
    (u : user_id) : M result :=
  process_image_with_gemini e image_path (req_mode q) (req_custom_prompt q)
    (req_tone q) (req_length q) (req_language q) (req_question q) u.

(** A client whose first model answers with an empty text and whose other
    models are missing. *)
Definition first_model_silent (model_name : string) : attempt :=
  if decide (model_name = "gemini-2.0-flash")
  then Responds "" (seconds 63000000001)
  else every_model_not_found model_name.

(** A client for which the image cannot be opened, whatever the model. *)
Definition image_not_identified (model_name : string) : attempt :=
  Setup_raises "cannot identify image file 'static/uploads/a.png'".

(** [get_cached_result] called with the fields of a request. *)
Definition lookup_request (q : request) : M (option result) :=
  get_cached_result (req_image_hash q) (req_mode q) (req_custom_prompt q)
    (req_tone q) (req_length q) (req_language q) (req_question q).

(** [cache_result] called with the fields of a request. *)
Definition store_request (q : request) (r : result) : M unit :=
  cache_result (req_image_hash q) (req_mode q) (req_custom_prompt q)
    (req_tone q) (req_length q) (req_language q) (req_question q) r.

(** ** Status and management *)

(** [sum(d.values())] *)
Definition sum_values (d : gmap user_id Z) : Z :=
  map_fold (λ _ v total, total + v) 0 d.

(** The dict returned by [get_gemini_status].  ['last_call_time'] is the
    timestamp, or [None] for the text ['Never']. *)
Record gemini_status := Gemini_status {
  last_call_time : option datetime;
  seconds_since_last_call : timedelta;
  cooldown_active : bool;
  active_users : nat;
  cache_size : nat;
  cooldown_seconds : Z;
  daily_reset_date : date;
  total_daily_calls : Z;
  daily_limit : Z;
  user_breakdown : gmap user_id Z
}.

Definition get_gemini_status (now : datetime) : M gemini_status :=
  s ← get_state;
  let time_since_last_call := now - gemini_last_call_time s in
  let total_daily_calls := sum_values (gemini_daily_counts s) in
  ret (Gemini_status
         (if datetime_min <? gemini_last_call_time s
          then Some (gemini_last_call_time s) else None)
         time_since_last_call
         (time_since_last_call <? seconds FREE_TIER_COOLDOWN)
         (size (gemini_user_cooldowns s))
         (length (gemini_request_cache s))
         FREE_TIER_COOLDOWN
         (gemini_daily_reset_date s)
         total_daily_calls
         FREE_TIER_DAILY_LIMIT
         (gemini_daily_counts s)).

(** The JSON object returned by the view [user_quota]. *)
Record quota_status := Quota_status {
  quota_user_id : user_id;
  daily_used : Z;
  quota_daily_limit : Z;
  has_quota : bool;
  can_call : bool;
  wait_time : timedelta;
  quota_message : cooldown_message;
  quota_cooldown_seconds : Z
}.

(** The view [user_quota] for the signed-in user [current_user_id], with
    the date and the time read by its two checks. *)
Definition user_quota (today : date) (now : datetime)
    (current_user_id : user_id) : M quota_status :=
  '(has_quota, current_count, daily_limit) ←
     check_daily_quota today current_user_id;
  '(can_call, wait_time, message) ←
     check_gemini_cooldown now current_user_id;
  ret (Quota_status current_user_id current_count daily_limit has_quota
                    can_call wait_time message FREE_TIER_COOLDOWN).

(** [abort(code)] *)
Inductive aborted := Aborted (code : Z).

(** The decorator [admin_required] around a view [f], for a current user
    with the given flags. *)
Definition admin_required {A} (is_authenticated is_admin : bool) (f : M A)
  : M (aborted + A) :=
  if negb is_authenticated || negb is_admin then ret (inl (Aborted 403))
  else a ← f; ret (inr a).

(** The view [reset_cooldown] under [admin_required] (the decorator
    [login_required] around both is not modelled).  The response carries
    ['previous_last_call']: the old timestamp, or [None] for ['Never']. *)
Definition reset_cooldown (is_authenticated is_admin : bool)
  : M (aborted + option datetime) :=
  admin_required is_authenticated is_admin
    (s ← get_state;
     let old_time := gemini_last_call_time s in
     put_state
       (State datetime_min ∅ (gemini_daily_counts s)
              (gemini_daily_reset_date s) (gemini_request_cache s)) ;;
     ret (if datetime_min <? old_time then Some old_time else None)).

(** [cleanup_gemini_cache], with the time it reads.  The users to remove
    are collected first and deleted afterwards, as in the source. *)
Definition cleanup_gemini_cache (now : datetime) : M unit :=
  s ← get_state;
  let cache :=
    if (1000 <? length (gemini_request_cache s))%nat then []
    else gemini_request_cache s in
  let users_to_remove :=
    (filter (λ item, seconds 3600 < now - item.2)
            (map_to_list (gemini_user_cooldowns s))).*1 in
  let cooldowns :=
    foldl (λ d user_id, delete user_id d) (gemini_user_cooldowns s)
          users_to_remove in
  put_state
    (State (gemini_last_call_time s) cooldowns (gemini_daily_counts s)
           (gemini_daily_reset_date s) cache).

(** ** Names of uploaded files *)

(** [app.config['ALLOWED_EXTENSIONS']], from [config.py] *)
Definition ALLOWED_EXTENSIONS : gset string :=
  {["png"; "jpg"; "jpeg"; "gif"]}.

(** [s.rsplit(sep, 1)] for a one-character [sep]: the text before and after
    the last [sep], or [s] alone when it holds none. *)
Fixpoint rsplit_1 (sep : ascii) (s : string) : list string :=
  match s with
  | EmptyString => [""]
  | String c rest =>
      match rsplit_1 sep rest with
      | [head; tail] => [String c head; tail]
      | _ => if decide (c = sep) then [""; rest] else [String c rest]
      end
  end.

(** the exception raised by [l[1]] on a list of one element *)
Inductive index_error := IndexError.

Definition allowed_file (filename : string) : index_error + bool :=
  if PyStr.contains "." filename then
    match rsplit_1 "." filename !! 1%nat with
    | Some ext => inr (bool_decide (PyStr.lower ext ∈ ALLOWED_EXTENSIONS))
    | None => inl IndexError
    end
  else inr false.

(** [uuid4_hex] is the value of [uuid.uuid4().hex]. *)
Definition generate_unique_filename (uuid4_hex filename : string)
  : index_error + string :=
  match rsplit_1 "." filename !! 1%nat with
  | Some ext =>
      let ext := PyStr.lower ext in
      inr (uuid4_hex +:+ "." +:+ ext)
  | None => inl IndexError
  end.

(** ** PDF export: the text of a result cut into lines *)

(** The loop over [words] of [export_result], entered with the [lines]
    and the [line] built so far; it returns both as the loop leaves
    them. *)
Fixpoint wrap_loop (lines : list string) (line : string)
    (words : list string) : list string * string :=
  match words with
  | [] => (lines, line)
  | word :: rest =>
      if (String.length line + String.length word <? 70)%nat
      then wrap_loop lines (line +:+ word +:+ " ") rest
      else wrap_loop (lines ++ [line]) (word +:+ " ") rest
  end.

(** [lines] as the code after the loop leaves it, for the [words] of the
    result text. *)
Definition wrap_lines (words : list string) : list string :=
  let '(lines, line) := wrap_loop [] "" words in
  if PyStr.truthy line then lines ++ [line] else lines.

(** the lines written to the page: [lines[:30]] *)
Definition drawn_lines (words : list string) : list string :=
  take 30 (wrap_lines words).

(** strings put end to end *)
Definition join (l : list string) : string := foldr String.append "" l.

(** A line of the page: at most 70 characters, or one long word alone. *)
Definition fits (words : list string) (line : string) : Prop :=
  (String.length line ≤ 70)%nat
  ∨ ∃ word, word ∈ words ∧ line = word +:+ " "
            ∧ (70 ≤ String.length word)%nat.

(** ** The view [process_image] *)

(** The JSON body of the request, for the keys the view reads after
    ['image_id']: [None] is an absent key, a present key holds a
    string. *)
Record process_json := Process_json {
  json_mode : option string;
  json_custom_prompt : option string;
  json_tone : option string;
  json_length : option string;
  json_language : option string;
  json_question : option string
}.

(** A row of [AIResult] as the view fills it. *)
Record ai_result := AI_result {
  ai_image_id : Z;
  ai_mode : string;
  ai_prompt : string;
  ai_result_text : message;
  ai_confidence : confidence_level;
  ai_language : string;
  ai_tone : string;
  ai_length : string;
  ai_processing_time : timedelta
}.

(** The world as one request to the view finds it. *)
Record web := Web {
  current_user_id : user_id;
  (* the [UserImage] of the requested id owned by the current user: its
     id and its [file_path] *)
  user_image : option (Z * string);
  path_exists : string → bool;          (* [os.path.exists] *)
  today_at_view : date;                 (* [date.today()] in the view's quota check *)
  now_at_view : datetime;               (* [datetime.now()] in the view's cooldown check *)
  call_env : env;                       (* the world of the call the view makes *)
  (* the query for an earlier [AIResult] of the same request: the id of
     the row found, none, or the text of the exception raised *)
  existing_result : string + option Z;
  (* [db.session.commit()]: the id given to the new row, or the text of
     the exception raised *)
  commit : string + Z
}.

(** The responses of the view: a JSON object and a status code. *)
Inductive response :=
| Error_json (status : Z) (error : string)
| Quota_exceeded_by_view (current_count daily_limit : Z) (retry_after : Z)
    (* 429; message "Daily quota exceeded. Used {current_count} of
       {daily_limit} requests." *)
| Cooldown_json (message : cooldown_message) (wait_time : timedelta)
    (retry_after : Z)
    (* 429 *)
| Quota_exceeded_by_call (message : message) (current_count daily_limit : Z)
    (retry_after : timedelta)
    (* 429 *)
| Cached_json (result_id : Z) (text : message) (confidence : confidence_level)
    (processing_time : timedelta) (mode language : string)
    (* 200, ['success'] and ['cached'] true *)
| Success_json (cached : bool) (result_id : Z) (text : message)
    (confidence : confidence_level) (processing_time : timedelta)
    (mode language : string) (cooldown : timedelta)
    (daily_used daily_limit : Z).
    (* 200, ['success'] true *)

(** [int(wait_time)] for a wait in seconds *)
Definition int_seconds (wait_time : timedelta) : Z := wait_time `quot` 1000000.

(** The call of [process_image_with_gemini] made by the view. *)
Definition view_call (w : web) (data : process_json) (file_path : string)
  : M result :=
  process_image_with_gemini (call_env w) file_path
    (default "detailed_description" (json_mode data))
    (Some (default "" (json_custom_prompt data)))
    (default "neutral" (json_tone data))
    (default "medium" (json_length data))
    (default "en" (json_language data))
    (Some (default "" (json_question data)))
    (current_user_id w).

(** The [try] block after the call: the response, and the row committed
    to the database if any. *)
Definition save_and_respond (w : web) (data : process_json) (image_id : Z)
    (current_count daily_limit : Z) (result : result)
  : response * option ai_result :=
  let mode := default "detailed_description" (json_mode data) in
  let custom_prompt := default "" (json_custom_prompt data) in
  let tone := default "neutral" (json_tone data) in
  let length_ := default "medium" (json_length data) in
  let language := default "en" (json_language data) in
  let question := default "" (json_question data) in
  let existing_result :=
    if cached result then existing_result w else inr None in
  match existing_result with
  | inl e => (Error_json 500 e, None)
  | inr (Some existing_id) =>
      (Cached_json existing_id (text result) (confidence result)
                   (processing_time result) mode language,
       None)
  | inr None =>
      if bool_decide (quota_exceeded result = Some true) then
        (Quota_exceeded_by_call (text result) current_count daily_limit
                                (cooldown result),
         None)
      else
        let ai_result :=
          AI_result image_id mode
                    (if PyStr.truthy custom_prompt then custom_prompt
                     else question)
                    (text result) (confidence result) language tone length_
                    (processing_time result) in
        match commit w with
        | inl e => (Error_json 500 e, None)
        | inr result_id =>
            (Success_json (cached result) result_id (text result)
                          (confidence result) (processing_time result)
                          mode language (cooldown result)
                          (current_count + 1) daily_limit,
             Some ai_result)
        end
  end.

Definition process_image (w : web) (data : process_json)
  : M (response * option ai_result) :=
  match user_image w with
  | None => ret (Error_json 404 "Image not found or access denied", None)
  | Some (image_id, file_path) =>
      if negb (path_exists w file_path) then
        ret (Error_json 404 "Image file not found", None)
      else
        '(has_quota, current_count, daily_limit) ←
           check_daily_quota (today_at_view w) (current_user_id w);
        if negb has_quota then
          ret (Quota_exceeded_by_view current_count daily_limit 3600, None)
        else
          '(can_call, wait_time, message) ←
             check_gemini_cooldown (now_at_view w) (current_user_id w);
          if negb can_call then
            ret (Cooldown_json message wait_time (int_seconds wait_time),
                 None)
          else
            result ← view_call w data file_path;
            ret (save_and_respond w data image_id current_count daily_limit
                                  result)
  end.

(** A world for worked examples of the view: user 1 owns image 7, the
    database holds no earlier result and gives the new row the id 12. *)
Definition example_web (now : datetime) (client : string → attempt) : web :=
  Web (UInt 1) (Some (7, "static/uploads/a.png")) (λ _, true) 738000 now
      (example_env now client) (inr None) (inr 12).

(** a request body that leaves every key but ['image_id'] out *)
Definition empty_json : process_json :=
  Process_json None None None None None None.

(** ** Orphaned uploads *)

(** [l.remove(x)]: the list without the first occurrence of [x] *)
Fixpoint list_remove (x : string) (l : list string) : list string :=
  match l with
  | [] => []
  | y :: rest => if decide (y = x) then rest else y :: list_remove x rest
  end.

(** [clean_old_files(user_id)], as the list of the files it removes from
    the upload folder.  [listdir] is the listing of the folder and [images]
    the rows of [UserImage], owner and file name, or for each the error
    raised on the way; [os_remove] tells whether removing a file
    succeeds; [now] is the time read by [cleanup_gemini_cache]. *)
Definition clean_old_files (now : datetime)
    (listdir : io_error + list string)
    (images : io_error + list (user_id * string))
    (os_remove : string → bool) (user_id : user_id) : M (list string) :=
  match listdir with
  | inl _ => ret []
  | inr all_files =>
      let all_files :=
        if bool_decide (".gitkeep" ∈ all_files)
        then list_remove ".gitkeep" all_files else all_files in
      match images with
      | inl _ => ret []
      | inr images =>
          let valid_files :=
            if truthy_user user_id
            then (filter (λ img, img.1 = user_id) images).*2
            else images.*2 in
          let deleted :=
            filter (λ filename,
                      (filename ∉ valid_files) ∧ os_remove filename = true)
                   all_files in
          cleanup_gemini_cache now ;;
          ret deleted
      end
  end.

(** ** The same world with a readable file *)

(** The world [e] with the file at [image_path] readable, holding [f]. *)
Definition with_file (e : env) (image_path : string) (f : list Byte.byte)
  : env :=
  Env (today e) (now_at_check e)
      (λ path, if decide (path = image_path) then inr f else open_rb e path)
      (md5_hexdigest e) (GEMINI_MODEL e) (start_time e) (gemini e)
      (now_at_update e).

(** * Properties *)

(** Unfolding of the monad, for running a computation on a state. *)
Ltac run :=
  unfold value, final, calls, mbind, mret, M_bind, M_ret, bind, ret, called,
    get_state, put_state in *; simpl in *.


(** Splitting a [Forall] over a log along its structure. *)
Ltac forall_events :=
  repeat match goal with
    | |- Forall _ [] => apply Forall_nil_2
    | |- Forall _ (_ :: _) => apply Forall_cons; split
    | |- Forall _ (_ ++ _) => apply Forall_app; split
    | |- Forall _ (if ?b then _ else _) => destruct b
    | |- Forall _ _ => assumption
    end;
  try (simpl; tauto).

(** ** Quota tracker *)

Lemma check_daily_quota_run today u s :
  check_daily_quota today u s =
    let s' := after_rollover today s in
    let used := default 0 (gemini_daily_counts s' !! u) in
    ((negb (FREE_TIER_DAILY_LIMIT <=? used), used, FREE_TIER_DAILY_LIMIT),
     s', [Called_check_daily_quota u]).
Proof.
  unfold check_daily_quota, after_rollover. run.
  destruct (decide (today ≠ gemini_daily_reset_date s)) as [Hne|Heq];
    destruct (decide (today = gemini_daily_reset_date s)) as [Heq'|Hne'];
    try contradiction; simpl.
  - by destruct (_ <=? _).
  - by destruct (_ <=? _).
Qed.

Lemma increment_daily_count_run u s :
  increment_daily_count u s =
    let n := default 0 (gemini_daily_counts s !! u) + 1 in
    (n,
     State (gemini_last_call_time s) (gemini_user_cooldowns s)
           (<[u := n]> (gemini_daily_counts s))
           (gemini_daily_reset_date s) (gemini_request_cache s),
     [Called_increment_daily_count u]).
Proof. reflexivity. Qed.

(** ** Cooldown gate *)

Lemma check_gemini_cooldown_state now u s :
  final (check_gemini_cooldown now u s) = s.
Proof.
  unfold check_gemini_cooldown. run.
  destruct (_ <? _); [done|].
  destruct (truthy_user u); [|done].
  by destruct (_ <? _).
Qed.

Lemma check_gemini_cooldown_calls now u s :
  calls (check_gemini_cooldown now u s) = [Called_check_gemini_cooldown u].
Proof.
  unfold check_gemini_cooldown. run.
  destruct (_ <? _); [done|].
  destruct (truthy_user u); [|done].
  by destruct (_ <? _).
Qed.

Lemma update_gemini_call_time_run now1 now2 u s :
  update_gemini_call_time now1 now2 u s =
    (tt,
     State now1
           (if truthy_user u then <[u := now2]> (gemini_user_cooldowns s)
            else gemini_user_cooldowns s)
           (gemini_daily_counts s) (gemini_daily_reset_date s)
           (gemini_request_cache s),
     [Called_update_gemini_call_time u]).
Proof. reflexivity. Qed.

(** C8 as the specification words it fails: on the first check of a new
    day [check_daily_quota] empties the counts and moves the reset date. *)
Lemma check_daily_quota_mutates_on_rollover :
  let s := State datetime_min ∅ {[UInt 7 := 3]} 100 [] in
  let r := check_daily_quota 101 (UInt 7) s in
  value r = (true, 0, 15)
  ∧ gemini_daily_counts (final r) = ∅
  ∧ gemini_daily_reset_date (final r) = 101
  ∧ final r ≠ s.
Proof.
  vm_compute. repeat split. discriminate.
Qed.

(** C8, amended: [check_gemini_cooldown] leaves every global as it was.
    [check_daily_quota] leaves every global as it was when the reset date is
    today; on another day it empties [gemini_daily_counts] and sets
    [gemini_daily_reset_date] to today, and touches neither the cooldown
    globals nor the cache.  Of the other two operations,
    [increment_daily_count] writes the user's count and nothing else, and
    [update_gemini_call_time] writes the global timestamp and, for a truthy
    user, that user's timestamp, and nothing else. *)
Theorem checks_frame (today : date) (now now1 now2 : datetime) (u : user_id)
    (s : state) :
  final (check_gemini_cooldown now u s) = s
  ∧ final (check_daily_quota today u s) =
      (if decide (today = gemini_daily_reset_date s) then s
       else State (gemini_last_call_time s) (gemini_user_cooldowns s)
                  ∅ today (gemini_request_cache s))
  ∧ final (increment_daily_count u s) =
      State (gemini_last_call_time s) (gemini_user_cooldowns s)
            (<[u := default 0 (gemini_daily_counts s !! u) + 1]>
               (gemini_daily_counts s))
            (gemini_daily_reset_date s) (gemini_request_cache s)
  ∧ final (update_gemini_call_time now1 now2 u s) =
      State now1
            (if truthy_user u then <[u := now2]> (gemini_user_cooldowns s)
             else gemini_user_cooldowns s)
            (gemini_daily_counts s) (gemini_daily_reset_date s)
            (gemini_request_cache s).
Proof.
  split; [apply check_gemini_cooldown_state|].
  split; [by rewrite check_daily_quota_run|].
  by rewrite increment_daily_count_run, update_gemini_call_time_run.
Qed.

(** C5 as the specification words it fails for [increment_daily_count]:
    the stored reset date is day 100 and the count is written on day 101;
    the map is not cleared and the reset date stays where it was. *)
Lemma increment_daily_count_ignores_rollover :
  let s := State datetime_min ∅ {[UInt 7 := 3]} 100 [] in
  let today := 101 in
  let r := increment_daily_count (UInt 7) s in
  today ≠ gemini_daily_reset_date s
  ∧ value r = 4
  ∧ gemini_daily_counts (final r) !! UInt 7 = Some 4
  ∧ gemini_daily_reset_date (final r) ≠ today.
Proof.
  vm_compute. repeat split; discriminate.
Qed.

(** C5, amended: the rollover belongs to [check_daily_quota] alone.  After
    it the reset date is today, the counts are those of today (emptied when
    the stored date was another day), and the count it reports is read from
    that map.  [increment_daily_count] adds one to the stored count and
    leaves the reset date alone. *)
Theorem quota_rollover_on_check (today : date) (u : user_id) (s : state) :
  let r := check_daily_quota today u s in
  let used := default 0 (gemini_daily_counts (final r) !! u) in
  gemini_daily_reset_date (final r) = today
  ∧ gemini_daily_counts (final r) =
      (if decide (today = gemini_daily_reset_date s)
       then gemini_daily_counts s else ∅)
  ∧ value r = (negb (FREE_TIER_DAILY_LIMIT <=? used), used,
               FREE_TIER_DAILY_LIMIT)
  ∧ gemini_daily_reset_date (final (increment_daily_count u s))
    = gemini_daily_reset_date s
  ∧ gemini_daily_counts (final (increment_daily_count u s))
    = <[u := default 0 (gemini_daily_counts s !! u) + 1]>
        (gemini_daily_counts s).
Proof.
  rewrite check_daily_quota_run, increment_daily_count_run.
  unfold final, value, after_rollover; simpl.
  destruct (decide (today = gemini_daily_reset_date s)); simpl; auto.
Qed.

(** C7 as the specification words it fails: user 1 is recorded at 1000 s,
    user 2 at 1029 s, and user 1 calls again at 1030 s, 30 s after the own
    call.  Both cooldowns are active, so the rejection is the global one,
    and its wait is 59 s: 29 s more than the cooldown less the time since
    the user's call. *)
Lemma wait_follows_the_global_timestamp :
  let s0 := final (update_gemini_call_time (seconds 1000) (seconds 1000)
                     (UInt 1) (initial_state 738000)) in
  let s := final (update_gemini_call_time (seconds 1029) (seconds 1029)
                    (UInt 2) s0) in
  let r := value (check_gemini_cooldown (seconds 1030) (UInt 1) s) in
  gemini_user_cooldowns s !! UInt 1 = Some (seconds 1000)
  ∧ seconds FREE_TIER_COOLDOWN - (seconds 1030 - seconds 1000) = seconds 30
  ∧ r = (false, seconds 59, GlobalCooldownActive (seconds 59))
  ∧ Z.abs (r.1.2 - seconds 30) = seconds 29.
Proof. vm_compute. by repeat split. Qed.

(** C7, amended: in [check_gemini_cooldown] the global cooldown is tested
    first.  A user whose own cooldown is active is rejected; while the
    global cooldown is active too, message and wait time are the global
    ones; otherwise they are the user's, the wait being the cooldown less
    the time since the user's recorded call.  The wait is within a second
    of the cooldown less the time since the user's call when the global
    timestamp is less than a second before the user's, and this is so when
    the user's call is the one last recorded, by [update_gemini_call_time]
    with its two clock readings less than a second apart.  When another
    call was recorded since, the wait is the global one. *)
Theorem cooldown_global_first (s : state) (u : user_id) (now t_user : datetime) :
  truthy_user u = true →
  gemini_user_cooldowns s !! u = Some t_user →
  now - t_user < seconds FREE_TIER_COOLDOWN →
  let r := value (check_gemini_cooldown now u s) in
  let wait_time := r.1.2 in
  let since_global := now - gemini_last_call_time s in
  r.1.1 = false
  ∧ (since_global < seconds FREE_TIER_COOLDOWN →
     wait_time = seconds FREE_TIER_COOLDOWN - since_global
     ∧ r.2 = GlobalCooldownActive wait_time)
  ∧ (seconds FREE_TIER_COOLDOWN ≤ since_global →
     wait_time = seconds FREE_TIER_COOLDOWN - (now - t_user)
     ∧ r.2 = PleaseWait wait_time)
  ∧ (gemini_last_call_time s ≤ t_user
                              < gemini_last_call_time s + seconds 1 →
     Z.abs (wait_time - (seconds FREE_TIER_COOLDOWN - (now - t_user)))
     < seconds 1)
  ∧ (∀ s0 now1 now2,
       s = final (update_gemini_call_time now1 now2 u s0) →
       now1 ≤ now2 < now1 + seconds 1 →
       t_user = now2
       ∧ Z.abs (wait_time - (seconds FREE_TIER_COOLDOWN - (now - now2)))
         < seconds 1).
Proof.
  intros Hu Hlook Hact.
  assert (Hrec : ∀ s0 now1 now2,
            s = final (update_gemini_call_time now1 now2 u s0) →
            gemini_last_call_time s = now1 ∧ t_user = now2).
  { intros s0 now1 now2 ->. rewrite update_gemini_call_time_run in Hlook |- *.
    unfold final in *; cbn [fst snd gemini_last_call_time
                            gemini_user_cooldowns] in *.
    rewrite Hu, lookup_insert_eq in Hlook. split; [done|congruence]. }
  assert (Hmain :
    let r := value (check_gemini_cooldown now u s) in
    r.1.1 = false
    ∧ (now - gemini_last_call_time s < seconds FREE_TIER_COOLDOWN →
       r.1.2 = seconds FREE_TIER_COOLDOWN - (now - gemini_last_call_time s)
       ∧ r.2 = GlobalCooldownActive r.1.2)
    ∧ (seconds FREE_TIER_COOLDOWN ≤ now - gemini_last_call_time s →
       r.1.2 = seconds FREE_TIER_COOLDOWN - (now - t_user)
       ∧ r.2 = PleaseWait r.1.2)).
  { unfold check_gemini_cooldown. run. rewrite Hu, Hlook. simpl.
    destruct (Z.ltb_spec (now - gemini_last_call_time s)
                         (seconds FREE_TIER_COOLDOWN)) as [Hg|Hg]; simpl.
    - repeat split; try done; lia.
    - destruct (Z.ltb_spec (now - t_user) (seconds FREE_TIER_COOLDOWN));
        [|lia]; simpl.
      repeat split; try done; lia. }
  cbn zeta in Hmain |- *. destruct Hmain as (Hrej & Hglobal & Huser).
  assert (Hclose :
    gemini_last_call_time s ≤ t_user < gemini_last_call_time s + seconds 1 →
    Z.abs ((value (check_gemini_cooldown now u s)).1.2
           - (seconds FREE_TIER_COOLDOWN - (now - t_user))) < seconds 1).
  { intros Hgap.
    destruct (Z.lt_ge_cases (now - gemini_last_call_time s)
                            (seconds FREE_TIER_COOLDOWN)) as [Hg|Hg].
    - destruct (Hglobal Hg) as [-> _]. unfold seconds in *. lia.
    - destruct (Huser Hg) as [-> _]. unfold seconds in *. lia. }
  split; [done|]. split; [done|]. split; [done|]. split; [done|].
  intros s0 now1 now2 Hs Hgap.
  destruct (Hrec s0 now1 now2 Hs) as [Hl <-]. split; [done|].
  apply Hclose. by rewrite Hl.
Qed.

Lemma cooldown_global_first_witness :
  let s := final (update_gemini_call_time (seconds 1000) (seconds 1000 + 7)
                    (UInt 1) (initial_state 738000)) in
  let r := value (check_gemini_cooldown (seconds 1020) (UInt 1) s) in
  r.1.1 = false
  ∧ r.2 = GlobalCooldownActive (seconds 40)
  ∧ Z.abs (r.1.2 - (seconds FREE_TIER_COOLDOWN
                    - (seconds 1020 - (seconds 1000 + 7)))) < seconds 1.
Proof.
  intros s r.
  destruct (cooldown_global_first s (UInt 1) (seconds 1020)
              (seconds 1000 + 7))
    as (Hrej & Hglobal & _ & Hclose & _).
  - reflexivity.
  - vm_compute. reflexivity.
  - vm_compute. reflexivity.
  - split; [exact Hrej|]. split.
    + destruct Hglobal as [Hw Hm]; [vm_compute; reflexivity|].
      subst r. rewrite Hm, Hw. reflexivity.
    + apply Hclose. vm_compute. split; [discriminate|reflexivity].
Defined.

(** ** Effects of a success *)

Lemma cache_result_run ih mode cp tone len lang q r s :
  cache_result ih mode cp tone len lang q r s =
    let key := cache_key ih mode cp tone len lang q in
    (tt,
     State (gemini_last_call_time s) (gemini_user_cooldowns s)
           (gemini_daily_counts s) (gemini_daily_reset_date s)
           (cache_after key r (gemini_request_cache s)),
     [Called_cache_result key]).
Proof. reflexivity. Qed.

Lemma on_success_run e mode cp tone len lang q u ih mc txt fin s :
  let rd := Result (ModelText txt) (estimate_confidence txt)
                   (fin - start_time e) false 0 (Some mc) (Some false) in
  let key := cache_key (PyStr.format ih) mode cp tone len lang q in
  let caching := PyStr.truthy_opt ih in
  on_success e mode cp tone len lang q u ih mc txt fin s =
    (rd,
     state_after_success e u
       (if caching then cache_after key rd (gemini_request_cache s)
        else gemini_request_cache s) s,
     (if caching then [Called_cache_result key] else [])
     ++ Called_update_gemini_call_time u
     :: (if truthy_user u then [Called_increment_daily_count u] else [])).
Proof.
  unfold on_success, state_after_success.
  destruct ih as [h|]; simpl; [destruct (PyStr.truthy h) eqn:Hh|];
    destruct (truthy_user u) eqn:Hu; run; rewrite ?Hu; simpl;
    try reflexivity.
Qed.

(** ** The fallback loop *)

#[local] Arguments on_success : simpl never.

Section loop_facts.
Variable e : env.
Variables (image_path mode : string) (custom_prompt : option string).
Variables (tone length_ language : string) (question : option string).
Variable u : user_id.

Local Abbreviation loop := (for_each_model e image_path mode custom_prompt tone
                                 length_ language question u).
Local Abbreviation success := (on_success e mode custom_prompt tone length_ language
                                question u).

(** One iteration, by the attempt's outcome. *)
Lemma loop_cons ih m rest le s :
  loop ih (m :: rest) le s =
    match gemini e image_path m with
    | Setup_raises err =>
        let '(x, s', l) := loop ih rest (Some err) s in
        (x, s', Attempting m :: l)
    | a =>
        let probe :=
          [Attempting m;
           Called_generate_content (clean m)
             (final_prompt mode custom_prompt tone length_ language
                           question)] in
        match generate_content a with
        | inl err =>
            if is_quota_error err then (Fell_through (Some err), s, probe)
            else
              let '(x, s', l) :=
                loop ih rest
                     (if is_not_found_error err || is_unavailable_error err
                      then le else Some err) s in
              (x, s', probe ++ l)
        | inr (txt, fin) =>
            let '(rd, s', l) := success ih (clean m) txt fin s in
            (Returned rd, s', probe ++ l)
        end
    end.
Proof.
  cbn [for_each_model].
  destruct (gemini e image_path m) as [err|err|txt fin] eqn:Hg.
  - run. by destruct (loop ih rest (Some err) s) as [[x s'] l].
  - run. destruct (is_quota_error err); [done|].
    destruct (is_not_found_error err); simpl.
    { by destruct (loop ih rest le s) as [[x s'] l]. }
    destruct (is_unavailable_error err); simpl.
    { by destruct (loop ih rest le s) as [[x s'] l]. }
    by destruct (loop ih rest (Some err) s) as [[x s'] l].
  - unfold generate_content.
    destruct (negb (PyStr.truthy txt)); run.
    + by destruct (loop ih rest (Some _) s) as [[x s'] l].
    + destruct (success ih (clean m) txt fin s) as [[rd s'] l].
      by rewrite app_nil_r.
Qed.

(** A run of the loop only probes, and then either falls through with
    the state untouched or is ended by [on_success] for one model that
    responded. *)
Lemma loop_run ih models le s :
  ∃ probes, Forall is_probe probes ∧
    ((∃ le', loop ih models le s = (Fell_through le', s, probes))
     ∨ (∃ m txt fin,
          m ∈ models
          ∧ generate_content (gemini e image_path m) = inr (txt, fin)
          ∧ loop ih models le s =
              let '(rd, s', l) := success ih (clean m) txt fin s in
              (Returned rd, s', probes ++ l))).
Proof.
  revert le. induction models as [|m rest IH]; intros le.
  { exists []. split; [constructor|]. left. by exists le. }
  rewrite loop_cons.
  assert (Hstep : ∀ le1 (pre : list event), Forall is_probe pre →
    ∃ probes, Forall is_probe probes ∧
      ((∃ le', (let '(x, s', l) := loop ih rest le1 s in (x, s', pre ++ l))
               = (Fell_through le', s, probes))
       ∨ (∃ m0 txt fin,
            m0 ∈ m :: rest
            ∧ generate_content (gemini e image_path m0) = inr (txt, fin)
            ∧ (let '(x, s', l) := loop ih rest le1 s in (x, s', pre ++ l))
              = let '(rd, s', l) := success ih (clean m0) txt fin s in
                (Returned rd, s', probes ++ l)))).
  { intros le1 pre Hpre.
    destruct (IH le1)
      as (probes & Hp & [[le' ->]|(m' & txt & fin & Hin & Hgen & ->)]).
    - exists (pre ++ probes). split; [by apply Forall_app|].
      left. by exists le'.
    - exists (pre ++ probes). split; [by apply Forall_app|].
      right. exists m', txt, fin. split; [set_solver|]. split; [done|].
      destruct (success ih (clean m') txt fin s) as [[rd s'] l].
      by rewrite app_assoc. }
  assert (Hquota : ∀ err (pre : list event), Forall is_probe pre →
    ∃ probes, Forall is_probe probes ∧
      ((∃ le', (Fell_through (Some err), s, pre)
               = (Fell_through le', s, probes))
       ∨ (∃ m0 txt fin,
            m0 ∈ m :: rest
            ∧ generate_content (gemini e image_path m0) = inr (txt, fin)
            ∧ (Fell_through (Some err), s, pre)
              = let '(rd, s', l) := success ih (clean m0) txt fin s in
                (Returned rd, s', probes ++ l)))).
  { intros err pre Hpre. exists pre. split; [done|]. left. by eexists. }
  destruct (gemini e image_path m) as [err|err|txt fin] eqn:Hg.
  - apply (Hstep (Some err) [Attempting m]). by repeat constructor.
  - simpl. destruct (is_quota_error err).
    + apply Hquota. by repeat constructor.
    + apply (Hstep _ [_; _]). by repeat constructor.
  - destruct (generate_content (Responds txt fin))
      as [err|[txt' fin']] eqn:Hgen.
    + destruct (is_quota_error err).
      * apply Hquota. by repeat constructor.
      * apply (Hstep _ [_; _]). by repeat constructor.
    + exists [Attempting m;
              Called_generate_content (clean m)
                (final_prompt mode custom_prompt tone length_ language
                              question)].
      split; [by repeat constructor|].
      right. exists m, txt', fin'. split; [set_solver|].
      by rewrite Hg.
Qed.

(** What the loop returns does not depend on the globals. *)
Lemma loop_value ih models le s s' :
  value (loop ih models le s) = value (loop ih models le s').
Proof.
  revert le. induction models as [|m rest IH]; intros le; [done|].
  rewrite !loop_cons.
  assert (Hlet : ∀ le1 (pre : list event),
    value (let '(x, t, l) := loop ih rest le1 s in (x, t, pre ++ l))
    = value (let '(x, t, l) := loop ih rest le1 s' in (x, t, pre ++ l))).
  { intros le1 pre. specialize (IH le1).
    destruct (loop ih rest le1 s) as [[x t] l].
    by destruct (loop ih rest le1 s') as [[x' t'] l']. }
  destruct (gemini e image_path m) as [err|err|txt fin].
  - apply (Hlet (Some err) [Attempting m]).
  - simpl. destruct (is_quota_error err); [done|]. apply (Hlet _ [_; _]).
  - destruct (generate_content (Responds txt fin)) as [err|[txt' fin']].
    + destruct (is_quota_error err); [done|]. apply (Hlet _ [_; _]).
    + by rewrite !on_success_run.
Qed.

Lemma success_no_attempt ih mc txt fin s m :
  Attempting m ∉ calls (success ih mc txt fin s).
Proof.
  rewrite on_success_run. unfold calls; simpl. intros H.
  apply elem_of_app in H as [H|H].
  - destruct (PyStr.truthy_opt ih);
      [apply list_elem_of_singleton in H; discriminate H
      |by apply elem_of_nil in H].
  - apply elem_of_cons in H as [H|H]; [discriminate H|].
    destruct (truthy_user u);
      [apply list_elem_of_singleton in H; discriminate H
      |by apply elem_of_nil in H].
Qed.

(** If the loop gets as far as a model, the run is the probing of the
    models before it followed by the run from that model on. *)
Lemma loop_reaches ih pre m post le s :
  NoDup (pre ++ m :: post) →
  Attempting m ∈ calls (loop ih (pre ++ m :: post) le s) →
  ∃ le' head,
    Forall is_probe head
    ∧ (∀ m', Attempting m' ∈ head → m' ∈ pre)
    ∧ loop ih (pre ++ m :: post) le s =
        let '(x, s', l) := loop ih (m :: post) le' s in
        (x, s', head ++ l).
Proof.
  revert le. induction pre as [|x pre IH]; intros le Hnd Hin.
  { exists le, []. split; [constructor|]. split.
    - intros m' H. by apply elem_of_nil in H.
    - change ([] ++ m :: post) with (m :: post).
      by destruct (loop ih (m :: post) le s) as [[y s'] l]. }
  change ((x :: pre) ++ m :: post) with (x :: (pre ++ m :: post)) in *.
  apply NoDup_cons in Hnd as [Hx Hnd].
  assert (Hxm : x ≠ m).
  { intros ->. apply Hx. apply elem_of_app. right. apply elem_of_cons.
    by left. }
  rewrite loop_cons in Hin |- *.
  set (probe := [Attempting x;
                 Called_generate_content (clean x)
                   (final_prompt mode custom_prompt tone length_ language
                                 question)]) in *.
  assert (Hprobe : Attempting m ∉ probe).
  { subst probe. intros H.
    apply elem_of_cons in H as [H|H]; [congruence|].
    apply list_elem_of_singleton in H. discriminate H. }
  assert (Hstep : ∀ le1 (ev : list event),
    Forall is_probe ev →
    (∀ m', Attempting m' ∈ ev → m' = x) →
    Attempting m ∈ calls (let '(y, s', l) := loop ih (pre ++ m :: post) le1 s
                          in (y, s', ev ++ l)) →
    ∃ le' head,
      Forall is_probe head
      ∧ (∀ m', Attempting m' ∈ head → m' ∈ x :: pre)
      ∧ (let '(y, s', l) := loop ih (pre ++ m :: post) le1 s
         in (y, s', ev ++ l))
        = (let '(y, s', l) := loop ih (m :: post) le' s
           in (y, s', head ++ l))).
  { intros le1 ev Hev Hevx Hin1.
    destruct (IH le1 Hnd) as (le' & head & Hh & Hpre & Heq).
    - destruct (loop ih (pre ++ m :: post) le1 s) as [[y s'] l].
      unfold calls in *; simpl in *.
      apply elem_of_app in Hin1 as [Hin1|Hin1]; [|done].
      apply Hevx in Hin1. congruence.
    - exists le', (ev ++ head). split; [by apply Forall_app|]. split.
      + intros m' [H|H]%elem_of_app.
        * apply Hevx in H as ->. by left.
        * right. by apply Hpre.
      + rewrite Heq.
        destruct (loop ih (m :: post) le' s) as [[y s'] l].
        by rewrite app_assoc. }
  assert (Hone : ∀ m', Attempting m' ∈ [Attempting x] → m' = x).
  { intros m' H. apply list_elem_of_singleton in H. congruence. }
  assert (Htwo : ∀ m', Attempting m' ∈ probe → m' = x).
  { subst probe. intros m' H.
    apply elem_of_cons in H as [H|H]; [congruence|].
    apply list_elem_of_singleton in H. discriminate H. }
  assert (Hprobes : Forall is_probe probe) by (by repeat constructor).
  destruct (gemini e image_path x) as [err|err|txt fin] eqn:Hg.
  - apply (Hstep (Some err) [Attempting x]); [by repeat constructor|done|].
    done.
  - cbn [generate_content] in Hin |- *. destruct (is_quota_error err).
    + unfold calls in Hin; simpl in Hin. by destruct Hprobe.
    + by apply Hstep.
  - destruct (generate_content (Responds txt fin))
      as [err|[txt' fin']] eqn:Hgen.
    + destruct (is_quota_error err).
      * unfold calls in Hin; simpl in Hin. by destruct Hprobe.
      * by apply Hstep.
    + exfalso.
      pose proof (success_no_attempt ih (clean x) txt' fin' s m) as Hno.
      destruct (success ih (clean x) txt' fin' s) as [[rd s'] l].
      unfold calls in *; cbn [snd] in *.
      apply elem_of_app in Hin as [Hin|Hin]; [by apply Hprobe|done].
Qed.

(** Models that fail as missing or unavailable are passed over without
    a trace in [last_error]. *)
Lemma loop_all_skipped ih models le s :
  (∀ m, m ∈ models →
     ∃ err, gemini e image_path m = Generate_raises err
            ∧ is_quota_error err = false
            ∧ is_not_found_error err || is_unavailable_error err = true) →
  ∃ probes, loop ih models le s = (Fell_through le, s, probes).
Proof.
  induction models as [|m rest IH]; intros Hall; [by exists []|].
  destruct (Hall m) as (err & Hg & Hq & Hskip); [by left|].
  destruct IH as [probes Hrest].
  { intros m' Hm'. apply Hall. by right. }
  rewrite loop_cons, Hg. cbn [generate_content]. rewrite Hq, Hskip, Hrest.
  by eexists.
Qed.
End loop_facts.

(** ** Structure of a call *)

Section call_facts.
Variable e : env.
Variables (image_path mode : string) (custom_prompt : option string).
Variables (tone length_ language : string) (question : option string).
Variable u : user_id.

Local Abbreviation process :=
  (process_image_with_gemini e image_path mode custom_prompt tone length_
                             language question u).
Local Abbreviation adapter :=
  (provider_adapter e image_path mode custom_prompt tone length_ language
                    question u).
Local Abbreviation key_of :=
  (λ h, cache_key h mode custom_prompt tone length_ language question).

Lemma admission_run s :
  let s1 := after_admission e u s in
  let used := default 0 (gemini_daily_counts s1 !! u) in
  let quota_log :=
    if truthy_user u then [Called_check_daily_quota u] else [] in
  admission e u s =
    if truthy_user u && (FREE_TIER_DAILY_LIMIT <=? used) then
      (Some (Result (DailyQuotaExceeded used FREE_TIER_DAILY_LIMIT) Low 0
                    false (seconds 3600) None (Some true)),
       s1, quota_log)
    else
      let c := value (check_gemini_cooldown (now_at_check e) u s1) in
      (if c.1.1 then None
       else Some (Result (Cooldown c.2) Low 0 false c.1.2 None None),
       s1, quota_log ++ [Called_check_gemini_cooldown u]).
Proof.
  unfold admission, after_admission.
  destruct (truthy_user u) eqn:Hu; simpl.
  - unfold mbind, M_bind, bind at 1 2. rewrite check_daily_quota_run. simpl.
    fold (after_rollover (today e) s).
    destruct (FREE_TIER_DAILY_LIMIT <=? _) eqn:Hq; simpl; [done|].
    pose proof (check_gemini_cooldown_state (now_at_check e) u
                  (after_rollover (today e) s)) as Hs.
    pose proof (check_gemini_cooldown_calls (now_at_check e) u
                  (after_rollover (today e) s)) as Hc.
    unfold bind.
    destruct (check_gemini_cooldown _ _ _) as [[[[can w] msg] s'] l].
    unfold final, calls, value in *; simpl in *; subst.
    by destruct can.
  - pose proof (check_gemini_cooldown_state (now_at_check e) u s) as Hs.
    pose proof (check_gemini_cooldown_calls (now_at_check e) u s) as Hc.
    unfold mbind, M_bind, bind, mret, M_ret, ret. simpl.
    destruct (check_gemini_cooldown _ _ _) as [[[[can w] msg] s'] l].
    unfold final, calls, value in *; simpl in *; subst.
    by destruct can.
Qed.

(** The adapter only probes, and then either reports the failure with
    the state untouched or returns what [on_success] returns. *)
Lemma adapter_run ih s :
  ∃ probes, Forall is_probe probes ∧
    ((∃ le, adapter ih s = (all_models_failed le, s, probes))
     ∨ (∃ m txt fin,
          m ∈ models_to_try e
          ∧ generate_content (gemini e image_path m) = inr (txt, fin)
          ∧ adapter ih s =
              let '(rd, s', l) :=
                on_success e mode custom_prompt tone length_ language
                           question u ih (clean m) txt fin s in
              (rd, s', probes ++ l))).
Proof.
  unfold provider_adapter, mbind, M_bind, bind.
  destruct (loop_run e image_path mode custom_prompt tone length_ language
              question u ih (models_to_try e) None s)
    as (probes & Hp & [[le ->]|(m & txt & fin & Hin & Hgen & ->)]).
  - exists probes. split; [done|]. left. exists le.
    unfold ret. by rewrite app_nil_r.
  - exists probes. split; [done|]. right. exists m, txt, fin.
    split; [done|]. split; [done|].
    destruct (on_success _ _ _ _ _ _ _ _ _ _ _ _ s) as [[rd s'] l].
    unfold ret. by rewrite app_nil_r.
Qed.

(** A call, by the outcome of its admission checks and cache lookup. *)
Lemma process_run s :
  let s1 := after_admission e u s in
  let ih := image_hash_of e image_path in
  let key := key_of (PyStr.format ih) in
  let lookup_log :=
    Called_calculate_image_hash
    :: (if PyStr.truthy_opt ih then [Called_get_cached_result key]
        else []) in
  process s =
    match admission e u s with
    | (Some rejection, _, l1) => (rejection, s1, l1)
    | (None, _, l1) =>
        match cache_hit key ih s1 with
        | Some c =>
            (Result (text c) (confidence c) (processing_time c) true 0
                    None (Some false),
             s1, l1 ++ lookup_log)
        | None =>
            let '(r, s2, l2) := adapter ih s1 in
            (r, s2, l1 ++ lookup_log ++ l2)
        end
    end.
Proof.
  intros s1 ih key lookup_log.
  pose proof (admission_run s) as Ha. simpl in Ha. fold s1 in Ha.
  unfold process_image_with_gemini. unfold mbind, M_bind, bind at 1.
  rewrite Ha. clear Ha.
  destruct (truthy_user u && _).
  { unfold ret. by rewrite app_nil_r. }
  simpl.
  destruct (value (check_gemini_cooldown (now_at_check e) u s1)).1.1.
  2: { unfold ret. by rewrite app_nil_r. }
  unfold calculate_image_hash, cache_lookup, get_cached_result, cache_hit.
  subst lookup_log key ih. unfold image_hash_of.
  destruct (hash_file _ _) as [err|h]; run.
  - by destruct (adapter None s1) as [[r s2] l2].
  - destruct (PyStr.truthy h) eqn:Hh; run.
    + destruct (Dict.get _ _) as [c|]; run; [done|].
      by destruct (adapter (Some h) s1) as [[r s2] l2].
    + by destruct (adapter (Some h) s1) as [[r s2] l2].
Qed.
Lemma probes_quiet l : Forall is_probe l → Forall is_quiet l.
Proof. intros H. eapply Forall_impl; [done|]. by intros []. Qed.

Lemma admission_quiet s : Forall is_quiet (calls (admission e u s)).
Proof.
  rewrite admission_run. simpl.
  destruct (truthy_user u); simpl;
    try destruct (FREE_TIER_DAILY_LIMIT <=? _); simpl;
    by repeat constructor.
Qed.

(** Every call is of one of two kinds.  Either no model succeeded: then
    the result carries no ['model_used'], the globals are as the
    admission checks left them and only quiet events happened.  Or some
    model responded after a cache miss: then the result, the globals and
    the events are those of [on_success], after quiet events only. *)
Lemma process_cases s :
  let s1 := after_admission e u s in
  let ih := image_hash_of e image_path in
  let key := key_of (PyStr.format ih) in
  ∃ head, Forall is_quiet head ∧
    ((model_used (value (process s)) = None
      ∧ final (process s) = s1 ∧ calls (process s) = head)
     ∨ (∃ m txt fin,
          m ∈ models_to_try e
          ∧ generate_content (gemini e image_path m) = inr (txt, fin)
          ∧ value (admission e u s) = None
          ∧ cache_hit key ih s1 = None
          ∧ process s =
              let '(rd, s', l) :=
                on_success e mode custom_prompt tone length_ language
                           question u ih (clean m) txt fin s1 in
              (rd, s', head ++ l))).
Proof.
  intros s1 ih key. rewrite process_run. fold s1 ih key.
  pose proof (admission_quiet s) as Hq.
  destruct (admission e u s) as [[[rej|] s'] l1] eqn:Ha; unfold calls in Hq;
    simpl in Hq.
  { exists l1. split; [done|]. left. split; [|done].
    rewrite admission_run in Ha. simpl in Ha.
    destruct (truthy_user u && _); [by inversion Ha|].
    destruct (value _).1.1; by inversion Ha. }
  set (lookup_log := Called_calculate_image_hash :: _).
  assert (Forall is_quiet lookup_log) as Hl.
  { subst lookup_log. destruct (PyStr.truthy_opt ih); by repeat constructor. }
  destruct (cache_hit key ih s1) as [c|] eqn:Hhit.
  { exists (l1 ++ lookup_log). split; [by apply Forall_app|]. by left. }
  destruct (adapter_run ih s1)
    as (probes & Hp%probes_quiet
        & [[le ->]|(m & txt & fin & Hin & Hgen & ->)]);
    (exists (l1 ++ lookup_log ++ probes); split;
     [by repeat (apply Forall_app; split)|]).
  - left. split; [|done]. unfold value; simpl.
    destruct le as [err|]; simpl; [|done].
    destruct (is_quota_error err); [done|].
    by destruct (PyStr.contains "404" err).
  - right. exists m, txt, fin. repeat split; try done.
    destruct (on_success _ _ _ _ _ _ _ _ _ _ _ _ s1) as [[rd s2] l].
    by rewrite <- !app_assoc.
Qed.

(** A call in which some model is attempted is the fallback loop run on
    the globals left by the admission checks, after events that attempt
    nothing. *)
Lemma process_attempted s m :
  Attempting m ∈ calls (process s) →
  ∃ head,
    (∀ m', Attempting m' ∉ head)
    ∧ process s =
        let '(x, s2, l) :=
          for_each_model e image_path mode custom_prompt tone length_
            language question u (image_hash_of e image_path)
            (models_to_try e) None (after_admission e u s) in
        (match x with
         | Returned result_data => result_data
         | Fell_through last_error => all_models_failed last_error
         end, s2, head ++ l).
Proof.
  rewrite process_run.
  set (s1 := after_admission e u s). set (ih := image_hash_of e image_path).
  set (lookup_log := Called_calculate_image_hash :: _).
  assert (Hq : ∀ l m', Forall is_quiet l → Forall (λ ev, ¬ is_probe ev) l →
                       Attempting m' ∉ l).
  { intros l m' _ Hl Hin. rewrite Forall_forall in Hl.
    by apply (Hl _ Hin). }
  assert (Hadm : Forall (λ ev, ¬ is_probe ev) (calls (admission e u s))).
  { rewrite admission_run. simpl. unfold calls.
    destruct (truthy_user u && _); simpl; forall_events. }
  assert (Hlook : Forall (λ ev, ¬ is_probe ev) lookup_log).
  { subst lookup_log. forall_events. }
  destruct (admission e u s) as [[[rej|] s'] l1]; unfold calls in *;
    cbn [snd] in *.
  { intros Hin. rewrite Forall_forall in Hadm. by destruct (Hadm _ Hin). }
  destruct (cache_hit _ ih s1) as [c|].
  { intros Hin. cbn [snd] in Hin.
    assert (Forall (λ ev, ¬ is_probe ev) (l1 ++ lookup_log)) as Hall
      by by apply Forall_app.
    rewrite Forall_forall in Hall. by destruct (Hall _ Hin). }
  intros _. exists (l1 ++ lookup_log). split.
  - intros m' Hin.
    assert (Forall (λ ev, ¬ is_probe ev) (l1 ++ lookup_log)) as Hall
      by by apply Forall_app.
    rewrite Forall_forall in Hall. by destruct (Hall _ Hin).
  - unfold provider_adapter, mbind, M_bind, bind.
    destruct (for_each_model _ _ _ _ _ _ _ _ _ _ _ _ s1) as [[x s2] l].
    destruct x; unfold ret; by rewrite app_nil_r, app_assoc.
Qed.
End call_facts.

Lemma after_admission_cooldown e u s :
  gemini_last_call_time (after_admission e u s) = gemini_last_call_time s
  ∧ gemini_user_cooldowns (after_admission e u s) = gemini_user_cooldowns s
  ∧ gemini_request_cache (after_admission e u s) = gemini_request_cache s.
Proof.
  unfold after_admission, after_rollover.
  destruct (truthy_user u); [|done]. by destruct (decide _).
Qed.

(** ** Recording of calls *)

(** C4 as the specification words it fails: a call that is admitted, tries
    every model and fails (with no quota signal) does not call
    [update_gemini_call_time]; the global timestamp stays at
    [datetime.min]. *)
Lemma failed_attempt_leaves_call_time :
  let r := process_image_with_gemini
             (example_env (seconds 63000000000) every_model_not_found)
             "static/uploads/a.png" "caption" None "neutral" "medium" "en"
             None (UInt 1) (initial_state 738000) in
  (Attempting "gemini-2.0-flash" ∈ calls r)
  ∧ quota_exceeded (value r) = Some false
  ∧ (Called_update_gemini_call_time (UInt 1) ∉ calls r)
  ∧ gemini_last_call_time (final r) = datetime_min.
Proof.
  vm_compute. repeat split.
  - repeat constructor.
  - intros H. repeat (apply elem_of_cons in H as [H|H]; [discriminate H|]).
    by apply elem_of_nil in H.
Qed.

(** C4, amended: a call records its time exactly when a model responds.
    When the result carries a ['model_used'], [update_gemini_call_time] was
    called and [gemini_last_call_time] is the clock reading it took.  When
    it does not (a rejection, a cache hit, or any failure of the fallback
    loop, quota signal or not) only quiet events happened and the global and
    per-user timestamps are those found on entry. *)
Theorem call_time_recorded_on_success_only
    (e : env) (image_path mode : string) (custom_prompt : option string)
    (tone length_ language : string) (question : option string)
    (u : user_id) (s : state) :
  let r := process_image_with_gemini e image_path mode custom_prompt tone
             length_ language question u s in
  match model_used (value r) with
  | Some _ =>
      (Called_update_gemini_call_time u ∈ calls r)
      ∧ gemini_last_call_time (final r) = (now_at_update e).1
  | None =>
      Forall is_quiet (calls r)
      ∧ gemini_last_call_time (final r) = gemini_last_call_time s
      ∧ gemini_user_cooldowns (final r) = gemini_user_cooldowns s
  end.
Proof.
  intros r. subst r.
  destruct (process_cases e image_path mode custom_prompt tone length_
              language question u s)
    as (head & Hq & [(Hm & Hf & Hc)|(m & txt & fin & _ & _ & _ & _ & Hrun)]).
  - rewrite Hm, Hf, Hc.
    destruct (after_admission_cooldown e u s) as (-> & -> & _). done.
  - rewrite Hrun, on_success_run. unfold value, final, calls; simpl.
    split; [|done]. set_solver.
Qed.

(** ** Serving a call *)

Section serving_facts.
Variable e : env.
Variables (image_path mode : string) (custom_prompt : option string).
Variables (tone length_ language : string) (question : option string).
Variable u : user_id.

Local Abbreviation process :=
  (process_image_with_gemini e image_path mode custom_prompt tone length_
                             language question u).
Local Abbreviation loop :=
  (for_each_model e image_path mode custom_prompt tone length_ language
                  question u).
Local Abbreviation success :=
  (on_success e mode custom_prompt tone length_ language question u).
Local Abbreviation key_of :=
  (λ h, cache_key h mode custom_prompt tone length_ language question).

(** There is always a first candidate. *)
Lemma models_to_try_cons : ∃ m0 rest, models_to_try e = m0 :: rest.
Proof.
  unfold models_to_try, fallback_models.
  destruct (GEMINI_MODEL e) as [m|]; [destruct (PyStr.truthy m)|];
    cbn [app dict_fromkeys]; rewrite decide_False by apply not_elem_of_nil;
    by eexists _, _.
Qed.

(** The loop always begins by attempting its first model. *)
Lemma loop_attempts_first ih m0 rest le s :
  ∃ l, calls (loop ih (m0 :: rest) le s) = Attempting m0 :: l.
Proof.
  rewrite loop_cons. unfold calls.
  destruct (gemini e image_path m0) as [err|err|txt fin].
  - destruct (loop ih rest (Some err) s) as [[x s'] l]. by eexists.
  - cbn [generate_content]. destruct (is_quota_error err); [by eexists|].
    destruct (loop ih rest _ s) as [[x s'] l]. by eexists.
  - destruct (generate_content (Responds txt fin)) as [err|[txt' fin']].
    + destruct (is_quota_error err); [by eexists|].
      destruct (loop ih rest _ s) as [[x s'] l]. by eexists.
    + destruct (success ih (clean m0) txt' fin' s) as [[rd s'] l].
      by eexists.
Qed.

(** An admitted call that misses the cache attempts the first
    candidate. *)
Lemma process_attempts_first s m0 rest :
  value (admission e u s) = None →
  cache_hit (key_of (PyStr.format (image_hash_of e image_path)))
            (image_hash_of e image_path) (after_admission e u s) = None →
  models_to_try e = m0 :: rest →
  Attempting m0 ∈ calls (process s).
Proof.
  intros Hadm Hmiss Hmodels. rewrite process_run. cbn zeta.
  destruct (admission e u s) as [[rej s'] l1].
  unfold value in Hadm; cbn [fst] in Hadm. subst rej. rewrite Hmiss.
  unfold provider_adapter, mbind, M_bind, bind. rewrite Hmodels.
  destruct (loop_attempts_first (image_hash_of e image_path) m0 rest None
              (after_admission e u s)) as [l Hl].
  destruct (loop _ (m0 :: rest) None _) as [[x s2] l2].
  unfold calls in Hl |- *; cbn [snd] in Hl. subst l2.
  assert (Hin : ∀ (r : result) (s3 : state) (l3 : list event),
            Attempting m0 ∈ (r, s3, l1 ++ (Called_calculate_image_hash
              :: (if PyStr.truthy_opt (image_hash_of e image_path)
                  then [Called_get_cached_result
                          (key_of (PyStr.format
                                     (image_hash_of e image_path)))]
                  else []))
              ++ (Attempting m0 :: l) ++ l3).2).
  { intros r s3 l3. cbn [snd]. rewrite !elem_of_app. right. right. left.
    by left. }
  destruct x; unfold ret; apply Hin.
Qed.

(** An admitted call that misses the cache and whose first candidate
    responds: the whole run. *)
Lemma process_first_responds s m0 rest txt fin :
  let s1 := after_admission e u s in
  let ih := image_hash_of e image_path in
  let key := key_of (PyStr.format ih) in
  let caching := PyStr.truthy_opt ih in
  value (admission e u s) = None →
  cache_hit key ih s1 = None →
  models_to_try e = m0 :: rest →
  gemini e image_path m0 = Responds txt fin →
  PyStr.truthy txt = true →
  process s =
    (fresh_result e m0 txt fin,
     state_after_success e u
       (if caching
        then cache_after key (fresh_result e m0 txt fin)
                         (gemini_request_cache s1)
        else gemini_request_cache s1) s1,
     calls (admission e u s)
     ++ (Called_calculate_image_hash
         :: (if caching then [Called_get_cached_result key] else []))
     ++ [Attempting m0;
         Called_generate_content (clean m0)
           (final_prompt mode custom_prompt tone length_ language question)]
     ++ (if caching then [Called_cache_result key] else [])
     ++ Called_update_gemini_call_time u
     :: (if truthy_user u then [Called_increment_daily_count u] else [])).
Proof.
  intros s1 ih key caching Hadm Hmiss Hmodels Hg Htxt.
  rewrite process_run. cbn zeta. fold s1 ih key.
  destruct (admission e u s) as [[rej s'] l1].
  unfold value in Hadm; cbn [fst] in Hadm. subst rej. rewrite Hmiss.
  unfold provider_adapter, mbind, M_bind, bind.
  rewrite Hmodels, loop_cons, Hg. cbn [generate_content].
  rewrite Htxt. cbn [negb]. rewrite on_success_run. cbn zeta.
  unfold ret, calls, fresh_result; cbn [fst snd]. fold ih key caching.
  by rewrite app_nil_r.
Qed.

(** Which models the loop probes and how it ends does not depend on the
    hash: the hash is only passed on to [on_success]. *)
Lemma loop_run_uniform models : ∀ le s,
  ∃ probes, Forall is_probe probes ∧
    ((∃ le', ∀ ih, loop ih models le s = (Fell_through le', s, probes))
     ∨ (∃ m txt fin,
          m ∈ models
          ∧ ∀ ih, loop ih models le s =
                  let '(rd, s', l) := success ih (clean m) txt fin s in
                  (Returned rd, s', probes ++ l))).
Proof.
  induction models as [|m rest IH]; intros le s.
  { exists []. split; [constructor|]. left. by exists le. }
  assert (Hstep : ∀ le1 (pre : list event), Forall is_probe pre →
    ∃ probes, Forall is_probe probes ∧
      ((∃ le', ∀ ih,
          (let '(x, s', l) := loop ih rest le1 s in (x, s', pre ++ l))
          = (Fell_through le', s, probes))
       ∨ (∃ m0 txt fin,
            m0 ∈ m :: rest
            ∧ ∀ ih,
                (let '(x, s', l) := loop ih rest le1 s in (x, s', pre ++ l))
                = let '(rd, s', l) := success ih (clean m0) txt fin s in
                  (Returned rd, s', probes ++ l)))).
  { intros le1 pre Hpre.
    destruct (IH le1 s)
      as (probes & Hp & [[le' Hrun]|(m' & txt & fin & Hin & Hrun)]).
    - exists (pre ++ probes). split; [by apply Forall_app|].
      left. exists le'. intros ih. by rewrite Hrun.
    - exists (pre ++ probes). split; [by apply Forall_app|].
      right. exists m', txt, fin. split; [by right|]. intros ih.
      rewrite Hrun.
      destruct (success ih (clean m') txt fin s) as [[rd s'] l].
      by rewrite app_assoc. }
  destruct (gemini e image_path m) as [err|err|txt fin] eqn:Hg.
  - destruct (Hstep (Some err) [Attempting m])
      as (probes & Hp & [[le' Hrun]|(m' & txt & fin & Hin & Hrun)]);
      [by repeat constructor| |];
      (exists probes; split; [done|]).
    + left. exists le'. intros ih. by rewrite loop_cons, Hg.
    + right. exists m', txt, fin. split; [done|]. intros ih.
      by rewrite loop_cons, Hg.
  - destruct (is_quota_error err) eqn:Hq.
    + eexists. split; [|left; exists (Some err); intros ih;
                        rewrite loop_cons, Hg; cbn [generate_content];
                        by rewrite Hq].
      by repeat constructor.
    + destruct (Hstep (if is_not_found_error err || is_unavailable_error err
                       then le else Some err)
                  [Attempting m;
                   Called_generate_content (clean m)
                     (final_prompt mode custom_prompt tone length_ language
                                   question)])
        as (probes & Hp & [[le' Hrun]|(m' & txt & fin & Hin & Hrun)]);
        [by repeat constructor| |];
        (exists probes; split; [done|]).
      * left. exists le'. intros ih. rewrite loop_cons, Hg.
        cbn [generate_content]. by rewrite Hq.
      * right. exists m', txt, fin. split; [done|]. intros ih.
        rewrite loop_cons, Hg. cbn [generate_content]. by rewrite Hq.
  - destruct (generate_content (Responds txt fin))
      as [err|[txt' fin']] eqn:Hgen.
    + destruct (is_quota_error err) eqn:Hq.
      * eexists. split; [|left; exists (Some err); intros ih;
                          by rewrite loop_cons, Hg, Hgen, Hq].
        by repeat constructor.
      * destruct (Hstep (if is_not_found_error err
                            || is_unavailable_error err
                         then le else Some err)
                    [Attempting m;
                     Called_generate_content (clean m)
                       (final_prompt mode custom_prompt tone length_
                                     language question)])
          as (probes & Hp & [[le' Hrun]|(m' & txt1 & fin1 & Hin & Hrun)]);
          [by repeat constructor| |];
          (exists probes; split; [done|]).
        -- left. exists le'. intros ih. by rewrite loop_cons, Hg, Hgen, Hq.
        -- right. exists m', txt1, fin1. split; [done|]. intros ih.
           by rewrite loop_cons, Hg, Hgen, Hq.
    + eexists. split; [|right; exists m, txt', fin'; split; [by left|];
                        intros ih; by rewrite loop_cons, Hg, Hgen].
      by repeat constructor.
Qed.

(** The adapter run without a hash returns what it returns with one and
    leaves the same globals, the cache apart, which it leaves alone. *)
Lemma adapter_without_hash ih s :
  let r1 := provider_adapter e image_path mode custom_prompt tone length_
              language question u ih s in
  let r0 := provider_adapter e image_path mode custom_prompt tone length_
              language question u None s in
  value r0 = value r1
  ∧ final r0 = State (gemini_last_call_time (final r1))
                     (gemini_user_cooldowns (final r1))
                     (gemini_daily_counts (final r1))
                     (gemini_daily_reset_date (final r1))
                     (gemini_request_cache s).
Proof.
  cbn zeta. unfold provider_adapter, mbind, M_bind, bind.
  destruct (loop_run_uniform (models_to_try e) None s)
    as (probes & _ & [[le' Hrun]|(m & txt & fin & _ & Hrun)]).
  - rewrite !Hrun. unfold ret, value, final; cbn [fst snd].
    split; [done|]. by destruct s.
  - rewrite !Hrun, !on_success_run. unfold ret, value, final; cbn [fst snd].
    split; [done|]. unfold state_after_success.
    cbn [PyStr.truthy_opt gemini_last_call_time gemini_user_cooldowns
         gemini_daily_counts gemini_daily_reset_date]. done.
Qed.
End serving_facts.

(** ** Calls without a user *)

Lemma check_gemini_cooldown_anonymous now u s :
  truthy_user u = false →
  value (check_gemini_cooldown now u s) =
    let since := now - gemini_last_call_time s in
    let wait_time := seconds FREE_TIER_COOLDOWN - since in
    if since <? seconds FREE_TIER_COOLDOWN
    then (false, wait_time, GlobalCooldownActive wait_time)
    else (true, 0, OK).
Proof.
  intros Hu. unfold check_gemini_cooldown. run. rewrite Hu.
  by destruct (_ <? _).
Qed.

(** With a falsy [user_id] the quota tracker is not consulted and not
    written, the admission outcome is that of the global cooldown alone,
    the per-user timestamps are neither read nor written, and a success
    still records the global timestamp. *)
Lemma anonymous_call_frame
    (e : env) (image_path mode : string) (custom_prompt : option string)
    (tone length_ language : string) (question : option string)
    (u : user_id) (s : state) :
  truthy_user u = false →
  let process := process_image_with_gemini e image_path mode custom_prompt
                   tone length_ language question u in
  let r := process s in
  let since := now_at_check e - gemini_last_call_time s in
  let wait_time := seconds FREE_TIER_COOLDOWN - since in
  (* the admission outcome: the global cooldown, nothing else *)
  value (admission e u s) =
    (if since <? seconds FREE_TIER_COOLDOWN
     then Some (Result (Cooldown (GlobalCooldownActive wait_time)) Low 0
                       false wait_time None None)
     else None)
  (* the quota tracker is neither called nor changed *)
  ∧ Forall (λ ev, ¬ is_quota_event ev) (calls r)
  ∧ gemini_daily_counts (final r) = gemini_daily_counts s
  ∧ gemini_daily_reset_date (final r) = gemini_daily_reset_date s
  (* the per-user timestamps are neither written nor read *)
  ∧ gemini_user_cooldowns (final r) = gemini_user_cooldowns s
  ∧ (∀ s', gemini_last_call_time s' = gemini_last_call_time s →
           gemini_request_cache s' = gemini_request_cache s →
           value (process s') = value r)
  (* the global timestamp is written by a success *)
  ∧ (is_Some (model_used (value r)) →
     gemini_last_call_time (final r) = (now_at_update e).1).
Proof.
  intros Hu process r since wait_time. subst process r.
  assert (Hadm : ∀ s0, admission e u s0 =
    (let c := value (check_gemini_cooldown (now_at_check e) u s0) in
     (if c.1.1 then None
      else Some (Result (Cooldown c.2) Low 0 false c.1.2 None None),
      s0, [Called_check_gemini_cooldown u]))).
  { intros s0. rewrite admission_run. unfold after_admission.
    by rewrite Hu. }
  assert (Hs1 : ∀ s0, after_admission e u s0 = s0).
  { intros s0. unfold after_admission. by rewrite Hu. }
  split.
  { rewrite Hadm. simpl. rewrite check_gemini_cooldown_anonymous by done.
    simpl. fold since wait_time. by destruct (since <? _). }
  assert (Hquiet : ∀ l, Forall is_probe l → Forall (λ ev, ¬ is_quota_event ev) l).
  { intros l Hl. eapply Forall_impl; [done|].
    intros ev; destruct ev; simpl; tauto. }
  match goal with
  | |- ?A ∧ ?B ∧ ?C ∧ ?D ∧ ?E => cut ((A ∧ B ∧ C ∧ D) ∧ E); [tauto|]
  end.
  split.
  - (* effects *)
    rewrite process_run, Hadm, Hs1. simpl.
    destruct (value (check_gemini_cooldown (now_at_check e) u s)).1.1.
    2: { unfold calls, final; simpl. split; [|done]. forall_events. }
    set (ih := image_hash_of e image_path).
    destruct (cache_hit _ ih s) as [c|].
    { unfold calls, final; simpl. split; [|done]. forall_events. }
    destruct (adapter_run e image_path mode custom_prompt tone length_
                language question u ih s)
      as (probes & Hp%Hquiet & [[le ->]|(m & txt & fin & _ & _ & ->)]).
    + unfold calls, final; simpl. split; [|done]. forall_events.
    + rewrite on_success_run. unfold state_after_success. rewrite Hu.
      unfold calls, final; simpl. split; [|done]. forall_events.
  - split.
    + (* independence *)
      intros s' Hlast Hcache.
      rewrite !process_run, !Hadm, !Hs1. simpl.
      rewrite !check_gemini_cooldown_anonymous by done. simpl.
      rewrite Hlast. destruct (_ <? _); simpl; [done|].
      unfold cache_hit. rewrite Hcache.
      destruct (if PyStr.truthy_opt _ then _ else _); [done|].
      pose proof (loop_value e image_path mode custom_prompt tone length_
                    language question u (image_hash_of e image_path)
                    (models_to_try e) None s' s) as Hv.
      unfold provider_adapter, mbind, M_bind, bind.
      destruct (for_each_model _ _ _ _ _ _ _ _ _ _ _ _ s') as [[x1 t1] l1].
      destruct (for_each_model _ _ _ _ _ _ _ _ _ _ _ _ s) as [[x2 t2] l2].
      unfold value in Hv; simpl in Hv. subst x2.
      by destruct x1.
    + (* success *)
      intros Hsome.
      destruct (process_cases e image_path mode custom_prompt tone length_
                  language question u s)
        as (head & _ & [(Hm & _ & _)|(m & txt & fin & _ & _ & _ & _ & ->)]).
      * rewrite Hm in Hsome. by destruct Hsome.
      * by rewrite on_success_run.
Qed.

(** C10: with a falsy [user_id] the quota tracker is not consulted and not
    written, the per-user timestamps are neither read nor written, and
    only the global cooldown is checked and updated.  Every such call
    begins with the cooldown check.  While the global cooldown is active
    the call is its rejection and nothing else happens.  Otherwise the call
    goes on: after a cache miss the first candidate is attempted, and when
    it responds the call is served and the global timestamp, and only it
    and the cache, are written. *)
Theorem anonymous_call_uses_global_gate_only
    (e : env) (image_path mode : string) (custom_prompt : option string)
    (tone length_ language : string) (question : option string)
    (u : user_id) (s : state) :
  truthy_user u = false →
  let process := process_image_with_gemini e image_path mode custom_prompt
                   tone length_ language question u in
  let r := process s in
  let since := now_at_check e - gemini_last_call_time s in
  let wait_time := seconds FREE_TIER_COOLDOWN - since in
  let ih := image_hash_of e image_path in
  let key := cache_key (PyStr.format ih) mode custom_prompt tone length_
                       language question in
  let caching := PyStr.truthy_opt ih in
  (* the admission outcome: the global cooldown, nothing else *)
  value (admission e u s) =
    (if since <? seconds FREE_TIER_COOLDOWN
     then Some (Result (Cooldown (GlobalCooldownActive wait_time)) Low 0
                       false wait_time None None)
     else None)
  (* the quota tracker is neither called nor changed *)
  ∧ Forall (λ ev, ¬ is_quota_event ev) (calls r)
  ∧ gemini_daily_counts (final r) = gemini_daily_counts s
  ∧ gemini_daily_reset_date (final r) = gemini_daily_reset_date s
  (* the per-user timestamps are neither written nor read *)
  ∧ gemini_user_cooldowns (final r) = gemini_user_cooldowns s
  ∧ (∀ s', gemini_last_call_time s' = gemini_last_call_time s →
           gemini_request_cache s' = gemini_request_cache s →
           value (process s') = value r)
  (* the global timestamp is written by a success *)
  ∧ (is_Some (model_used (value r)) →
     gemini_last_call_time (final r) = (now_at_update e).1
     ∧ Called_update_gemini_call_time u ∈ calls r)
  (* every call begins with the cooldown check *)
  ∧ head (calls r) = Some (Called_check_gemini_cooldown u)
  (* while the global cooldown is active the call is its rejection *)
  ∧ (since < seconds FREE_TIER_COOLDOWN →
     r = (Result (Cooldown (GlobalCooldownActive wait_time)) Low 0 false
                 wait_time None None,
          s, [Called_check_gemini_cooldown u]))
  (* otherwise the call goes on: after a cache miss the first candidate is
     attempted, and if it responds the call is served and recorded *)
  ∧ (seconds FREE_TIER_COOLDOWN ≤ since →
     cache_hit key ih s = None →
     ∃ m0 rest,
       models_to_try e = m0 :: rest
       ∧ Attempting m0 ∈ calls r
       ∧ ∀ txt fin,
           gemini e image_path m0 = Responds txt fin →
           PyStr.truthy txt = true →
           r = (fresh_result e m0 txt fin,
                State (now_at_update e).1 (gemini_user_cooldowns s)
                      (gemini_daily_counts s) (gemini_daily_reset_date s)
                      (if caching
                       then cache_after key (fresh_result e m0 txt fin)
                                        (gemini_request_cache s)
                       else gemini_request_cache s),
                [Called_check_gemini_cooldown u; Called_calculate_image_hash]
                ++ (if caching then [Called_get_cached_result key] else [])
                ++ [Attempting m0;
                    Called_generate_content (clean m0)
                      (final_prompt mode custom_prompt tone length_ language
                                    question)]
                ++ (if caching then [Called_cache_result key] else [])
                ++ [Called_update_gemini_call_time u])).
Proof.
  intros Hu process r since wait_time ih key caching.
  destruct (anonymous_call_frame e image_path mode
              custom_prompt tone length_ language question u s Hu)
    as (Hadm & Hquota & Hcounts & Hdate & Hcool & Hindep & Hlast).
  fold process r since wait_time in Hadm, Hquota, Hcounts, Hdate, Hcool,
    Hindep, Hlast.
  assert (Hs1 : after_admission e u s = s).
  { unfold after_admission. by rewrite Hu. }
  assert (Hlog : calls (admission e u s) = [Called_check_gemini_cooldown u]).
  { rewrite admission_run. cbn zeta. by rewrite Hu. }
  assert (Hfinal : final (admission e u s) = s).
  { rewrite admission_run. cbn zeta. rewrite Hu. cbn [andb].
    unfold final; cbn [fst snd]. done. }
  do 6 (split; [done|]).
  split; [|split; [|split]].
  - intros Hsome. split; [by apply Hlast|].
    subst r process.
    destruct (process_cases e image_path mode custom_prompt tone length_
                language question u s)
      as (head & _ & [(Hm & _ & _)|(m & txt & fin & _ & _ & _ & _ & Hrun)]).
    + rewrite Hm in Hsome. by destruct Hsome.
    + rewrite Hrun, on_success_run. unfold calls; cbn [snd].
      rewrite !elem_of_app. right. right. by left.
  - subst r process. rewrite process_run. cbn zeta.
    destruct (admission e u s) as [[rej s'] l1].
    unfold calls in Hlog; cbn [snd] in Hlog. subst l1.
    destruct rej as [rej|]; [done|].
    destruct (cache_hit _ _ _); [done|].
    by destruct (provider_adapter _ _ _ _ _ _ _ _ _ _ _) as [[x s2] l2].
  - intros Hactive. subst r process. rewrite process_run. cbn zeta.
    rewrite Hs1.
    destruct (admission e u s) as [[rej s'] l1].
    unfold calls in Hlog; unfold value in Hadm; cbn [fst snd] in *.
    subst l1 rej.
    destruct (Z.ltb_spec since (seconds FREE_TIER_COOLDOWN)); [done|lia].
  - intros Hfree Hmiss.
    assert (Hnone : value (admission e u s) = None).
    { rewrite Hadm.
      destruct (Z.ltb_spec since (seconds FREE_TIER_COOLDOWN)); [lia|done]. }
    destruct (models_to_try_cons e) as (m0 & rest & Hmodels).
    exists m0, rest. split; [done|]. split.
    + apply (process_attempts_first e image_path mode custom_prompt tone
               length_ language question u s m0 rest); [done| |done].
      by rewrite Hs1.
    + intros txt fin Hg Htxt. subst r process.
      rewrite (process_first_responds e image_path mode custom_prompt tone
                 length_ language question u s m0 rest txt fin);
        [|done|by rewrite Hs1|done..].
      rewrite Hlog, Hs1. unfold state_after_success. rewrite Hu.
      fold ih key caching. cbn [app]. done.
Qed.

(** ** Response cache *)

#[local] Arguments Dict.keys : simpl never.

Section dict_facts.
Context {V : Type}.
Implicit Types (d : dict V) (k : string) (v : V).

Lemma dict_keys_cons k v d : Dict.keys ((k, v) :: d) = k :: Dict.keys d.
Proof. reflexivity. Qed.

Lemma dict_get_None k d : Dict.get k d = None ↔ k ∉ Dict.keys d.
Proof.
  induction d as [|[k' v'] d IH]; simpl.
  - split; [|done]. intros _ H. by apply elem_of_nil in H.
  - rewrite dict_keys_cons, not_elem_of_cons.
    destruct (decide (k' = k)) as [->|Hne].
    + split; [done|]. by intros [? _].
    + rewrite IH. split; [|by intros [_ ?]].
      intros ?. split; [congruence|done].
Qed.

Lemma dict_get_Some k v d :
  Dict.wf d → (k, v) ∈ d → Dict.get k d = Some v.
Proof.
  unfold Dict.wf. induction d as [|[k' v'] d IH]; simpl.
  - intros _ H. by apply elem_of_nil in H.
  - rewrite dict_keys_cons.
    intros [Hk Hd]%NoDup_cons [Heq|Hin]%elem_of_cons.
    + inversion Heq; subst. by rewrite decide_True.
    + destruct (decide (k' = k)) as [->|Hne]; [|by apply IH].
      exfalso. apply Hk. apply list_elem_of_fmap. by exists (k, v).
Qed.

Lemma dict_set_new k v d : k ∉ Dict.keys d → Dict.set k v d = d ++ [(k, v)].
Proof.
  induction d as [|[k' v'] d IH]; simpl; [done|].
  rewrite dict_keys_cons, not_elem_of_cons. intros [Hne Hk].
  rewrite decide_False by done. by rewrite IH.
Qed.

Lemma dict_set_keys_old k v d :
  k ∈ Dict.keys d → Dict.keys (Dict.set k v d) = Dict.keys d.
Proof.
  induction d as [|[k' v'] d IH]; simpl.
  - intros H. by apply elem_of_nil in H.
  - rewrite dict_keys_cons, elem_of_cons. intros Hk.
    destruct (decide (k' = k)) as [->|Hne]; [done|].
    rewrite !dict_keys_cons, IH; [done|]. by destruct Hk as [->|Hk].
Qed.

Lemma dict_keys_app d1 d2 :
  Dict.keys (d1 ++ d2) = Dict.keys d1 ++ Dict.keys d2.
Proof. apply fmap_app. Qed.

Lemma dict_set_wf k v d : Dict.wf d → Dict.wf (Dict.set k v d).
Proof.
  unfold Dict.wf. intros Hd.
  destruct (decide (k ∈ Dict.keys d)) as [Hin|Hnin].
  - by rewrite dict_set_keys_old.
  - rewrite dict_set_new, dict_keys_app by done.
    apply NoDup_app. split; [done|].
    split; [|apply NoDup_singleton].
    intros k' Hk' ->%list_elem_of_singleton. done.
Qed.

Lemma dict_get_set k v d : Dict.get k (Dict.set k v d) = Some v.
Proof.
  induction d as [|[k' v'] d IH]; simpl.
  - by rewrite decide_True.
  - destruct (decide (k' = k)) as [->|Hne]; simpl.
    + by rewrite decide_True.
    + by rewrite decide_False.
Qed.

(** Deleting the first [n] keys, one by one, removes the first [n]
    entries. *)
Lemma delete_keys_take n d :
  delete_keys (take n (Dict.keys d)) d = drop n d.
Proof.
  unfold delete_keys, Dict.keys. revert d.
  induction n as [|n IH]; intros [|[k v] d]; simpl; try done.
  rewrite decide_True by done. apply IH.
Qed.

Lemma cache_after_drop k v d :
  cache_after k v d =
    let d' := Dict.set k v d in
    if (1000 <? length d')%nat then drop 100 d' else d'.
Proof.
  unfold cache_after. simpl. destruct (_ <? _)%nat; [|done].
  apply delete_keys_take.
Qed.

Lemma dict_get_snoc_new k v d :
  k ∉ Dict.keys d → Dict.get k (d ++ [(k, v)]) = Some v.
Proof.
  induction d as [|[k' v'] d IH]; simpl.
  - intros _. by rewrite decide_True.
  - rewrite dict_keys_cons, not_elem_of_cons. intros [Hne Hk].
    rewrite decide_False by done. by apply IH.
Qed.

(** An entry stored under a new key is found afterwards, eviction or
    not. *)
Lemma cache_after_get_new k v d :
  Dict.get k d = None → Dict.get k (cache_after k v d) = Some v.
Proof.
  intros Hk%dict_get_None. rewrite cache_after_drop. cbn zeta.
  rewrite dict_set_new by done.
  destruct (Nat.ltb_spec 1000 (length (d ++ [(k, v)]))) as [Hlen|_].
  - rewrite length_app in Hlen. simpl in Hlen.
    rewrite drop_app_le by lia. apply dict_get_snoc_new.
    intros Hin. apply Hk. unfold Dict.keys in *.
    rewrite fmap_drop in Hin. by apply (subseteq_drop 100).
  - by apply dict_get_snoc_new.
Qed.
End dict_facts.

Lemma stored_keys entries : Dict.keys (stored entries) = request_key <$> entries.*1.
Proof.
  unfold Dict.keys, stored. rewrite <- !list_fmap_compose.
  by apply list_fmap_ext.
Qed.

Lemma stored_snoc entries q r :
  stored (entries ++ [(q, r)]) = stored entries ++ [(request_key q, r)].
Proof. unfold stored. by rewrite fmap_app. Qed.

Lemma stored_length entries : length (stored entries) = length entries.
Proof. apply length_fmap. Qed.

Lemma cache_each_snoc entries q r s :
  gemini_request_cache (cache_each (entries ++ [(q, r)]) s) =
    cache_after (request_key q) r (gemini_request_cache (cache_each entries s)).
Proof. unfold cache_each. by rewrite foldl_snoc, cache_result_run. Qed.

(** Up to a thousand entries with distinct keys are all kept, in order. *)
Lemma cache_each_keeps entries s :
  gemini_request_cache s = [] →
  NoDup (request_key <$> entries.*1) →
  (length entries ≤ 1000)%nat →
  gemini_request_cache (cache_each entries s) = stored entries.
Proof.
  intros Hs. induction entries as [|[q r] entries IH] using rev_ind.
  { done. }
  rewrite fmap_app, fmap_app, length_app. simpl.
  intros (Hnd & Hfresh & _)%NoDup_app Hlen.
  rewrite cache_each_snoc, IH by (done || lia).
  rewrite cache_after_drop. simpl.
  rewrite dict_set_new.
  - rewrite stored_snoc.
    destruct (Nat.ltb_spec 1000 (length (stored entries ++ [(request_key q, r)])))
      as [Hlt|_]; [|done].
    rewrite length_app, stored_length in Hlt. simpl in Hlt. lia.
  - rewrite stored_keys. intros Hin. apply (Hfresh _ Hin).
    by apply list_elem_of_singleton.
Qed.

(** C6: [cache_result] stores the entry and, when that makes more than
    1000 entries, drops the first 100 entries of the cache in insertion
    order and keeps the rest.  Storing 1001 entries with distinct keys in
    an empty cache leaves the last 901 of them: the 100 stored first are
    absent and every later one is found. *)
Theorem cache_result_evicts_oldest
    (entries : list (request * result)) (s : state) :
  gemini_request_cache s = [] →
  NoDup (request_key <$> entries.*1) →
  length entries = 1001%nat →
  let cache := gemini_request_cache (cache_each entries s) in
  (∀ image_hash mode custom_prompt tone length_ language question r s0,
     let d := Dict.set (cache_key image_hash mode custom_prompt tone length_
                                  language question)
                       r (gemini_request_cache s0) in
     gemini_request_cache
       (final (cache_result image_hash mode custom_prompt tone length_
                 language question r s0))
     = if (1000 <? length d)%nat then drop 100 d else d)
  ∧ cache = drop 100 (stored entries)
  ∧ (length cache ≤ 901)%nat
  ∧ (∀ q, q ∈ take 100 entries.*1 → Dict.get (request_key q) cache = None)
  ∧ (∀ q r, (q, r) ∈ drop 100 entries →
            Dict.get (request_key q) cache = Some r).
Proof.
  intros Hs Hnd Hlen cache.
  split.
  { intros. rewrite cache_result_run. unfold final; simpl.
    by rewrite cache_after_drop. }
  assert (Hcache : cache = drop 100 (stored entries)).
  { subst cache.
    destruct entries as [|x entries _] using rev_ind; [done|].
    destruct x as [q r]. rewrite length_app in Hlen. simpl in Hlen.
    rewrite fmap_app, fmap_app in Hnd.
    pose proof Hnd as (Hnd' & Hfresh & _)%NoDup_app.
    rewrite cache_each_snoc, cache_each_keeps by (done || lia).
    rewrite cache_after_drop. simpl.
    rewrite dict_set_new.
    2: { rewrite stored_keys. intros Hin. apply (Hfresh _ Hin).
         by apply list_elem_of_singleton. }
    rewrite stored_snoc.
    destruct (Nat.ltb_spec 1000 (length (stored entries ++ [(request_key q, r)])))
      as [_|Hge]; [done|].
    rewrite length_app, stored_length in Hge. simpl in Hge. lia. }
  split; [done|].
  assert (Hwf : NoDup (Dict.keys (stored entries))) by by rewrite stored_keys.
  rewrite Hcache. split; [|split].
  - rewrite length_drop, stored_length. lia.
  - intros q Hq. apply dict_get_None.
    unfold Dict.keys. rewrite fmap_drop. fold (Dict.keys (stored entries)).
    rewrite <- (take_drop 100 (Dict.keys (stored entries))) in Hwf.
    apply NoDup_app in Hwf as (_ & Hdisj & _). apply Hdisj.
    rewrite stored_keys, <- fmap_take. by apply list_elem_of_fmap_2.
  - intros q r Hin. apply dict_get_Some.
    + unfold Dict.wf, Dict.keys. rewrite fmap_drop.
      fold (Dict.keys (stored entries)).
      rewrite <- (take_drop 100 (Dict.keys (stored entries))) in Hwf.
      by apply NoDup_app in Hwf as (_ & _ & ?).
    + unfold stored. rewrite <- fmap_drop.
      apply (list_elem_of_fmap_2 (λ qr, (request_key qr.1, qr.2)) _ (q, r)).
      done.
Qed.

(** ** The fallback loop, by error class *)

Lemma dict_fromkeys_fresh l : ∀ seen,
  NoDup (dict_fromkeys seen l) ∧ ∀ x, x ∈ dict_fromkeys seen l → x ∉ seen.
Proof.
  induction l as [|x l IH]; intros seen; simpl.
  { split; [constructor|]. intros x H. by apply elem_of_nil in H. }
  destruct (decide (x ∈ seen)) as [Hin|Hnin]; [apply IH|].
  destruct (IH (x :: seen)) as [Hnd Hfresh]. split.
  - apply NoDup_cons. split; [|done].
    intros H. apply (Hfresh _ H). by left.
  - intros y [->|Hy]%elem_of_cons; [done|].
    intros Hys. apply (Hfresh _ Hy). by right.
Qed.

Lemma models_to_try_NoDup e : NoDup (models_to_try e).
Proof. unfold models_to_try. apply dict_fromkeys_fresh. Qed.

Lemma prefix_lower needle : ∀ s,
  String.prefix needle s = true →
  String.prefix (PyStr.lower needle) (PyStr.lower s) = true.
Proof.
  induction needle as [|a needle IH]; intros [|b s]; simpl; try done.
  destruct (ascii_dec a b) as [->|]; [|done].
  intros H. destruct (ascii_dec _ _); [by apply IH|done].
Qed.

Lemma contains_lower needle s :
  PyStr.contains needle s = true →
  PyStr.contains (PyStr.lower needle) (PyStr.lower s) = true.
Proof.
  induction s as [|b s IH]; simpl.
  - rewrite orb_false_r. intros H. apply (prefix_lower _ EmptyString) in H.
    simpl in H. by rewrite H.
  - intros [H|H]%orb_true_iff.
    + apply (prefix_lower _ (String b s)) in H. simpl in H. by rewrite H.
    + rewrite (IH H). by rewrite orb_true_r.
Qed.

(** An error text that contains "429" or "quota" is a quota signal. *)
Lemma quota_text_is_quota_error err :
  PyStr.contains "429" err = true ∨ PyStr.contains "quota" err = true →
  is_quota_error err = true.
Proof.
  unfold is_quota_error. intros [->|H]; [done|].
  apply contains_lower in H. change (PyStr.lower "quota") with "quota" in H.
  rewrite H. by rewrite orb_true_r.
Qed.

(** C2: when the loop reaches a model whose remote call fails with a quota
    signal ("429" or "quota" in the error text), no later candidate is
    attempted, the result is the quota outcome with a cooldown of 86400
    seconds, and the globals are as the admission checks left them. *)
Theorem quota_signal_stops_fallback
    (e : env) (image_path mode : string) (custom_prompt : option string)
    (tone length_ language : string) (question : option string)
    (u : user_id) (s : state) (pre : list string) (m : string)
    (post : list string) (err : string) :
  models_to_try e = pre ++ m :: post →
  gemini e image_path m = Generate_raises err →
  is_quota_error err = true →
  let r := process_image_with_gemini e image_path mode custom_prompt tone
             length_ language question u s in
  Attempting m ∈ calls r →
  (∀ m', m' ∈ post → Attempting m' ∉ calls r)
  ∧ quota_exceeded (value r) = Some true
  ∧ cooldown (value r) = seconds 86400
  ∧ text (value r) = FreeTierQuotaReached FREE_TIER_DAILY_LIMIT
  ∧ final r = after_admission e u s.
Proof.
  intros Hmodels Hg Hquota r Hin. subst r.
  pose proof (models_to_try_NoDup e) as Hnd. rewrite Hmodels in Hnd.
  destruct (process_attempted _ _ _ _ _ _ _ _ _ _ _ Hin)
    as (head & Hhead & Hrun).
  rewrite Hrun in Hin |- *. clear Hrun. rewrite Hmodels in Hin |- *.
  set (s1 := after_admission e u s) in *.
  destruct (loop_reaches e image_path mode custom_prompt tone length_
              language question u (image_hash_of e image_path)
              pre m post None s1 Hnd)
    as (le' & probes & Hp & Hpre & Hloop).
  { destruct (for_each_model _ _ _ _ _ _ _ _ _ _ _ _ s1) as [[x s2] l].
    unfold calls in *; cbn [snd] in *.
    apply elem_of_app in Hin as [Hin|Hin]; [by destruct (Hhead m)|done]. }
  rewrite Hloop, loop_cons, Hg. cbn [generate_content]. rewrite Hquota.
  unfold value, final, calls; simpl. rewrite Hquota.
  split; [|done].
  intros m' Hm' Hin'.
  apply NoDup_app in Hnd as (_ & Hdisj & Hnd).
  apply NoDup_cons in Hnd as [Hm _].
  apply elem_of_app in Hin' as [Hin'|Hin']; [by destruct (Hhead m')|].
  apply elem_of_app in Hin' as [Hin'|Hin'].
  - apply Hpre in Hin'. apply (Hdisj _ Hin'). by right.
  - apply elem_of_cons in Hin' as [Heq|Hin']; [congruence|].
    apply list_elem_of_singleton in Hin'. discriminate Hin'.
Qed.

(** C3 as the specification words it fails: the first model fails with an
    error of none of the three classes, and the second model is tried all
    the same and answers the request. *)
Lemma other_error_is_not_fatal :
  let e := example_env (seconds 63000000000) first_model_breaks in
  let r := process_image_with_gemini e "static/uploads/a.png" "caption" None
             "neutral" "medium" "en" None (UInt 1) (initial_state 738000) in
  let err := "500 Internal error encountered." in
  gemini e "static/uploads/a.png" "gemini-2.0-flash" = Generate_raises err
  ∧ is_quota_error err = false
  ∧ is_not_found_error err = false
  ∧ is_unavailable_error err = false
  ∧ (Attempting "gemini-flash-latest" ∈ calls r)
  ∧ model_used (value r) = Some "gemini-flash-latest"
  ∧ text (value r) = ModelText "A quiet harbour at dusk.".
Proof.
  vm_compute. repeat split. repeat constructor.
Qed.

(** C3, amended: a remote failure of none of the three classes is recorded
    as the last error and the loop goes on: the next candidate is
    attempted.  The generic error outcome (the error text, a cooldown of
    300 seconds, the globals as the admission checks left them) is what the
    call returns when every later candidate is passed over as missing or
    unavailable, in particular when there is none. *)
Theorem other_error_moves_to_next_model
    (e : env) (image_path mode : string) (custom_prompt : option string)
    (tone length_ language : string) (question : option string)
    (u : user_id) (s : state) (pre : list string) (m : string)
    (post : list string) (err : string) :
  models_to_try e = pre ++ m :: post →
  gemini e image_path m = Generate_raises err →
  is_quota_error err = false →
  is_not_found_error err = false →
  is_unavailable_error err = false →
  let r := process_image_with_gemini e image_path mode custom_prompt tone
             length_ language question u s in
  Attempting m ∈ calls r →
  (∀ m2 post', post = m2 :: post' → Attempting m2 ∈ calls r)
  ∧ ((∀ m', m' ∈ post →
        ∃ err', gemini e image_path m' = Generate_raises err'
                ∧ is_quota_error err' = false
                ∧ is_not_found_error err' || is_unavailable_error err' = true) →
     value r = Result (ErrorText err) Low 0 false (seconds 300) None
                      (Some false)
     ∧ final r = after_admission e u s).
Proof.
  intros Hmodels Hg Hquota Hnf Hun r Hin. subst r.
  pose proof (models_to_try_NoDup e) as Hnd. rewrite Hmodels in Hnd.
  destruct (process_attempted _ _ _ _ _ _ _ _ _ _ _ Hin)
    as (head & Hhead & Hrun).
  rewrite Hrun in Hin |- *. clear Hrun. rewrite Hmodels in Hin |- *.
  set (s1 := after_admission e u s) in *.
  destruct (loop_reaches e image_path mode custom_prompt tone length_
              language question u (image_hash_of e image_path)
              pre m post None s1 Hnd)
    as (le' & probes & Hp & Hpre & Hloop).
  { destruct (for_each_model _ _ _ _ _ _ _ _ _ _ _ _ s1) as [[x s2] l].
    unfold calls in *; cbn [snd] in *.
    apply elem_of_app in Hin as [Hin|Hin]; [by destruct (Hhead m)|done]. }
  rewrite Hloop, loop_cons, Hg. cbn [generate_content].
  rewrite Hquota, Hnf, Hun. cbn [orb]. clear Hloop Hin.
  split.
  - intros m2 post' ->. rewrite loop_cons.
    assert (Hfirst : ∀ (t : loop_exit * state * list event) tail,
      (∃ l, t.2 = Attempting m2 :: l) →
      Attempting m2 ∈ calls
        (let '(x, s2, l) :=
           (let '(x, s', l) := (let '(x, s', l) := t in (x, s', tail ++ l))
            in (x, s', probes ++ l)) in
         (match x with
          | Returned result_data => result_data
          | Fell_through last_error => all_models_failed last_error
          end, s2, head ++ l))).
    { intros [[x s2] l] tail [l' Hl]. simpl in Hl. subst l.
      unfold calls; cbn [snd]. rewrite !elem_of_app. right. right. right.
      by left. }
    apply Hfirst.
    destruct (gemini e image_path m2) as [err2|err2|txt fin].
    + destruct (for_each_model _ _ _ _ _ _ _ _ _ _ _ _ s1) as [[x s2] l].
      by eexists.
    + cbn [generate_content]. destruct (is_quota_error err2); [by eexists|].
      destruct (for_each_model _ _ _ _ _ _ _ _ _ _ _ _ s1) as [[x s2] l].
      by eexists.
    + destruct (generate_content (Responds txt fin)) as [err2|[txt' fin']].
      * destruct (is_quota_error err2); [by eexists|].
        destruct (for_each_model _ _ _ _ _ _ _ _ _ _ _ _ s1) as [[x s2] l].
        by eexists.
      * destruct (on_success _ _ _ _ _ _ _ _ _ _ _ _ s1) as [[rd s2] l].
        by eexists.
  - intros Hskip.
    destruct (loop_all_skipped e image_path mode custom_prompt tone length_
                language question u (image_hash_of e image_path) post
                (Some err) s1 Hskip) as [probes' ->].
    unfold value, final; simpl. rewrite Hquota.
    unfold is_not_found_error in Hnf. apply orb_false_iff in Hnf as [-> _].
    done.
Qed.

(** ** Content fingerprinter *)

(** The read loop feeds the whole file to the hash object. *)
Lemma read_loop_feeds_all f : ∀ file_hash,
  read_loop file_hash (take (Z.to_nat 8192) f) (drop (Z.to_nat 8192) f)
  = file_hash ++ f.
Proof.
  assert (Hn : ∃ n, Z.to_nat 8192 = S n) by (exists (Z.to_nat 8191); lia).
  destruct Hn as [n Hn].
  induction f as [f IH] using (induction_ltof1 _ length).
  unfold ltof in IH. intros file_hash.
  destruct f as [|b f].
  { rewrite take_nil, drop_nil, read_loop_equation_1. by rewrite app_nil_r. }
  rewrite Hn. cbn [take drop firstn skipn].
  rewrite read_loop_equation_2, IH.
  - rewrite <- app_assoc. f_equal. cbn [app]. f_equal. apply take_drop.
  - rewrite length_drop. simpl. lia.
Qed.

Lemma hash_file_readable md5 open_rb image_path f :
  open_rb image_path = inr f →
  hash_file md5 open_rb image_path = inr (md5 f).
Proof. intros Hf. unfold hash_file. by rewrite Hf, read_loop_feeds_all. Qed.

(** When the image cannot be read, the hashing fails with the [IOError]
    and [calculate_image_hash] reports no hash; the call makes no cache
    lookup and no cache insert and leaves the cache as it is. *)
Lemma unreadable_image_frame
    (e : env) (image_path mode : string) (custom_prompt : option string)
    (tone length_ language : string) (question : option string)
    (u : user_id) (s : state) (err : io_error) :
  open_rb e image_path = inl err →
  let r := process_image_with_gemini e image_path mode custom_prompt tone
             length_ language question u s in
  hash_file (md5_hexdigest e) (open_rb e) image_path = inl err
  ∧ value (calculate_image_hash (md5_hexdigest e) (open_rb e) image_path s)
    = None
  ∧ Forall (λ ev, ¬ is_cache_event ev) (calls r)
  ∧ gemini_request_cache (final r) = gemini_request_cache s
  ∧ r = match admission e u s with
        | (Some rejection, s1, l1) => (rejection, s1, l1)
        | (None, s1, l1) =>
            let '(x, s2, l2) :=
              provider_adapter e image_path mode custom_prompt tone length_
                               language question u None s1 in
            (x, s2, l1 ++ Called_calculate_image_hash :: l2)
        end.
Proof.
  intros Hopen r. subst r.
  assert (Hfail : hash_file (md5_hexdigest e) (open_rb e) image_path
                  = inl err).
  { unfold hash_file. by rewrite Hopen. }
  assert (Hih : image_hash_of e image_path = None).
  { unfold image_hash_of. by rewrite Hfail. }
  split; [done|].
  split; [unfold calculate_image_hash; by rewrite Hfail|].
  rewrite process_run, Hih. unfold cache_hit. cbn [PyStr.truthy_opt].
  pose proof (admission_run e u s) as Ha. simpl in Ha.
  destruct (after_admission_cooldown e u s) as (_ & _ & Hcache).
  set (s1 := after_admission e u s) in *.
  assert (Hadm : Forall (λ ev, ¬ is_cache_event ev) (calls (admission e u s))).
  { rewrite Ha. unfold calls.
    destruct (truthy_user u && _); simpl; forall_events. }
  destruct (admission e u s) as [[[rej|] s'] l1] eqn:Hrun;
    unfold calls in Hadm; cbn [snd] in Hadm.
  { assert (s' = s1) as -> by (destruct (truthy_user u && _);
      [|destruct (value _).1.1]; by inversion Ha).
    done. }
  assert (s' = s1) as -> by (destruct (truthy_user u && _);
    [|destruct (value _).1.1]; by inversion Ha).
  destruct (adapter_run e image_path mode custom_prompt tone length_
              language question u None s1)
    as (probes & Hp & [[le ->]|(m & txt & fin & _ & _ & ->)]).
  - unfold calls, final; cbn [fst snd]. split; [|done].
    assert (Forall (λ ev, ¬ is_cache_event ev) probes).
    { eapply Forall_impl; [done|]. intros ev; destruct ev; simpl; tauto. }
    forall_events.
  - rewrite on_success_run. unfold calls, final; cbn [fst snd].
    cbn [PyStr.truthy_opt state_after_success gemini_request_cache].
    split; [|done].
    assert (Forall (λ ev, ¬ is_cache_event ev) probes).
    { eapply Forall_impl; [done|]. intros ev; destruct ev; simpl; tauto. }
    forall_events.
Qed.

(** The loop, the checks and the results do not look at the file. *)
Lemma for_each_model_with_file e f image_path mode custom_prompt tone
    length_ language question u ih models : ∀ le s,
  for_each_model (with_file e image_path f) image_path mode custom_prompt
                 tone length_ language question u ih models le s
  = for_each_model e image_path mode custom_prompt tone length_ language
                   question u ih models le s.
Proof.
  induction models as [|m rest IH]; intros le s; [done|].
  rewrite !loop_cons. cbn [with_file gemini].
  destruct (gemini e image_path m) as [err|err|txt fin].
  - by rewrite IH.
  - cbn [generate_content]. destruct (is_quota_error err); [done|].
    by rewrite IH.
  - destruct (generate_content (Responds txt fin)) as [err|[txt' fin']].
    + destruct (is_quota_error err); [done|]. by rewrite IH.
    + by rewrite !on_success_run.
Qed.

Lemma admission_with_file e image_path f u s :
  admission (with_file e image_path f) u s = admission e u s.
Proof. by rewrite !admission_run. Qed.

Lemma image_hash_of_with_file e image_path f :
  image_hash_of (with_file e image_path f) image_path
  = Some (md5_hexdigest e f).
Proof.
  unfold image_hash_of.
  rewrite (hash_file_readable _ _ _ f); [done|].
  cbn [with_file open_rb]. by rewrite decide_True.
Qed.

(** C9: when the image cannot be read, the hashing itself fails with the
    [IOError] and [calculate_image_hash] reports no hash, changing nothing.
    The call is not aborted and returns no error for it: it makes no cache
    lookup and no cache insert and leaves the cache as it is, and an
    admitted call goes on to the provider, where the first candidate is
    attempted; when a model responds the call is served and recorded as
    usual.  The call returns what it returns when the file is readable and
    the lookup misses, and leaves the same globals, the cache apart. *)
Theorem unreadable_image_disables_caching_only
    (e : env) (image_path mode : string) (custom_prompt : option string)
    (tone length_ language : string) (question : option string)
    (u : user_id) (s : state) (err : io_error) :
  open_rb e image_path = inl err →
  let process e := process_image_with_gemini e image_path mode custom_prompt
                     tone length_ language question u in
  let r := process e s in
  hash_file (md5_hexdigest e) (open_rb e) image_path = inl err
  ∧ calculate_image_hash (md5_hexdigest e) (open_rb e) image_path s
    = (None, s, [Called_calculate_image_hash])
  ∧ Forall (λ ev, ¬ is_cache_event ev) (calls r)
  ∧ gemini_request_cache (final r) = gemini_request_cache s
  ∧ r = match admission e u s with
        | (Some rejection, s1, l1) => (rejection, s1, l1)
        | (None, s1, l1) =>
            let '(x, s2, l2) :=
              provider_adapter e image_path mode custom_prompt tone length_
                               language question u None s1 in
            (x, s2, l1 ++ Called_calculate_image_hash :: l2)
        end
  (* an admitted call reaches the provider: the first candidate is
     attempted, and if it responds the call is served and recorded *)
  ∧ (value (admission e u s) = None →
     ∃ m0 rest,
       models_to_try e = m0 :: rest
       ∧ Attempting m0 ∈ calls r
       ∧ ∀ txt fin,
           gemini e image_path m0 = Responds txt fin →
           PyStr.truthy txt = true →
           r = (fresh_result e m0 txt fin,
                state_after_success e u (gemini_request_cache s)
                                    (after_admission e u s),
                calls (admission e u s)
                ++ [Called_calculate_image_hash; Attempting m0;
                    Called_generate_content (clean m0)
                      (final_prompt mode custom_prompt tone length_ language
                                    question);
                    Called_update_gemini_call_time u]
                ++ (if truthy_user u then [Called_increment_daily_count u]
                    else [])))
  (* whichever model responds, the success is recorded as usual *)
  ∧ (is_Some (model_used (value r)) →
     final r = state_after_success e u (gemini_request_cache s)
                                   (after_admission e u s)
     ∧ Called_update_gemini_call_time u ∈ calls r)
  (* the call returns what it returns when the file is readable and the
     lookup misses, and leaves the same globals, the cache apart *)
  ∧ (∀ f,
       let r' := process (with_file e image_path f) s in
       Dict.get (cache_key (md5_hexdigest e f) mode custom_prompt tone
                           length_ language question)
                (gemini_request_cache s) = None →
       value r = value r'
       ∧ final r = State (gemini_last_call_time (final r'))
                         (gemini_user_cooldowns (final r'))
                         (gemini_daily_counts (final r'))
                         (gemini_daily_reset_date (final r'))
                         (gemini_request_cache s)).
Proof.
  intros Hopen process r.
  destruct (unreadable_image_frame e image_path mode
              custom_prompt tone length_ language question u s err Hopen)
    as (Hfail & Hnone & Hquiet & Hcache & Hrun).
  fold (process e) r in Hquiet, Hcache, Hrun.
  assert (Hih : image_hash_of e image_path = None).
  { unfold image_hash_of. by rewrite Hfail. }
  destruct (after_admission_cooldown e u s) as (_ & _ & Hc1).
  split; [done|]. split.
  { unfold calculate_image_hash. by rewrite Hfail. }
  do 3 (split; [done|]).
  split; [|split].
  - intros Hadm. destruct (models_to_try_cons e) as (m0 & rest & Hmodels).
    exists m0, rest. split; [done|]. split.
    + apply (process_attempts_first e image_path mode custom_prompt tone
               length_ language question u s m0 rest); [done| |done].
      by rewrite Hih.
    + intros txt fin Hg Htxt. subst r process. cbv beta.
      rewrite (process_first_responds e image_path mode custom_prompt tone
                 length_ language question u s m0 rest txt fin);
        [|done|by rewrite Hih|done..].
      rewrite Hih. cbn [PyStr.truthy_opt app]. by rewrite Hc1.
  - intros Hsome. subst r process. cbv beta in *.
    destruct (process_cases e image_path mode custom_prompt tone length_
                language question u s)
      as (head & _ & [(Hm & _ & _)|(m & txt & fin & _ & _ & _ & _ & Hrun')]).
    + rewrite Hm in Hsome. by destruct Hsome.
    + rewrite Hrun', on_success_run, Hih. unfold final, calls; cbn [fst snd].
      cbn [PyStr.truthy_opt app]. rewrite Hc1. split; [done|].
      rewrite elem_of_app. right. by left.
  - intros f r' Hmiss. subst r r' process. cbv beta.
    rewrite !process_run. cbn zeta.
    rewrite admission_with_file, Hih, image_hash_of_with_file.
    change (after_admission (with_file e image_path f) u s)
      with (after_admission e u s).
    set (s1 := after_admission e u s) in *.
    assert (Hs1 : s1 = State (gemini_last_call_time s1)
                             (gemini_user_cooldowns s1)
                             (gemini_daily_counts s1)
                             (gemini_daily_reset_date s1)
                             (gemini_request_cache s)).
    { rewrite <- Hc1. by destruct s1. }
    destruct (admission e u s) as [[[rej|] s'] l1].
    { unfold value, final; cbn [fst snd]. by split. }
    assert (Hhit : cache_hit
                     (cache_key (PyStr.format (Some (md5_hexdigest e f)))
                                mode custom_prompt tone length_ language
                                question)
                     (Some (md5_hexdigest e f)) s1 = None).
    { unfold cache_hit. rewrite Hc1.
      destruct (PyStr.truthy_opt _); [exact Hmiss|done]. }
    rewrite Hhit. unfold cache_hit at 1. cbn [PyStr.truthy_opt].
    pose proof (adapter_without_hash e image_path mode custom_prompt tone
                  length_ language question u (Some (md5_hexdigest e f)) s1)
      as [Hv Hf]. cbn zeta in Hv, Hf.
    assert (Hsame : provider_adapter (with_file e image_path f) image_path
                      mode custom_prompt tone length_ language question u
                      (Some (md5_hexdigest e f)) s1
                    = provider_adapter e image_path mode custom_prompt tone
                        length_ language question u
                        (Some (md5_hexdigest e f)) s1).
    { unfold provider_adapter, mbind, M_bind, bind.
      change (models_to_try (with_file e image_path f))
        with (models_to_try e).
      by rewrite for_each_model_with_file. }
    rewrite Hsame.
    destruct (provider_adapter e image_path mode custom_prompt tone length_
                language question u None s1) as [[x0 t0] l0].
    destruct (provider_adapter e image_path mode custom_prompt tone length_
                language question u (Some (md5_hexdigest e f)) s1)
      as [[x1 t1] l2].
    unfold value, final in *; cbn [fst snd] in *. rewrite Hc1 in Hf.
    by split.
Qed.

(** ** Repeated requests *)

(** C1 as the specification words it fails: the same user repeats the
    request five seconds after it was answered.  The answer is in the
    cache, and the call is turned away by the cooldown before the cache is
    looked at. *)
Lemma repeat_within_cooldown_is_rejected :
  let t := seconds 63000000000 in
  let call now :=
    process_image_with_gemini (example_env now every_model_responds)
      "static/uploads/a.png" "caption" None "neutral" "medium" "en" None
      (UInt 1) in
  let r1 := call t (initial_state 738000) in
  let r2 := call (t + seconds 5) (final r1) in
  model_used (value r1) = Some "gemini-2.0-flash"
  ∧ Dict.get "d41d8cd98f00b204e9800998ecf8427e:caption:None:neutral:medium:en:None"
             (gemini_request_cache (final r1)) = Some (value r1)
  ∧ cached (value r2) = false
  ∧ text (value r2) = Cooldown (GlobalCooldownActive (seconds 57)).
Proof.
  vm_compute. repeat split.
Qed.

(** C1, amended: a first call succeeds with a usable image hash and so
    stores its result under the request's key.  A second call with the
    same hash and the same six request fields, made while the entry is
    still in the cache and let through by its own quota and cooldown
    checks, returns the stored text with [cached] set; it attempts no
    model and calls neither [cache_result] nor [update_gemini_call_time]
    nor [increment_daily_count].  The cooldown timestamps are unchanged;
    the quota state is changed by the day rollover of the call's own quota
    check at most. *)
Theorem repeated_request_served_from_cache
    (e1 e2 : env) (path1 path2 mode : string) (custom_prompt : option string)
    (tone length_ language : string) (question : option string)
    (u1 u2 : user_id) (s1 s2 : state) (h : string) :
  image_hash_of e1 path1 = Some h →
  image_hash_of e2 path2 = Some h →
  PyStr.truthy h = true →
  let key := cache_key h mode custom_prompt tone length_ language question in
  let r1 := process_image_with_gemini e1 path1 mode custom_prompt tone
              length_ language question u1 s1 in
  let r2 := process_image_with_gemini e2 path2 mode custom_prompt tone
              length_ language question u2 s2 in
  is_Some (model_used (value r1)) →
  Dict.get key (gemini_request_cache s2) = Some (value r1) →
  value (admission e2 u2 s2) = None →
  Dict.get key (gemini_request_cache (final r1)) = Some (value r1)
  ∧ cached (value r2) = true
  ∧ text (value r2) = text (value r1)
  ∧ Forall is_quiet (calls r2)
  ∧ (∀ m, Attempting m ∉ calls r2)
  ∧ final r2 = after_admission e2 u2 s2
  ∧ gemini_last_call_time (final r2) = gemini_last_call_time s2
  ∧ gemini_user_cooldowns (final r2) = gemini_user_cooldowns s2.
Proof.
  intros Hh1 Hh2 Hh key r1 r2 Hsucc Hstill Hadm. subst r1 r2.
  split.
  { destruct (process_cases e1 path1 mode custom_prompt tone length_
                language question u1 s1)
      as (head & _ & [(Hm & _ & _)
                     |(m & txt & fin & _ & _ & _ & Hmiss & Hrun)]).
    { rewrite Hm in Hsucc. by destruct Hsucc. }
    rewrite Hrun, on_success_run, Hh1. unfold value, final; cbn [fst snd].
    change (PyStr.format (Some h)) with h. cbn [PyStr.truthy_opt].
    rewrite Hh. simpl.
    apply cache_after_get_new.
    rewrite Hh1 in Hmiss. unfold cache_hit in Hmiss.
    change (PyStr.format (Some h)) with h in Hmiss.
    cbn [PyStr.truthy_opt] in Hmiss.
    by rewrite Hh in Hmiss. }
  destruct (after_admission_cooldown e2 u2 s2) as (Hlast & Hcd & Hcache).
  pose proof (admission_quiet e2 u2 s2) as Hq.
  assert (Hna : ∀ m, Attempting m ∉ calls (admission e2 u2 s2)).
  { intros m Hin. rewrite admission_run in Hin. simpl in Hin.
    unfold calls in Hin.
    destruct (truthy_user u2 && _); simpl in Hin;
      destruct (truthy_user u2); simpl in Hin;
      repeat (apply elem_of_cons in Hin as [Hin|Hin]; [discriminate Hin|]);
      by apply elem_of_nil in Hin. }
  rewrite process_run, Hh2. unfold cache_hit.
  change (PyStr.format (Some h)) with h. cbn [PyStr.truthy_opt].
  rewrite Hh, Hcache.
  fold key. rewrite Hstill.
  destruct (admission e2 u2 s2) as [[rej s'] l1].
  unfold value in Hadm; cbn [fst] in Hadm. subst rej.
  unfold value, final, calls in *; cbn [fst snd] in *.
  repeat split; try done.
  - forall_events.
  - intros m Hin. apply elem_of_app in Hin as [Hin|Hin]; [by apply (Hna m)|].
    repeat (apply elem_of_cons in Hin as [Hin|Hin]; [discriminate Hin|]).
    by apply elem_of_nil in Hin.
Qed.

(** ** A first call, end to end *)

(** A user with no calls today and no cooldown running asks for a caption
    of a new image: the first candidate answers, the result is fresh, and
    the user's count is one. *)
Example first_call_of_the_day :
  let e := example_env (seconds 63000000000) every_model_responds in
  let r := process_image_with_gemini e "static/uploads/a.png" "caption" None
             "neutral" "medium" "en" None (UInt 1) (initial_state 738000) in
  value r = Result (ModelText "A quiet harbour at dusk.") Low (seconds 1)
                   false 0 (Some "gemini-2.0-flash") (Some false)
  ∧ gemini_daily_counts (final r) !! UInt 1 = Some 1
  ∧ gemini_last_call_time (final r) = seconds 63000000002
  ∧ gemini_user_cooldowns (final r) !! UInt 1 = Some (seconds 63000000002 + 9)
  ∧ calls r =
      [Called_check_daily_quota (UInt 1);
       Called_check_gemini_cooldown (UInt 1);
       Called_calculate_image_hash;
       Called_get_cached_result
         "d41d8cd98f00b204e9800998ecf8427e:caption:None:neutral:medium:en:None";
       Attempting "gemini-2.0-flash";
       Called_generate_content "gemini-2.0-flash"
         (final_prompt "caption" None "neutral" "medium" "en" None);
       Called_cache_result
         "d41d8cd98f00b204e9800998ecf8427e:caption:None:neutral:medium:en:None";
       Called_update_gemini_call_time (UInt 1);
       Called_increment_daily_count (UInt 1)].
Proof. vm_compute. repeat split. Qed.

(** ** Worked instances *)

Lemma anonymous_call_witness :
  let e := example_env (seconds 63000000000) every_model_responds in
  let r := process_image_with_gemini e "static/uploads/a.png" "caption" None
             "neutral" "medium" "en" None UNone (initial_state 738000) in
  value r = Result (ModelText "A quiet harbour at dusk.") Low (seconds 1)
                   false 0 (Some "gemini-2.0-flash") (Some false)
  ∧ gemini_last_call_time (final r) = seconds 63000000002
  ∧ gemini_daily_counts (final r) = ∅
  ∧ gemini_user_cooldowns (final r) = ∅.
Proof.
  intros e r.
  destruct (anonymous_call_uses_global_gate_only e "static/uploads/a.png"
              "caption" None "neutral" "medium" "en" None UNone
              (initial_state 738000) eq_refl)
    as (_ & _ & _ & _ & _ & _ & _ & _ & _ & Hserved).
  destruct Hserved as (m0 & rest & Hmodels & _ & Hrun).
  - vm_compute. discriminate.
  - reflexivity.
  - vm_compute in Hmodels. injection Hmodels as <- <-.
    pose proof (Hrun "A quiet harbour at dusk." (seconds 63000000001)
                  eq_refl eq_refl) as Hr.
    refine (eq_ind_r (λ x, value x = _ ∧ gemini_last_call_time (final x) = _
                           ∧ gemini_daily_counts (final x) = _
                           ∧ gemini_user_cooldowns (final x) = _) _ Hr).
    vm_compute. by repeat split.
Defined.

Lemma quota_signal_witness :
  let e := example_env (seconds 63000000000) quota_exhausted in
  let r := process_image_with_gemini e "static/uploads/a.png" "caption" None
             "neutral" "medium" "en" None (UInt 1) (initial_state 738000) in
  quota_exceeded (value r) = Some true ∧ cooldown (value r) = seconds 86400.
Proof.
  intros e r.
  destruct (quota_signal_stops_fallback e "static/uploads/a.png" "caption"
              None "neutral" "medium" "en" None (UInt 1)
              (initial_state 738000) [] "gemini-2.0-flash"
              ["gemini-flash-latest"; "gemini-1.5-flash-latest"]
              "429 You exceeded your current quota.")
    as (_ & Hq & Hc & _).
  - reflexivity.
  - reflexivity.
  - reflexivity.
  - vm_compute. repeat constructor.
  - by split.
Defined.

Lemma other_error_witness :
  let e := example_env (seconds 63000000000) first_breaks_rest_missing in
  let r := process_image_with_gemini e "static/uploads/a.png" "caption" None
             "neutral" "medium" "en" None (UInt 1) (initial_state 738000) in
  (Attempting "gemini-flash-latest" ∈ calls r)
  ∧ value r = Result (ErrorText "500 Internal error encountered.") Low 0
                     false (seconds 300) None (Some false).
Proof.
  intros e r.
  destruct (other_error_moves_to_next_model e "static/uploads/a.png"
              "caption" None "neutral" "medium" "en" None (UInt 1)
              (initial_state 738000) [] "gemini-2.0-flash"
              ["gemini-flash-latest"; "gemini-1.5-flash-latest"]
              "500 Internal error encountered.")
    as [Hnext Hgeneric].
  - reflexivity.
  - reflexivity.
  - reflexivity.
  - reflexivity.
  - reflexivity.
  - vm_compute. repeat constructor.
  - split; [by eapply Hnext|].
    apply Hgeneric. intros m' Hm'.
    apply elem_of_cons in Hm' as [->|Hm'];
      [|apply list_elem_of_singleton in Hm' as ->];
      eexists; (split; [reflexivity|split; reflexivity]).
Defined.

Lemma unreadable_image_witness :
  let e := unreadable_env (seconds 63000000000) every_model_responds in
  let r := process_image_with_gemini e "static/uploads/a.png" "caption" None
             "neutral" "medium" "en" None (UInt 1) (initial_state 738000) in
  value r = Result (ModelText "A quiet harbour at dusk.") Low (seconds 1)
                   false 0 (Some "gemini-2.0-flash") (Some false)
  ∧ gemini_daily_counts (final r) !! UInt 1 = Some 1
  ∧ gemini_request_cache (final r) = [].
Proof.
  intros e r.
  destruct (unreadable_image_disables_caching_only e "static/uploads/a.png"
              "caption" None "neutral" "medium" "en" None (UInt 1)
              (initial_state 738000)
              (IOError "No such file or directory") eq_refl)
    as (_ & _ & _ & _ & _ & Hserved & _).
  destruct Hserved as (m0 & rest & Hmodels & _ & Hrun);
    [vm_compute; reflexivity|].
  vm_compute in Hmodels. injection Hmodels as <- <-.
  pose proof (Hrun "A quiet harbour at dusk." (seconds 63000000001)
                eq_refl eq_refl) as Hr.
  refine (eq_ind_r (λ x, value x = _
                         ∧ gemini_daily_counts (final x) !! UInt 1 = _
                         ∧ gemini_request_cache (final x) = _) _ Hr).
  vm_compute. by repeat split.
Defined.

Lemma repeated_request_witness :
  let t := seconds 63000000000 in
  let call now :=
    process_image_with_gemini (example_env now every_model_responds)
      "static/uploads/a.png" "caption" None "neutral" "medium" "en" None
      (UInt 1) in
  let r1 := call t (initial_state 738000) in
  let r2 := call (t + seconds 90) (final r1) in
  cached (value r2) = true ∧ text (value r2) = text (value r1).
Proof.
  intros t call r1 r2.
  destruct (repeated_request_served_from_cache
              (example_env t every_model_responds)
              (example_env (t + seconds 90) every_model_responds)
              "static/uploads/a.png" "static/uploads/a.png" "caption" None
              "neutral" "medium" "en" None (UInt 1) (UInt 1)
              (initial_state 738000) (final r1)
              "d41d8cd98f00b204e9800998ecf8427e")
    as (_ & Hc & Ht & _).
  - reflexivity.
  - reflexivity.
  - reflexivity.
  - vm_compute. by eexists.
  - vm_compute. reflexivity.
  - vm_compute. reflexivity.
  - by split.
Defined.

Lemma cache_eviction_witness :
  let cache :=
    gemini_request_cache
      (cache_each (numbered_entries 1001) (initial_state 738000)) in
  (length cache ≤ 901)%nat.
Proof.
  intros cache.
  destruct (cache_result_evicts_oldest (numbered_entries 1001)
              (initial_state 738000))
    as (_ & _ & Hlen & _).
  - reflexivity.
  - apply (bool_decide_unpack _). vm_compute. exact I.
  - vm_compute. reflexivity.
  - exact Hlen.
Defined.


(** * Further properties of the gatekeeper *)

(** ** Quota tracker *)

Lemma increment_times_counts k u s :
  gemini_daily_counts (increment_times k u s) !! u
  = (if k is O then gemini_daily_counts s !! u
     else Some (default 0 (gemini_daily_counts s !! u) + Z.of_nat k))
  ∧ gemini_daily_reset_date (increment_times k u s)
    = gemini_daily_reset_date s.
Proof.
  induction k as [|k [IHc IHd]]; [done|].
  change (increment_times (S k) u s)
    with (final (increment_daily_count u (increment_times k u s))).
  rewrite increment_daily_count_run. unfold final; cbn [fst snd].
  cbn [gemini_daily_counts gemini_daily_reset_date].
  split; [|done]. rewrite lookup_insert_eq, IHc.
  destruct k; [f_equal; lia|]. cbn [default from_option id]. f_equal. lia.
Qed.

(** X1: a user whose count is [c] and who is counted [k] more times on the
    same day is let through by the next quota check exactly when
    [c + k < 15], and is told [c + k] calls are used; on any other day the
    check lets the user through with nothing used. *)
Theorem quota_after_increments (k : nat) (u : user_id) (s : state)
    (today : date) :
  let c := default 0 (gemini_daily_counts s !! u) in
  let r := check_daily_quota today u (increment_times k u s) in
  value r =
    if decide (today = gemini_daily_reset_date s)
    then (bool_decide (c + Z.of_nat k < FREE_TIER_DAILY_LIMIT),
          c + Z.of_nat k, FREE_TIER_DAILY_LIMIT)
    else (true, 0, FREE_TIER_DAILY_LIMIT).
Proof.
  intros c r. subst r. rewrite check_daily_quota_run.
  destruct (increment_times_counts k u s) as [Hc Hd].
  unfold value, after_rollover; cbn [fst snd]. rewrite Hd.
  destruct (decide (today = gemini_daily_reset_date s)) as [_|_].
  - rewrite Hc. fold c.
    assert (default 0 (if k is O then gemini_daily_counts s !! u
                       else Some (c + Z.of_nat k)) = c + Z.of_nat k) as ->.
    { destruct k; [subst c; lia|done]. }
    f_equal. f_equal.
    destruct (Z.leb_spec FREE_TIER_DAILY_LIMIT (c + Z.of_nat k));
      [by rewrite bool_decide_false by lia|by rewrite bool_decide_true by lia].
  - cbn [gemini_daily_counts]. by rewrite lookup_empty.
Qed.

(** X2: a second quota check on the same day repeats the first: the same
    answer, and the globals as the first check left them. *)
Theorem check_daily_quota_twice (today : date) (u : user_id) (s : state) :
  let r1 := check_daily_quota today u s in
  let r2 := check_daily_quota today u (final r1) in
  value r2 = value r1 ∧ final r2 = final r1.
Proof.
  intros r1 r2. subst r1 r2. rewrite !check_daily_quota_run.
  unfold value, final; cbn [fst snd].
  assert (after_rollover today (after_rollover today s)
          = after_rollover today s) as ->; [|done].
  unfold after_rollover.
  destruct (decide (today = gemini_daily_reset_date s)) as [Heq|Hne].
  - by rewrite decide_True.
  - cbn [gemini_daily_reset_date]. by rewrite decide_True.
Qed.

Lemma check_gemini_cooldown_reads now u s s' :
  gemini_last_call_time s' = gemini_last_call_time s →
  gemini_user_cooldowns s' = gemini_user_cooldowns s →
  value (check_gemini_cooldown now u s')
  = value (check_gemini_cooldown now u s).
Proof.
  intros Hl Hc. unfold check_gemini_cooldown. run. rewrite Hl, Hc.
  destruct (_ <? _); [done|].
  destruct (truthy_user u); [|done]. by destruct (_ <? _).
Qed.

Lemma admission_passed e u s :
  value (admission e u s) = None →
  (truthy_user u = true →
   default 0 (gemini_daily_counts (after_admission e u s) !! u)
   < FREE_TIER_DAILY_LIMIT)
  ∧ (value (check_gemini_cooldown (now_at_check e) u s)).1.1 = true.
Proof.
  rewrite admission_run. cbn zeta.
  destruct (after_admission_cooldown e u s) as (Hl & Hc & _).
  rewrite (check_gemini_cooldown_reads _ _ s (after_admission e u s))
    by done.
  destruct (truthy_user u); cbn [andb].
  - destruct (Z.leb_spec FREE_TIER_DAILY_LIMIT
                (default 0 (gemini_daily_counts (after_admission e u s) !! u)));
      [done|].
    unfold value at 1; cbn [fst].
    destruct (value _).1.1; [|done]. by split.
  - unfold value at 1; cbn [fst].
    destruct (value _).1.1; [|done]. by split.
Qed.

Lemma after_admission_within_quota e u s :
  within_quota s → within_quota (after_admission e u s).
Proof.
  unfold within_quota, after_admission, after_rollover. intros H u'.
  destruct (truthy_user u); [|done].
  destruct (decide _); [done|]. cbn [gemini_daily_counts].
  by rewrite lookup_empty.
Qed.

Lemma dict_set_length {V} k (v : V) d :
  (length d ≤ length (Dict.set k v d) ≤ S (length d))%nat.
Proof.
  induction d as [|[k' v'] d IH]; simpl; [lia|].
  destruct (decide (k' = k)); simpl; lia.
Qed.

Lemma cache_after_bound {V} k (v : V) d :
  (length d ≤ 1000 → length (cache_after k v d) ≤ 1000)%nat.
Proof.
  intros Hd. rewrite cache_after_drop. cbn zeta.
  pose proof (dict_set_length k v d) as Hset.
  destruct (Nat.ltb_spec 1000 (length (Dict.set k v d))); [|done].
  rewrite length_drop. lia.
Qed.

Section gate_facts.
Variable e : env.
Variables (image_path mode : string) (custom_prompt : option string).
Variables (tone length_ language : string) (question : option string).
Variable u : user_id.

Local Abbreviation process :=
  (process_image_with_gemini e image_path mode custom_prompt tone length_
                             language question u).

(** X3: a user at or above the daily limit is refused by the quota check
    alone: the cooldown is not looked at, no hash is computed, no model is
    tried, and the only change to the globals is the day rollover. *)
Theorem over_quota_call_is_refused (s : state) :
  truthy_user u = true →
  let s1 := after_rollover (today e) s in
  let used := default 0 (gemini_daily_counts s1 !! u) in
  FREE_TIER_DAILY_LIMIT ≤ used →
  process s =
    (Result (DailyQuotaExceeded used FREE_TIER_DAILY_LIMIT) Low 0 false
            (seconds 3600) None (Some true),
     s1, [Called_check_daily_quota u]).
Proof.
  intros Hu s1 used Hused. rewrite process_run, admission_run.
  unfold after_admission. rewrite Hu. fold s1 used. cbn [andb].
  destruct (Z.leb_spec FREE_TIER_DAILY_LIMIT used); [done|lia].
Qed.

(** X4: a call that the cooldown check refuses returns the cooldown
    rejection with the check's wait time and message; no hash is computed,
    the cache is not looked at and no model is tried.  In particular this
    is so for every caller while less than the cooldown has passed since
    the last recorded call. *)
Theorem cooling_call_is_refused (s : state) :
  (truthy_user u = true →
   default 0 (gemini_daily_counts (after_admission e u s) !! u)
   < FREE_TIER_DAILY_LIMIT) →
  let c := value (check_gemini_cooldown (now_at_check e) u s) in
  c.1.1 = false →
  process s =
    (Result (Cooldown c.2) Low 0 false c.1.2 None None,
     after_admission e u s,
     (if truthy_user u then [Called_check_daily_quota u] else [])
     ++ [Called_check_gemini_cooldown u])
  ∧ (now_at_check e - gemini_last_call_time s < seconds FREE_TIER_COOLDOWN →
     c.2 = GlobalCooldownActive
             (seconds FREE_TIER_COOLDOWN
              - (now_at_check e - gemini_last_call_time s))).
Proof.
  intros Hquota c Hc. split.
  - rewrite process_run, admission_run. cbn zeta.
    destruct (after_admission_cooldown e u s) as (Hl & Hcd & _).
    rewrite (check_gemini_cooldown_reads _ _ s (after_admission e u s))
      by done.
    fold c. rewrite Hc.
    destruct (truthy_user u); cbn [andb]; [|done].
    destruct (Z.leb_spec FREE_TIER_DAILY_LIMIT
                (default 0 (gemini_daily_counts (after_admission e u s) !! u)));
      [|done].
    specialize (Hquota eq_refl). lia.
  - intros Hg. subst c. unfold check_gemini_cooldown. run.
    destruct (Z.ltb_spec (now_at_check e - gemini_last_call_time s)
                         (seconds FREE_TIER_COOLDOWN)); [done|lia].
Qed.

(** X5: a call changes the counts, beyond the day rollover of its quota
    check, only by adding one to the caller's count, and only for a caller
    below the limit; so if no user is above the limit before a call, none
    is after it. *)
Theorem call_keeps_counts_within_quota (s : state) :
  let s1 := after_admission e u s in
  let c := default 0 (gemini_daily_counts s1 !! u) in
  (gemini_daily_counts (final (process s)) = gemini_daily_counts s1
   ∨ (truthy_user u = true ∧ c < FREE_TIER_DAILY_LIMIT
      ∧ gemini_daily_counts (final (process s))
        = <[u := c + 1]> (gemini_daily_counts s1)))
  ∧ (within_quota s → within_quota (final (process s))).
Proof.
  intros s1 c.
  assert (Hkinds :
    gemini_daily_counts (final (process s)) = gemini_daily_counts s1
    ∨ (truthy_user u = true ∧ c < FREE_TIER_DAILY_LIMIT
       ∧ gemini_daily_counts (final (process s))
         = <[u := c + 1]> (gemini_daily_counts s1))).
  { destruct (process_cases e image_path mode custom_prompt tone length_
                language question u s)
      as (head & _ & [(_ & -> & _)
                     |(m & txt & fin & _ & _ & Hadm & _ & ->)]);
      [by left|].
    rewrite on_success_run. unfold final, state_after_success; cbn [fst snd].
    cbn [gemini_daily_counts]. fold s1.
    destruct (truthy_user u) eqn:Hu; [|by left].
    right. split; [done|]. split; [|done].
    by apply (admission_passed e u s Hadm). }
  split; [done|].
  intros Hs. pose proof (after_admission_within_quota e u s Hs) as Hs1.
  fold s1 in Hs1. intros u'.
  destruct Hkinds as [->|(_ & Hc & ->)]; [apply Hs1|].
  destruct (decide (u' = u)) as [->|Hne].
  - rewrite lookup_insert_eq. cbn [default from_option id]. lia.
  - rewrite lookup_insert_ne by done. apply Hs1.
Qed.

(** X6: a call leaves a cache of at most 1000 entries at most 1000 entries
    large. *)
Theorem call_keeps_cache_bounded (s : state) :
  (length (gemini_request_cache s) ≤ 1000)%nat →
  (length (gemini_request_cache (final (process s))) ≤ 1000)%nat.
Proof.
  intros Hs.
  destruct (after_admission_cooldown e u s) as (_ & _ & Hcache).
  destruct (process_cases e image_path mode custom_prompt tone length_
              language question u s)
    as (head & _ & [(_ & -> & _)|(m & txt & fin & _ & _ & _ & _ & ->)]).
  { by rewrite Hcache. }
  rewrite on_success_run. unfold final, state_after_success; cbn [fst snd].
  cbn [gemini_request_cache]. rewrite Hcache.
  destruct (PyStr.truthy_opt _); [|done]. by apply cache_after_bound.
Qed.
End gate_facts.

(** ** The fallback loop *)

Section fallback_facts.
Variable e : env.
Variables (image_path mode : string) (custom_prompt : option string).
Variables (tone length_ language : string) (question : option string).
Variable u : user_id.

Local Abbreviation process :=
  (process_image_with_gemini e image_path mode custom_prompt tone length_
                             language question u).
Local Abbreviation loop :=
  (for_each_model e image_path mode custom_prompt tone length_ language
                  question u).
Local Abbreviation outcome :=
  (λ x : loop_exit,
     match x with
     | Returned result_data => result_data
     | Fell_through last_error => all_models_failed last_error
     end).

(** A call in which some model is attempted is the loop run on the
    globals left by the admission checks, after the events of the checks
    and of the cache lookup. *)
Lemma process_enters_loop s m :
  Attempting m ∈ calls (process s) →
  ∃ head,
    Forall (λ ev, ¬ is_probe ev ∧ is_quiet ev) head
    ∧ process s =
        let '(x, s2, l) :=
          loop (image_hash_of e image_path) (models_to_try e) None
               (after_admission e u s) in
        (outcome x, s2, head ++ l).
Proof.
  rewrite process_run.
  set (s1 := after_admission e u s). set (ih := image_hash_of e image_path).
  set (lookup_log := Called_calculate_image_hash :: _).
  assert (Hadm : Forall (λ ev, ¬ is_probe ev ∧ is_quiet ev)
                        (calls (admission e u s))).
  { rewrite admission_run. simpl. unfold calls.
    destruct (truthy_user u && _); simpl; forall_events. }
  assert (Hlook : Forall (λ ev, ¬ is_probe ev ∧ is_quiet ev) lookup_log).
  { subst lookup_log. forall_events. }
  assert (Hno : ∀ l, Forall (λ ev, ¬ is_probe ev ∧ is_quiet ev) l →
                     Attempting m ∉ l).
  { intros l Hl Hin. rewrite Forall_forall in Hl.
    by destruct (Hl _ Hin) as [Hp _]. }
  destruct (admission e u s) as [[[rej|] s'] l1]; unfold calls in *;
    cbn [snd] in *.
  { intros Hin. by destruct (Hno l1). }
  assert (Hhead : Forall (λ ev, ¬ is_probe ev ∧ is_quiet ev)
                         (l1 ++ lookup_log)) by by apply Forall_app.
  destruct (cache_hit _ ih s1) as [c|].
  { intros Hin. cbn [snd] in Hin. by destruct (Hno (l1 ++ lookup_log)). }
  intros _. exists (l1 ++ lookup_log). split; [done|].
  unfold provider_adapter, mbind, M_bind, bind.
  destruct (for_each_model _ _ _ _ _ _ _ _ _ _ _ _ s1) as [[x s2] l].
  destruct x; unfold ret; by rewrite app_nil_r, app_assoc.
Qed.

(** A call in which the loop gets as far as model [m] is the run of the
    loop from [m] on, after quiet events that attempt none of the models
    from [m] on. *)
Lemma process_from_reached s pre m post :
  models_to_try e = pre ++ m :: post →
  Attempting m ∈ calls (process s) →
  NoDup (pre ++ m :: post)
  ∧ ∃ head le',
      (∀ m', m' ∈ m :: post → Attempting m' ∉ head)
      ∧ Forall is_quiet head
      ∧ process s =
          let '(x, s2, l) :=
            loop (image_hash_of e image_path) (m :: post) le'
                 (after_admission e u s) in
          (outcome x, s2, head ++ l).
Proof.
  intros Hmodels Hin.
  pose proof (models_to_try_NoDup e) as Hnd. rewrite Hmodels in Hnd.
  split; [done|].
  destruct (process_enters_loop _ _ Hin) as (head & Hhead & Hrun).
  rewrite Hrun in Hin |- *. clear Hrun. rewrite Hmodels in Hin |- *.
  set (s1 := after_admission e u s) in *.
  assert (Hno : ∀ m', Attempting m' ∉ head).
  { intros m' Hin'. rewrite Forall_forall in Hhead.
    by destruct (Hhead _ Hin') as [Hp _]. }
  destruct (loop_reaches e image_path mode custom_prompt tone length_
              language question u (image_hash_of e image_path)
              pre m post None s1 Hnd)
    as (le' & probes & Hp & Hpre & Hloop).
  { destruct (for_each_model _ _ _ _ _ _ _ _ _ _ _ _ s1) as [[x s2] l].
    unfold calls in *; cbn [snd] in *.
    apply elem_of_app in Hin as [Hin|Hin]; [by destruct (Hno m)|done]. }
  exists (head ++ probes), le'. split; [|split].
  - intros m' Hm' [Hin'|Hin']%elem_of_app; [by destruct (Hno m')|].
    apply Hpre in Hin'.
    apply NoDup_app in Hnd as (_ & Hdisj & _). by apply (Hdisj m').
  - apply Forall_app. split.
    + eapply Forall_impl; [exact Hhead|]. by intros ev [_ ?].
    + eapply Forall_impl; [exact Hp|]. by intros [].
  - rewrite Hloop.
    destruct (loop (image_hash_of e image_path) (m :: post) le' s1)
      as [[x s2] l].
    by rewrite app_assoc.
Qed.

(** X7: when the loop gets as far as a model that responds with a
    non-empty text, that response is the result, with the model's clean
    name as ['model_used']; no later candidate is attempted, and the call
    is recorded. *)
Theorem first_response_wins (s : state) (pre : list string) (m : string)
    (post : list string) (txt : string) (fin : datetime) :
  models_to_try e = pre ++ m :: post →
  gemini e image_path m = Responds txt fin →
  PyStr.truthy txt = true →
  Attempting m ∈ calls (process s) →
  value (process s) = fresh_result e m txt fin
  ∧ (∀ m', m' ∈ post → Attempting m' ∉ calls (process s))
  ∧ (Called_update_gemini_call_time u ∈ calls (process s)).
Proof.
  intros Hmodels Hg Htxt Hin.
  destruct (process_from_reached s pre m post Hmodels Hin)
    as (Hnd & head & le' & Hhead & _ & ->).
  rewrite loop_cons, Hg. cbn [generate_content]. rewrite Htxt. cbn [negb].
  pose proof (success_no_attempt e mode custom_prompt tone length_ language
                question u (image_hash_of e image_path) (clean m) txt fin
                (after_admission e u s)) as Hno.
  rewrite on_success_run in Hno |- *.
  unfold value, calls in *; cbn [fst snd] in *.
  split; [done|]. split.
  - intros m' Hm'. apply NoDup_app in Hnd as (_ & _ & Hnd).
    apply NoDup_cons in Hnd as [Hm _].
    intros [Hin'|Hin']%elem_of_app.
    { apply (Hhead m'); [by right|done]. }
    apply elem_of_app in Hin' as [Hin'|Hin']; [|by apply (Hno m')].
    apply elem_of_cons in Hin' as [Heq|Hin']; [congruence|].
    apply list_elem_of_singleton in Hin'. discriminate Hin'.
  - rewrite !elem_of_app. right. right. right. by left.
Qed.

(** X8: when the loop gets as far as a model that responds with an empty
    text, no result is returned for it: the next candidate is attempted,
    and if every later candidate is passed over as missing or unavailable
    the call ends with the error outcome for "Empty response from model"
    and a cooldown of 300 seconds, the globals as the admission checks
    left them. *)
Theorem empty_response_is_a_failure (s : state) (pre : list string)
    (m : string) (post : list string) (txt : string) (fin : datetime) :
  models_to_try e = pre ++ m :: post →
  gemini e image_path m = Responds txt fin →
  PyStr.truthy txt = false →
  Attempting m ∈ calls (process s) →
  (∀ m2 post', post = m2 :: post' → Attempting m2 ∈ calls (process s))
  ∧ ((∀ m', m' ∈ post →
        ∃ err', gemini e image_path m' = Generate_raises err'
                ∧ is_quota_error err' = false
                ∧ is_not_found_error err' || is_unavailable_error err' = true) →
     value (process s)
     = Result (ErrorText "Empty response from model") Low 0 false
              (seconds 300) None (Some false)
     ∧ final (process s) = after_admission e u s
     ∧ Forall is_quiet (calls (process s))).
Proof.
  intros Hmodels Hg Htxt Hin.
  destruct (process_from_reached s pre m post Hmodels Hin)
    as (Hnd & head & le' & Hhead & Hquiet & ->).
  rewrite loop_cons, Hg. cbn [generate_content]. rewrite Htxt. cbn [negb].
  change (is_quota_error "Empty response from model") with false.
  change (is_not_found_error "Empty response from model"
          || is_unavailable_error "Empty response from model") with false.
  cbv iota. set (s1 := after_admission e u s).
  split.
  - intros m2 post' ->. rewrite loop_cons.
    assert (Hfirst : ∀ (t : loop_exit * state * list event) probe,
      (∃ l, t.2 = Attempting m2 :: l) →
      Attempting m2 ∈ calls
        (let '(x, s2, l) :=
           (let '(x, s', l) := t in (x, s', probe ++ l)) in
         (outcome x, s2, head ++ l))).
    { intros [[x s2] l] probe [l' Hl]. simpl in Hl. subst l.
      unfold calls; cbn [snd]. rewrite !elem_of_app. right. right.
      by left. }
    apply Hfirst.
    destruct (gemini e image_path m2) as [err2|err2|txt2 fin2].
    + destruct (for_each_model _ _ _ _ _ _ _ _ _ _ _ _ s1) as [[x s2] l].
      by eexists.
    + cbn [generate_content]. destruct (is_quota_error err2); [by eexists|].
      destruct (for_each_model _ _ _ _ _ _ _ _ _ _ _ _ s1) as [[x s2] l].
      by eexists.
    + destruct (generate_content (Responds txt2 fin2)) as [err2|[txt' fin']].
      * destruct (is_quota_error err2); [by eexists|].
        destruct (for_each_model _ _ _ _ _ _ _ _ _ _ _ _ s1) as [[x s2] l].
        by eexists.
      * destruct (on_success _ _ _ _ _ _ _ _ _ _ _ _ s1) as [[rd s2] l].
        by eexists.
  - intros Hskip.
    pose proof (loop_run e image_path mode custom_prompt tone length_
                  language question u (image_hash_of e image_path) post
                  (Some "Empty response from model") s1)
      as (probes & Hprobes & _).
    destruct (loop_all_skipped e image_path mode custom_prompt tone length_
                language question u (image_hash_of e image_path) post
                (Some "Empty response from model") s1 Hskip)
      as [probes' Hrest].
    pose proof (loop_run e image_path mode custom_prompt tone length_
                  language question u (image_hash_of e image_path) post
                  (Some "Empty response from model") s1)
      as (probes2 & Hp2 & [[le2 Hl2]|(m3 & txt3 & fin3 & _ & _ & Hl2)]).
    2: { rewrite Hrest in Hl2.
         destruct (on_success _ _ _ _ _ _ _ _ _ _ _ _ s1) as [[rd s2] l].
         discriminate Hl2. }
    rewrite Hrest in Hl2. inversion Hl2; subst.
    rewrite Hrest. unfold value, final, calls; cbn [fst snd].
    split; [done|]. split; [done|].
    apply Forall_app. split; [done|]. apply Forall_app. split.
    + by repeat constructor.
    + eapply Forall_impl; [exact Hp2|]. by intros [].
Qed.

(** When every model fails before the remote call, the loop attempts them
    all, calls none, and is left with the last of the errors. *)
Lemma loop_all_setup_fail ih models le s :
  (∀ m, m ∈ models → ∃ err, gemini e image_path m = Setup_raises err) →
  ∃ le', loop ih models le s = (Fell_through le', s, Attempting <$> models)
         ∧ (∀ m err, last models = Some m →
                     gemini e image_path m = Setup_raises err →
                     le' = Some err).
Proof.
  revert le. induction models as [|m rest IH]; intros le Hall.
  { exists le. split; [done|]. intros m err Hl. discriminate Hl. }
  destruct (Hall m) as [err Hg]; [by left|].
  destruct (IH (Some err)) as (le' & Hrun & Hlast).
  { intros m' Hm'. apply Hall. by right. }
  exists le'. split.
  - rewrite loop_cons, Hg, Hrun. done.
  - intros m0 err0 Hl Hg0. destruct rest as [|m1 rest].
    + cbn in Hl. inversion Hl; subst m0.
      rewrite Hg in Hg0. inversion Hg0; subst err0.
      cbn in Hrun. unfold ret in Hrun. by inversion Hrun.
    + apply (Hlast m0 err0); [|done]. by rewrite last_cons_cons in Hl.
Qed.

(** X9: when, for every candidate, the model object or the image cannot be
    set up, a call that enters the loop attempts every candidate and makes
    no remote call; it leaves the globals as the admission checks left
    them, and its result is decided by the text of the last error alone.
    When that text contains "429" or "quota" the result is the quota
    outcome with its cooldown of 86400 seconds. *)
Theorem setup_failures_make_no_remote_call (s : state) (m0 m_last : string)
    (err : string) :
  (∀ m, m ∈ models_to_try e →
        ∃ err', gemini e image_path m = Setup_raises err') →
  last (models_to_try e) = Some m_last →
  gemini e image_path m_last = Setup_raises err →
  Attempting m0 ∈ calls (process s) →
  value (process s) = all_models_failed (Some err)
  ∧ final (process s) = after_admission e u s
  ∧ Forall (λ ev, ∀ c p, ev ≠ Called_generate_content c p) (calls (process s))
  ∧ (∀ m, m ∈ models_to_try e → Attempting m ∈ calls (process s))
  ∧ (is_quota_error err = true →
     quota_exceeded (value (process s)) = Some true
     ∧ cooldown (value (process s)) = seconds 86400).
Proof.
  intros Hall Hlast Hg Hin.
  destruct (process_enters_loop s m0 Hin) as (head & Hhead & ->).
  destruct (loop_all_setup_fail (image_hash_of e image_path)
              (models_to_try e) None (after_admission e u s) Hall)
    as (le' & -> & Hle).
  rewrite (Hle m_last err Hlast Hg).
  unfold value, final, calls; cbn [fst snd].
  split; [done|]. split; [done|]. split; [|split].
  - apply Forall_app. split.
    + eapply Forall_impl; [exact Hhead|].
      intros ev [Hp _] c p ->. by apply Hp.
    + apply Forall_fmap, Forall_forall. by intros m _ c p.
  - intros m Hm. apply elem_of_app. right. by apply list_elem_of_fmap_2.
  - intros Hq. cbn [all_models_failed]. by rewrite Hq.
Qed.
End fallback_facts.

(** X10: the candidates are the configured model, when one is set,
    followed by the fallback models other than it, in their order; without
    a configured model they are the fallback models. *)
Theorem models_to_try_shape (e : env) :
  models_to_try e =
    match GEMINI_MODEL e with
    | Some m =>
        if PyStr.truthy m then m :: filter (λ x, x ≠ m) fallback_models
        else fallback_models
    | None => fallback_models
    end.
Proof.
  unfold models_to_try. destruct (GEMINI_MODEL e) as [m|]; [|reflexivity].
  destruct (PyStr.truthy m); [|reflexivity].
  unfold fallback_models. cbn [app dict_fromkeys].
  rewrite decide_False by apply not_elem_of_nil.
  f_equal. rewrite !filter_cons, filter_nil.
  repeat case_decide; try reflexivity;
    repeat match goal with
      | H : _ ∈ _ :: _ |- _ => apply elem_of_cons in H as [H|H]
      | H : _ ∈ [] |- _ => by apply elem_of_nil in H
      | H : ¬ (_ ∈ _ :: _) |- _ => apply not_elem_of_cons in H as [? H]
      end;
    congruence.
Qed.

(** ** Cache keys *)

Lemma colon_free_cons c s :
  colon_free (String c s) → c ≠ ":"%char ∧ colon_free s.
Proof.
  unfold colon_free. cbn [PyStr.contains String.prefix].
  destruct (ascii_dec ":" c) as [<-|Hne].
  - by destruct s.
  - intros H. split; [congruence|]. by destruct (PyStr.contains ":" s).
Qed.

Lemma split_at_colon a : ∀ a' r r',
  colon_free a → colon_free a' →
  a +:+ ":" +:+ r = a' +:+ ":" +:+ r' → a = a' ∧ r = r'.
Proof.
  induction a as [|c a IH]; intros [|c' a'] r r' Ha Ha' Heq; simpl in Heq.
  - by inversion Heq.
  - inversion Heq; subst. by destruct (colon_free_cons _ _ Ha').
  - inversion Heq; subst. by destruct (colon_free_cons _ _ Ha).
  - inversion Heq; subst.
    destruct (colon_free_cons _ _ Ha) as [_ Ha1].
    destruct (colon_free_cons _ _ Ha') as [_ Ha1'].
    destruct (IH a' r r' Ha1 Ha1') as [-> ->]; done.
Qed.

Lemma format_inj a b :
  a ≠ Some "None" → b ≠ Some "None" → PyStr.format a = PyStr.format b → a = b.
Proof. destruct a, b; simpl; intros Ha Hb Heq; congruence. Qed.

(** X11: two different requests whose fields before the question hold no
    colon, and whose optional fields are not the text "None", have
    different cache keys. *)
Theorem cache_key_injective (q1 q2 : request) :
  plain_request q1 → plain_request q2 →
  q1 ≠ q2 → request_key q1 ≠ request_key q2.
Proof.
  destruct q1 as [h1 m1 c1 t1 l1 g1 x1], q2 as [h2 m2 c2 t2 l2 g2 x2].
  unfold plain_request, request_key, cache_key. simpl.
  intros (Hh1 & Hm1 & Hc1 & Ht1 & Hl1 & Hg1 & Hn1 & Hx1)
         (Hh2 & Hm2 & Hc2 & Ht2 & Hl2 & Hg2 & Hn2 & Hx2) Hne Heq.
  apply Hne.
  apply split_at_colon in Heq as [-> Heq]; [|done..].
  apply split_at_colon in Heq as [-> Heq]; [|done..].
  apply split_at_colon in Heq as [Hc Heq]; [|done..].
  apply split_at_colon in Heq as [-> Heq]; [|done..].
  apply split_at_colon in Heq as [-> Heq]; [|done..].
  apply split_at_colon in Heq as [-> Heq]; [|done..].
  apply format_inj in Hc; [|done..]. apply format_inj in Heq; [|done..].
  by subst.
Qed.

Lemma cache_key_injective_witness :
  request_key (Request "d41d8cd98f00b204e9800998ecf8427e" "caption" None
                       "neutral" "medium" "en" (Some "What is this: a cat?"))
  ≠ request_key (Request "d41d8cd98f00b204e9800998ecf8427e" "keywords" None
                         "neutral" "medium" "en"
                         (Some "What is this: a cat?")).
Proof.
  apply cache_key_injective; [| |discriminate];
    (repeat split; try reflexivity; discriminate).
Defined.

Lemma append_assoc (a b c : string) : (a +:+ b) +:+ c = a +:+ b +:+ c.
Proof.
  induction a as [|x a IH]; [done|].
  change (String x ((a +:+ b) +:+ c) = String x (a +:+ b +:+ c)).
  by rewrite IH.
Qed.

(** Moving the text after a colon from the end of the custom prompt to the
    front of the question leaves the cache key as it is. *)
Lemma colon_shift_collision h mode cp tone len lang q :
  cache_key h mode
            (Some (cp +:+ ":" +:+ tone +:+ ":" +:+ len +:+ ":" +:+ lang))
            tone len lang (Some q)
  = cache_key h mode (Some cp) tone len lang
              (Some (tone +:+ ":" +:+ len +:+ ":" +:+ lang +:+ ":" +:+ q)).
Proof.
  unfold cache_key, PyStr.format. cbn [default from_option id].
  do 4 f_equal. by rewrite !append_assoc.
Qed.

(** X12: the cache is addressed by the key text alone.  When a first call
    succeeds with a usable hash, a later admitted call whose request has
    the same key is answered with the first call's text, without any model
    being attempted, even when the two requests differ. *)
Theorem cache_serves_by_key
    (e1 e2 : env) (path1 path2 : string) (q1 q2 : request)
    (u1 u2 : user_id) (s : state) :
  image_hash_of e1 path1 = Some (req_image_hash q1) →
  image_hash_of e2 path2 = Some (req_image_hash q2) →
  PyStr.truthy (req_image_hash q1) = true →
  PyStr.truthy (req_image_hash q2) = true →
  request_key q2 = request_key q1 →
  let r1 := process_request e1 path1 q1 u1 s in
  let r2 := process_request e2 path2 q2 u2 (final r1) in
  is_Some (model_used (value r1)) →
  value (admission e2 u2 (final r1)) = None →
  cached (value r2) = true
  ∧ text (value r2) = text (value r1)
  ∧ (∀ m, Attempting m ∉ calls r2).
Proof.
  intros Hh1 Hh2 Ht1 Ht2 Hkey r1 r2 Hsucc Hadm.
  assert (Hstored : Dict.get (request_key q1)
                      (gemini_request_cache (final r1)) = Some (value r1)).
  { subst r1. unfold process_request in *.
    destruct (process_cases e1 path1 (req_mode q1) (req_custom_prompt q1)
                (req_tone q1) (req_length q1) (req_language q1)
                (req_question q1) u1 s)
      as (head & _ & [(Hm & _ & _)
                     |(m & txt & fin & _ & _ & _ & Hmiss & Hrun)]).
    { rewrite Hm in Hsucc. by destruct Hsucc. }
    rewrite Hrun, on_success_run, Hh1. unfold value, final; cbn [fst snd].
    change (PyStr.format (Some (req_image_hash q1))) with (req_image_hash q1).
    cbn [PyStr.truthy_opt]. rewrite Ht1. simpl.
    apply cache_after_get_new.
    rewrite Hh1 in Hmiss. unfold cache_hit in Hmiss.
    change (PyStr.format (Some (req_image_hash q1)))
      with (req_image_hash q1) in Hmiss.
    cbn [PyStr.truthy_opt] in Hmiss. by rewrite Ht1 in Hmiss. }
  set (s2 := final r1) in *. clearbody s2. subst r2.
  destruct (after_admission_cooldown e2 u2 s2) as (_ & _ & Hcache).
  assert (Hna : ∀ m, Attempting m ∉ calls (admission e2 u2 s2)).
  { intros m Hin. pose proof (admission_quiet e2 u2 s2) as Hq.
    rewrite admission_run in Hin. simpl in Hin. unfold calls in Hin.
    destruct (truthy_user u2 && _); simpl in Hin;
      destruct (truthy_user u2); simpl in Hin;
      repeat (apply elem_of_cons in Hin as [Hin|Hin]; [discriminate Hin|]);
      by apply elem_of_nil in Hin. }
  unfold process_request. rewrite process_run, Hh2. unfold cache_hit.
  change (PyStr.format (Some (req_image_hash q2))) with (req_image_hash q2).
  cbn [PyStr.truthy_opt]. rewrite Ht2, Hcache.
  fold (request_key q2). rewrite Hkey, Hstored.
  destruct (admission e2 u2 s2) as [[rej s'] l1].
  unfold value in Hadm; cbn [fst] in Hadm. subst rej.
  unfold value, calls in *; cbn [fst snd] in *.
  split; [done|]. split; [done|].
  intros m Hin. apply elem_of_app in Hin as [Hin|Hin]; [by apply (Hna m)|].
  repeat (apply elem_of_cons in Hin as [Hin|Hin]; [discriminate Hin|]).
  by apply elem_of_nil in Hin.
Qed.

Lemma cache_serves_by_key_witness :
  let t := seconds 63000000000 in
  let h := "d41d8cd98f00b204e9800998ecf8427e" in
  let q1 := Request h "caption" (Some "Describe the dog:neutral:medium:en")
                    "neutral" "medium" "en" (Some "briefly") in
  let q2 := Request h "caption" (Some "Describe the dog")
                    "neutral" "medium" "en"
                    (Some "neutral:medium:en:briefly") in
  let r1 := process_request (example_env t every_model_responds)
              "static/uploads/a.png" q1 (UInt 1) (initial_state 738000) in
  let r2 := process_request
              (example_env (t + seconds 90) every_model_responds)
              "static/uploads/a.png" q2 (UInt 1) (final r1) in
  final_prompt (req_mode q1) (req_custom_prompt q1) (req_tone q1)
               (req_length q1) (req_language q1) (req_question q1)
  ≠ final_prompt (req_mode q2) (req_custom_prompt q2) (req_tone q2)
                 (req_length q2) (req_language q2) (req_question q2)
  ∧ cached (value r2) = true
  ∧ text (value r2) = text (value r1).
Proof.
  intros t h q1 q2 r1 r2. split; [vm_compute; discriminate|].
  destruct (cache_serves_by_key (example_env t every_model_responds)
              (example_env (t + seconds 90) every_model_responds)
              "static/uploads/a.png" "static/uploads/a.png" q1 q2
              (UInt 1) (UInt 1) (initial_state 738000))
    as (Hc & Ht & _).
  - reflexivity.
  - reflexivity.
  - reflexivity.
  - reflexivity.
  - exact (eq_sym (colon_shift_collision h "caption" "Describe the dog"
                      "neutral" "medium" "en" "briefly")).
  - vm_compute. by eexists.
  - vm_compute. reflexivity.
  - by split.
Defined.

(** ** Cooldown gate *)

(** X13: with a global timestamp not before [datetime.min], the wait
    time of a rejection is positive, and a check made that much later on
    the same globals is not rejected for the same reason.
    After a user's own wait the check passes.  After the global wait the
    only rejection left is the user's, and its wait is the time by which
    the user's timestamp is later than the global one. *)
Theorem wait_time_suffices (now : datetime) (u : user_id) (s : state) :
  let c := value (check_gemini_cooldown now u s) in
  let again := value (check_gemini_cooldown (now + c.1.2) u s) in
  datetime_min ≤ gemini_last_call_time s →
  c.1.1 = false →
  0 < c.1.2
  ∧ (c.2 = PleaseWait c.1.2 → again = (true, 0, OK))
  ∧ (c.2 = GlobalCooldownActive c.1.2 →
     again = (true, 0, OK)
     ∨ ∃ t_user,
         gemini_user_cooldowns s !! u = Some t_user
         ∧ gemini_last_call_time s < t_user
         ∧ again = (false, t_user - gemini_last_call_time s,
                    PleaseWait (t_user - gemini_last_call_time s))).
Proof.
  unfold check_gemini_cooldown. run. intros Hmin.
  destruct (Z.ltb_spec (now - gemini_last_call_time s)
                       (seconds FREE_TIER_COOLDOWN)) as [Hg|Hg]; simpl.
  - intros _. split; [lia|]. split; [done|]. intros _.
    destruct (Z.ltb_spec
                (now + (seconds FREE_TIER_COOLDOWN
                        - (now - gemini_last_call_time s))
                 - gemini_last_call_time s)
                (seconds FREE_TIER_COOLDOWN)) as [Hg2|_]; [lia|]. simpl.
    destruct (truthy_user u); simpl; [|by left].
    destruct (gemini_user_cooldowns s !! u) as [t_user|] eqn:Hlook; simpl.
    + destruct (Z.ltb_spec
                  (now + (seconds FREE_TIER_COOLDOWN
                          - (now - gemini_last_call_time s)) - t_user)
                  (seconds FREE_TIER_COOLDOWN)) as [Hu|Hu]; simpl;
        [|by left].
      right. exists t_user. split; [done|]. split; [lia|].
      replace (seconds FREE_TIER_COOLDOWN
               - (now + (seconds FREE_TIER_COOLDOWN
                         - (now - gemini_last_call_time s)) - t_user))
        with (t_user - gemini_last_call_time s) by lia.
      done.
    + destruct (Z.ltb_spec
                  (now + (seconds FREE_TIER_COOLDOWN
                          - (now - gemini_last_call_time s)) - datetime_min)
                  (seconds FREE_TIER_COOLDOWN)) as [Hu|Hu]; simpl;
        [|by left].
      unfold datetime_min in *. lia.
  - destruct (truthy_user u) eqn:Htr; simpl; [|done].
    set (t := default datetime_min (gemini_user_cooldowns s !! u)).
    destruct (Z.ltb_spec (now - t) (seconds FREE_TIER_COOLDOWN)) as [Hu|Hu];
      simpl; [|done].
    intros _. split; [lia|]. split; [|done]. intros _.
    destruct (Z.ltb_spec
                (now + (seconds FREE_TIER_COOLDOWN - (now - t))
                 - gemini_last_call_time s)
                (seconds FREE_TIER_COOLDOWN)) as [Hg2|_]; [lia|]. simpl.
    destruct (Z.ltb_spec
                (now + (seconds FREE_TIER_COOLDOWN - (now - t)) - t)
                (seconds FREE_TIER_COOLDOWN)) as [Hu2|_]; [lia|done].
Qed.

Lemma wait_time_suffices_witness :
  let s := final (update_gemini_call_time (seconds 1000) (seconds 1000 + 7)
                    (UInt 1) (initial_state 738000)) in
  let c := value (check_gemini_cooldown (seconds 1020) (UInt 1) s) in
  c = (false, seconds 40, GlobalCooldownActive (seconds 40))
  ∧ value (check_gemini_cooldown (seconds 1020 + c.1.2) (UInt 1) s)
    = (false, 7, PleaseWait 7).
Proof.
  intros s c. split; [reflexivity|].
  destruct (wait_time_suffices (seconds 1020) (UInt 1) s)
    as (_ & _ & Hglobal); [discriminate|reflexivity|].
  destruct Hglobal as [Hok|(t_user & _ & _ & Hagain)]; [reflexivity| |].
  - vm_compute in Hok. discriminate Hok.
  - reflexivity.
Defined.

(** ** Response cache *)

Lemma dict_set_length_old {V} k (v : V) d :
  is_Some (Dict.get k d) → length (Dict.set k v d) = length d.
Proof.
  induction d as [|[k' v'] d IH]; simpl; [by intros [? ?]|].
  destruct (decide (k' = k)); simpl; [done|]. intros H. by rewrite IH.
Qed.

Lemma dict_get_set_ne {V} k k' (v : V) d :
  k' ≠ k → Dict.get k' (Dict.set k v d) = Dict.get k' d.
Proof.
  intros Hne. induction d as [|[k0 v0] d IH]; simpl.
  - by rewrite decide_False.
  - destruct (decide (k0 = k)) as [->|Hk]; simpl.
    + by rewrite !decide_False.
    + by rewrite IH.
Qed.

(** X14: a result stored in a cache of at most 1000 entries is found by
    the next lookup with the same seven arguments, whether or not storing
    it evicted older entries; the lookup changes no global, and the cache
    still holds at most 1000 entries.  While the cache stays below 1000
    entries, storing under one key leaves the lookups of every other key
    as they were. *)
Theorem stored_result_is_found (q : request) (r : result) (s : state) :
  (length (gemini_request_cache s) ≤ 1000)%nat →
  let s' := final (store_request q r s) in
  lookup_request q s' = (Some r, s', [Called_get_cached_result (request_key q)])
  ∧ (length (gemini_request_cache s') ≤ 1000)%nat
  ∧ (∀ q', request_key q' ≠ request_key q →
           (length (gemini_request_cache s) < 1000)%nat →
           value (lookup_request q' s') = value (lookup_request q' s)).
Proof.
  intros Hlen s'. subst s'. unfold store_request, lookup_request.
  rewrite cache_result_run. unfold final, value; cbn [fst snd].
  unfold get_cached_result. run. fold (request_key q).
  split; [|split].
  - f_equal. f_equal.
    destruct (Dict.get (request_key q) (gemini_request_cache s)) as [r0|]
      eqn:Hget.
    + rewrite cache_after_drop. cbn zeta.
      rewrite dict_set_length_old by by rewrite Hget.
      destruct (Nat.ltb_spec 1000 (length (gemini_request_cache s)));
        [lia|]. apply dict_get_set.
    + by apply cache_after_get_new.
  - by apply cache_after_bound.
  - intros q' Hne Hlt. fold (request_key q').
    rewrite cache_after_drop. cbn zeta.
    pose proof (dict_set_length (request_key q) r (gemini_request_cache s)).
    destruct (Nat.ltb_spec 1000
                (length (Dict.set (request_key q) r (gemini_request_cache s))));
      [lia|].
    by apply dict_get_set_ne.
Qed.

Lemma stored_result_is_found_witness :
  let q := Request "d41d8cd98f00b204e9800998ecf8427e" "caption" None
                   "neutral" "medium" "en" None in
  let r := Result (ModelText "A quiet harbour at dusk.") Low (seconds 1)
                  false 0 (Some "gemini-2.0-flash") (Some false) in
  let s := cache_each (numbered_entries 1000) (initial_state 738000) in
  value (lookup_request q (final (store_request q r s))) = Some r.
Proof.
  intros q r s.
  destruct (stored_result_is_found q r s) as (Hfound & _).
  - apply (bool_decide_unpack _). vm_compute. exact I.
  - by rewrite Hfound.
Defined.

(** ** Content fingerprinter *)

(** X15: for a readable file the fingerprint is the MD5 hex digest of the
    whole content, whatever its length and however the 8192-byte reads cut
    it; computing it changes no global, and two paths with the same
    content have the same fingerprint. *)
Theorem image_hash_is_digest_of_content (e : env) (image_path : string)
    (f : list Byte.byte) (s : state) :
  open_rb e image_path = inr f →
  calculate_image_hash (md5_hexdigest e) (open_rb e) image_path s
  = (Some (md5_hexdigest e f), s, [Called_calculate_image_hash])
  ∧ (∀ other_path, open_rb e other_path = inr f →
                   image_hash_of e other_path = image_hash_of e image_path).
Proof.
  intros Hf. split.
  - unfold calculate_image_hash. rewrite (hash_file_readable _ _ _ f Hf).
    reflexivity.
  - intros other Ho. unfold image_hash_of.
    by rewrite (hash_file_readable _ _ _ f Hf),
               (hash_file_readable _ _ _ f Ho).
Qed.

Lemma image_hash_is_digest_witness :
  let e := example_env (seconds 63000000000) every_model_responds in
  value (calculate_image_hash (md5_hexdigest e) (open_rb e)
           "static/uploads/a.png" (initial_state 738000))
  = Some "d41d8cd98f00b204e9800998ecf8427e".
Proof.
  intros e.
  destruct (image_hash_is_digest_of_content e "static/uploads/a.png" []
              (initial_state 738000) eq_refl) as [Hrun _].
  by rewrite Hrun.
Defined.

(** ** Worked instances of the further properties *)

Lemma over_quota_call_is_refused_witness :
  let e := example_env (seconds 63000000000) every_model_responds in
  let s := increment_times 15 (UInt 1) (initial_state 738000) in
  process_image_with_gemini e "static/uploads/a.png" "caption" None
    "neutral" "medium" "en" None (UInt 1) s
  = (Result (DailyQuotaExceeded 15 15) Low 0 false (seconds 3600) None
            (Some true),
     after_rollover 738000 s, [Called_check_daily_quota (UInt 1)]).
Proof.
  intros e s.
  apply (over_quota_call_is_refused e "static/uploads/a.png" "caption" None
           "neutral" "medium" "en" None (UInt 1) s).
  - reflexivity.
  - vm_compute. discriminate.
Defined.

Lemma cooling_call_is_refused_witness :
  let t := seconds 63000000000 in
  let call now :=
    process_image_with_gemini (example_env now every_model_responds)
      "static/uploads/a.png" "caption" None "neutral" "medium" "en" None
      (UInt 1) in
  let r1 := call t (initial_state 738000) in
  let r2 := call (t + seconds 30) (final r1) in
  value r2 = Result (Cooldown (GlobalCooldownActive (seconds 32))) Low 0
                    false (seconds 32) None None
  ∧ calls r2 = [Called_check_daily_quota (UInt 1);
                Called_check_gemini_cooldown (UInt 1)].
Proof.
  intros t call r1 r2.
  destruct (cooling_call_is_refused
              (example_env (t + seconds 30) every_model_responds)
              "static/uploads/a.png" "caption" None "neutral" "medium" "en"
              None (UInt 1) (final r1))
    as [Hrun _].
  - intros _. vm_compute. reflexivity.
  - vm_compute. reflexivity.
  - subst r2 call. cbv beta. rewrite Hrun. split; vm_compute; reflexivity.
Defined.

Lemma call_keeps_cache_bounded_witness :
  let e := example_env (seconds 63000000000) every_model_responds in
  let r := process_image_with_gemini e "static/uploads/a.png" "caption" None
             "neutral" "medium" "en" None (UInt 1) (initial_state 738000) in
  (length (gemini_request_cache (final r)) ≤ 1000)%nat.
Proof.
  intros e r.
  apply (call_keeps_cache_bounded e "static/uploads/a.png" "caption" None
           "neutral" "medium" "en" None (UInt 1) (initial_state 738000)).
  simpl. lia.
Defined.

Lemma first_response_wins_witness :
  let e := example_env (seconds 63000000000) first_model_breaks in
  let r := process_image_with_gemini e "static/uploads/a.png" "caption" None
             "neutral" "medium" "en" None (UInt 1) (initial_state 738000) in
  model_used (value r) = Some "gemini-flash-latest"
  ∧ Attempting "gemini-1.5-flash-latest" ∉ calls r.
Proof.
  intros e r.
  destruct (first_response_wins e "static/uploads/a.png" "caption" None
              "neutral" "medium" "en" None (UInt 1) (initial_state 738000)
              ["gemini-2.0-flash"] "gemini-flash-latest"
              ["gemini-1.5-flash-latest"] "A quiet harbour at dusk."
              (seconds 63000000003))
    as (Hv & Hpost & _).
  - reflexivity.
  - reflexivity.
  - reflexivity.
  - vm_compute. repeat constructor.
  - split.
    + subst r. by rewrite Hv.
    + apply Hpost. by left.
Defined.

Lemma empty_response_is_a_failure_witness :
  let e := example_env (seconds 63000000000) first_model_silent in
  let r := process_image_with_gemini e "static/uploads/a.png" "caption" None
             "neutral" "medium" "en" None (UInt 1) (initial_state 738000) in
  (Attempting "gemini-flash-latest" ∈ calls r)
  ∧ value r = Result (ErrorText "Empty response from model") Low 0 false
                     (seconds 300) None (Some false)
  ∧ gemini_last_call_time (final r) = datetime_min.
Proof.
  intros e r.
  destruct (empty_response_is_a_failure e "static/uploads/a.png" "caption"
              None "neutral" "medium" "en" None (UInt 1)
              (initial_state 738000) [] "gemini-2.0-flash"
              ["gemini-flash-latest"; "gemini-1.5-flash-latest"] ""
              (seconds 63000000001))
    as [Hnext Hrest].
  - reflexivity.
  - reflexivity.
  - reflexivity.
  - vm_compute. repeat constructor.
  - split; [by eapply Hnext|].
    destruct Hrest as (Hv & Hf & _).
    + intros m' Hm'.
      apply elem_of_cons in Hm' as [->|Hm'];
        [|apply list_elem_of_singleton in Hm' as ->];
        eexists; (split; [reflexivity|split; reflexivity]).
    + split; [exact Hv|]. subst r. by rewrite Hf.
Defined.

Lemma setup_failures_witness :
  let e := example_env (seconds 63000000000) image_not_identified in
  let r := process_image_with_gemini e "static/uploads/a.png" "caption" None
             "neutral" "medium" "en" None (UInt 1) (initial_state 738000) in
  value r = Result (ErrorText
                      "cannot identify image file 'static/uploads/a.png'")
                   Low 0 false (seconds 300) None (Some false)
  ∧ Attempting "gemini-1.5-flash-latest" ∈ calls r.
Proof.
  intros e r.
  destruct (setup_failures_make_no_remote_call e "static/uploads/a.png"
              "caption" None "neutral" "medium" "en" None (UInt 1)
              (initial_state 738000) "gemini-2.0-flash"
              "gemini-1.5-flash-latest"
              "cannot identify image file 'static/uploads/a.png'")
    as (Hv & _ & _ & Hall & _).
  - intros m _. by eexists.
  - reflexivity.
  - reflexivity.
  - vm_compute. repeat constructor.
  - split; [exact Hv|]. apply Hall. vm_compute. repeat constructor.
Defined.

(** * Status and management *)

Lemma sum_values_insert u n d :
  sum_values (<[u := n]> d) = sum_values d - default 0 (d !! u) + n.
Proof.
  unfold sum_values.
  assert (Hnew : ∀ d' x, d' !! u = None →
            map_fold (λ (_ : user_id) v total, total + v) 0 (<[u := x]> d')
            = map_fold (λ (_ : user_id) v total, total + v) 0 d' + x).
  { intros d' x Hd'. rewrite map_fold_insert_L; [done| |done].
    intros; lia. }
  destruct (d !! u) as [c|] eqn:Hu; cbn [default from_option id].
  - rewrite <- (insert_delete_id d u c Hu) at 2.
    rewrite <- (insert_delete_eq d u n).
    rewrite !Hnew by apply lookup_delete_eq. lia.
  - rewrite Hnew by done. lia.
Qed.

(** X16: the status reads the globals and changes none.  Its
    ['cooldown_active'] flag is the global test of the cooldown gate: when
    it is set, a check at the same time rejects every caller with the
    global message and a wait of the cooldown less the reported time since
    the last call; when it is clear, no caller meets the global rejection
    and a caller without a user id passes. *)
Theorem status_flag_is_the_global_gate (now : datetime) (u : user_id)
    (s : state) :
  let st := value (get_gemini_status now s) in
  let c := value (check_gemini_cooldown now u s) in
  let wait := seconds (cooldown_seconds st) - seconds_since_last_call st in
  final (get_gemini_status now s) = s
  ∧ calls (get_gemini_status now s) = []
  ∧ (if cooldown_active st
     then c = (false, wait, GlobalCooldownActive wait)
     else c.2 ≠ GlobalCooldownActive c.1.2
          ∧ (truthy_user u = false → c = (true, 0, OK))).
Proof.
  unfold get_gemini_status, check_gemini_cooldown. run.
  split; [done|]. split; [done|].
  destruct (now - gemini_last_call_time s <? seconds FREE_TIER_COOLDOWN);
    simpl; [done|].
  destruct (truthy_user u); simpl; [|done].
  by destruct (_ <? _).
Qed.

Section status_facts.
Variable e : env.
Variables (image_path mode : string) (custom_prompt : option string).
Variables (tone length_ language : string) (question : option string).
Variable u : user_id.

Local Abbreviation process :=
  (process_image_with_gemini e image_path mode custom_prompt tone length_
                             language question u).

(** X17: ['total_daily_calls'] counts the fresh successes of users: a
    call adds one to the total left by its admission checks exactly when
    it is made for a user and returns the response of a model; rejections,
    cache hits, failures and calls without a user id add nothing. *)
Theorem total_daily_calls_counts_successes (now now' : datetime)
    (s : state) :
  let r := process s in
  total_daily_calls (value (get_gemini_status now' (final r)))
  = total_daily_calls
      (value (get_gemini_status now (after_admission e u s)))
    + (if truthy_user u && bool_decide (is_Some (model_used (value r)))
       then 1 else 0).
Proof.
  intros r. subst r. unfold get_gemini_status. run.
  destruct (process_cases e image_path mode custom_prompt tone length_
              language question u s)
    as (head & _ & [(Hm & Hf & _)|(m & txt & fin & _ & _ & _ & _ & Hrun)]).
  - unfold value, final in *. rewrite Hm, Hf.
    rewrite bool_decide_false by (by intros [? ?]).
    rewrite andb_false_r. lia.
  - rewrite Hrun, on_success_run. cbn [fst snd model_used].
    rewrite bool_decide_true by by eexists.
    unfold state_after_success. cbn [gemini_daily_counts].
    destruct (truthy_user u); cbn [andb]; [|lia].
    rewrite sum_values_insert. lia.
Qed.
End status_facts.

(** X18: [reset_cooldown] opens the cooldown gate and nothing else.  For
    an authenticated admin, every later check at a time at least the
    cooldown after [datetime.min] passes, for every caller and whatever
    the timestamps were, while the quota check answers as before: a user
    at the daily limit stays refused.  For anyone else [admin_required]
    aborts with 403 before the view runs and the globals are untouched. *)
Theorem reset_cooldown_opens_the_gate_only
    (is_authenticated is_admin : bool) (now : datetime) (today : date)
    (u : user_id) (s : state) :
  seconds FREE_TIER_COOLDOWN ≤ now - datetime_min →
  let r := reset_cooldown is_authenticated is_admin s in
  if is_authenticated && is_admin then
    value r = inr (if datetime_min <? gemini_last_call_time s
                   then Some (gemini_last_call_time s) else None)
    ∧ value (check_gemini_cooldown now u (final r)) = (true, 0, OK)
    ∧ value (check_daily_quota today u (final r))
      = value (check_daily_quota today u s)
    ∧ gemini_request_cache (final r) = gemini_request_cache s
  else r = (inl (Aborted 403), s, []).
Proof.
  intros Hnow r. subst r. unfold reset_cooldown, admin_required.
  destruct is_authenticated, is_admin; cbn [andb negb orb]; try done.
  run. split; [done|]. split; [|split; [|done]].
  - unfold check_gemini_cooldown. run.
    destruct (Z.ltb_spec (now - datetime_min) (seconds FREE_TIER_COOLDOWN));
      [lia|]. simpl.
    destruct (truthy_user u); [|done]. rewrite lookup_empty. simpl.
    destruct (Z.ltb_spec (now - datetime_min) (seconds FREE_TIER_COOLDOWN));
      [lia|done].
  - rewrite !check_daily_quota_run. unfold value, after_rollover; simpl.
    by destruct (decide _).
Qed.

(** The answer of the cooldown check, from the two timestamps it reads. *)
Lemma check_gemini_cooldown_value now u s :
  value (check_gemini_cooldown now u s) =
    let since_global := now - gemini_last_call_time s in
    let since_user :=
      now - default datetime_min (gemini_user_cooldowns s !! u) in
    if since_global <? seconds FREE_TIER_COOLDOWN then
      (false, seconds FREE_TIER_COOLDOWN - since_global,
       GlobalCooldownActive (seconds FREE_TIER_COOLDOWN - since_global))
    else if truthy_user u && (since_user <? seconds FREE_TIER_COOLDOWN) then
      (false, seconds FREE_TIER_COOLDOWN - since_user,
       PleaseWait (seconds FREE_TIER_COOLDOWN - since_user))
    else (true, 0, OK).
Proof.
  unfold check_gemini_cooldown. run.
  destruct (_ <? _); [done|].
  destruct (truthy_user u); [|done]. by destruct (_ <? _).
Qed.

Lemma foldl_delete_lookup (l : list user_id) : ∀ (d : gmap user_id datetime) u,
  foldl (λ d user_id, delete user_id d) d l !! u
  = if decide (u ∈ l) then None else d !! u.
Proof.
  induction l as [|x l IH]; intros d u; cbn [foldl].
  - rewrite decide_False; [done|]. apply not_elem_of_nil.
  - rewrite IH. destruct (decide (u ∈ l)) as [Hin|Hnin].
    + rewrite decide_True; [done|]. by right.
    + destruct (decide (u = x)) as [->|Hne].
      * rewrite decide_True by by left. apply lookup_delete_eq.
      * rewrite decide_False.
        -- by apply lookup_delete_ne.
        -- rewrite elem_of_cons. by intros [?|?].
Qed.

(** The timestamps left by [cleanup_gemini_cache]: those not older than an
    hour. *)
Lemma cleanup_gemini_cache_cooldowns now s u :
  gemini_user_cooldowns (final (cleanup_gemini_cache now s)) !! u
  = match gemini_user_cooldowns s !! u with
    | Some t => if decide (seconds 3600 < now - t) then None else Some t
    | None => None
    end.
Proof.
  unfold cleanup_gemini_cache. run. rewrite foldl_delete_lookup.
  destruct (gemini_user_cooldowns s !! u) as [t|] eqn:Hu.
  - destruct (decide (seconds 3600 < now - t)) as [Hold|Hnew].
    + rewrite decide_True; [done|].
      apply (list_elem_of_fmap_2 fst _ (u, t)).
      apply list_elem_of_filter. split; [done|].
      by apply elem_of_map_to_list.
    + rewrite decide_False; [done|].
      intros Hin. apply list_elem_of_fmap in Hin as ([u' t'] & Heq & Hin).
      apply list_elem_of_filter in Hin as [Hold Hin].
      apply elem_of_map_to_list in Hin. cbn [fst snd] in *. subst u'.
      pose proof (eq_trans (eq_sym Hu) Hin) as Heq'.
      inversion Heq'; subst. done.
  - destruct (decide _) as [Hin|]; [|done]. done.
Qed.

(** X19: [cleanup_gemini_cache] removes the timestamps of the users whose
    last call is more than an hour old and keeps the others; the global
    timestamp, the counts and the reset date are untouched.  No later
    cooldown check, at a time at least the cooldown after [datetime.min],
    is answered differently for it. *)
Theorem cleanup_keeps_the_answers_of_the_gate (now now' : datetime)
    (u : user_id) (s : state) :
  now ≤ now' →
  seconds FREE_TIER_COOLDOWN ≤ now' - datetime_min →
  let s' := final (cleanup_gemini_cache now s) in
  (∀ u' t, gemini_user_cooldowns s' !! u' = Some t
           ↔ gemini_user_cooldowns s !! u' = Some t
             ∧ now - t ≤ seconds 3600)
  ∧ value (check_gemini_cooldown now' u s')
    = value (check_gemini_cooldown now' u s)
  ∧ gemini_last_call_time s' = gemini_last_call_time s
  ∧ gemini_daily_counts s' = gemini_daily_counts s
  ∧ gemini_daily_reset_date s' = gemini_daily_reset_date s.
Proof.
  intros Hle Hnow s'. split; [|split; [|done]].
  - intros u' t. subst s'. rewrite cleanup_gemini_cache_cooldowns.
    destruct (gemini_user_cooldowns s !! u') as [t'|];
      [|split; [done|by intros [? _]]].
    destruct (decide (seconds 3600 < now - t')); split;
      try (intros [= ->]; split; [done|lia]); try done.
    + intros [[= ->] ?]. lia.
    + by intros [-> _].
  - rewrite !check_gemini_cooldown_value. cbn zeta.
    assert (Hl : gemini_last_call_time s' = gemini_last_call_time s) by done.
    rewrite Hl. subst s'. rewrite cleanup_gemini_cache_cooldowns.
    destruct (_ <? _); [done|].
    destruct (truthy_user u); [|done]. cbn [andb].
    destruct (gemini_user_cooldowns s !! u) as [t|]; [|done].
    destruct (decide (seconds 3600 < now - t)) as [Hold|]; [|done].
    cbn [default from_option id].
    destruct (Z.ltb_spec (now' - datetime_min) (seconds FREE_TIER_COOLDOWN));
      [lia|].
    destruct (Z.ltb_spec (now' - t) (seconds FREE_TIER_COOLDOWN));
      [|done].
    unfold seconds, FREE_TIER_COOLDOWN in *. lia.
Qed.

Lemma process_cache_bound e image_path mode custom_prompt tone length_
    language question u s :
  (length (gemini_request_cache s) ≤ 1000)%nat →
  (length (gemini_request_cache
             (final (process_image_with_gemini e image_path mode
                       custom_prompt tone length_ language question u s)))
   ≤ 1000)%nat.
Proof.
  intros Hs.
  destruct (after_admission_cooldown e u s) as (_ & _ & Hcache).
  destruct (process_cases e image_path mode custom_prompt tone length_
              language question u s)
    as (head & _ & [(_ & -> & _)|(m & txt & fin & _ & _ & _ & _ & ->)]).
  { by rewrite Hcache. }
  rewrite on_success_run. unfold final, state_after_success; cbn [fst snd].
  cbn [gemini_request_cache]. rewrite Hcache.
  destruct (PyStr.truthy_opt _); [|done]. by apply cache_after_bound.
Qed.

(** X20: the cache clearing of [cleanup_gemini_cache] does not fire on a
    cache kept by the gatekeeper: after any call made on a cache of at
    most 1000 entries, and after any result stored in one, the cleanup
    leaves the cache as it is.  On a cache of more than 1000 entries it
    drops every entry, where [cache_result] drops the oldest hundred. *)
Theorem cleanup_spares_the_cache_of_the_gatekeeper
    (e : env) (image_path : string) (q : request) (r : result)
    (u : user_id) (now : datetime) (s : state) :
  (length (gemini_request_cache s) ≤ 1000)%nat →
  let after_call := final (process_request e image_path q u s) in
  let after_store := final (store_request q r s) in
  gemini_request_cache (final (cleanup_gemini_cache now after_call))
  = gemini_request_cache after_call
  ∧ gemini_request_cache (final (cleanup_gemini_cache now after_store))
    = gemini_request_cache after_store
  ∧ (∀ s0, (1000 < length (gemini_request_cache s0))%nat →
           gemini_request_cache (final (cleanup_gemini_cache now s0)) = []).
Proof.
  intros Hs after_call after_store.
  assert (Hkeep : ∀ s0, (length (gemini_request_cache s0) ≤ 1000)%nat →
            gemini_request_cache (final (cleanup_gemini_cache now s0))
            = gemini_request_cache s0).
  { intros s0 H0. unfold cleanup_gemini_cache. run.
    destruct (Nat.ltb_spec 1000 (length (gemini_request_cache s0)));
      [lia|done]. }
  split; [|split].
  - apply Hkeep. by apply process_cache_bound.
  - apply Hkeep. subst after_store. unfold store_request.
    rewrite cache_result_run. unfold final; cbn [fst snd gemini_request_cache].
    by apply cache_after_bound.
  - intros s0 H0. unfold cleanup_gemini_cache. run.
    destruct (Nat.ltb_spec 1000 (length (gemini_request_cache s0)));
      [done|lia].
Qed.

Lemma user_quota_run today now u s :
  user_quota today now u s =
    let s1 := after_rollover today s in
    let used := default 0 (gemini_daily_counts s1 !! u) in
    let c := value (check_gemini_cooldown now u s1) in
    (Quota_status u used FREE_TIER_DAILY_LIMIT
                  (negb (FREE_TIER_DAILY_LIMIT <=? used)) c.1.1 c.1.2 c.2
                  FREE_TIER_COOLDOWN,
     s1, [Called_check_daily_quota u; Called_check_gemini_cooldown u]).
Proof.
  unfold user_quota, mbind, M_bind, bind. rewrite check_daily_quota_run.
  cbv beta zeta iota. set (s1 := after_rollover today s).
  pose proof (check_gemini_cooldown_state now u s1) as Hs.
  pose proof (check_gemini_cooldown_calls now u s1) as Hc.
  destruct (check_gemini_cooldown now u s1) as [[[[can w] msg] s'] l].
  unfold final, calls, value, mret, M_ret, ret in *; cbn [fst snd] in *.
  by subst.
Qed.

(** X21: for a user id that counts as a user, the view [user_quota] tells
    what the admission checks of a call made at the same date and time
    will do: the call is let through exactly when the view reports both
    quota and no cooldown, and the quota rejection carries the view's
    ['daily_used'].  The view leaves the globals as the admission checks
    do: it performs the day rollover. *)
Theorem user_quota_predicts_admission (e : env) (u : user_id) (s : state) :
  truthy_user u = true →
  let v := user_quota (today e) (now_at_check e) u s in
  let a := admission e u s in
  final v = final a
  ∧ (value a = None ↔ has_quota (value v) = true ∧ can_call (value v) = true)
  ∧ (has_quota (value v) = false →
     value a = Some (Result (DailyQuotaExceeded (daily_used (value v))
                               (quota_daily_limit (value v)))
                            Low 0 false (seconds 3600) None (Some true)))
  ∧ (has_quota (value v) = true → can_call (value v) = false →
     value a = Some (Result (Cooldown (quota_message (value v))) Low 0 false
                            (wait_time (value v)) None None)).
Proof.
  intros Hu v a. subst v a. rewrite admission_run, user_quota_run. cbn zeta.
  unfold after_admission. rewrite Hu. cbn [andb].
  set (s1 := after_rollover (today e) s).
  set (used := default 0 (gemini_daily_counts s1 !! u)).
  destruct (value (check_gemini_cooldown (now_at_check e) u s1))
    as [[can w] msg].
  unfold final, value; cbn [fst snd has_quota can_call daily_used
    quota_daily_limit quota_message wait_time].
  destruct (FREE_TIER_DAILY_LIMIT <=? used); cbn [negb fst snd].
  - split; [done|]. split; [split; [done|by intros [? _]]|]. by split.
  - split; [done|]. destruct can; cbn [fst snd].
    + split; [by split|]. by split.
    + split; [split; [done|by intros [_ ?]]|]. by split.
Qed.
Lemma reset_cooldown_witness :
  let t := seconds 63000000000 in
  let s := final (process_image_with_gemini
                    (example_env t every_model_responds)
                    "static/uploads/a.png" "caption" None "neutral" "medium"
                    "en" None (UInt 1) (initial_state 738000)) in
  value (check_gemini_cooldown (t + seconds 30) (UInt 1) s)
  = (false, seconds 32, GlobalCooldownActive (seconds 32))
  ∧ value (check_gemini_cooldown (t + seconds 30) (UInt 1)
             (final (reset_cooldown true true s)))
    = (true, 0, OK).
Proof.
  intros t s. split; [vm_compute; reflexivity|].
  pose proof (reset_cooldown_opens_the_gate_only true true (t + seconds 30)
                738000 (UInt 1) s) as H.
  cbn [andb] in H. destruct H as (_ & Hc & _); [vm_compute; discriminate|].
  exact Hc.
Defined.

Lemma cleanup_keeps_the_answers_witness :
  let s := final (update_gemini_call_time (seconds 1000) (seconds 1000 + 7)
                    (UInt 1) (initial_state 738000)) in
  let s' := final (cleanup_gemini_cache (seconds 5000) s) in
  gemini_user_cooldowns s !! UInt 1 = Some (seconds 1000 + 7)
  ∧ gemini_user_cooldowns s' !! UInt 1 = None
  ∧ value (check_gemini_cooldown (seconds 5000) (UInt 1) s')
    = value (check_gemini_cooldown (seconds 5000) (UInt 1) s).
Proof.
  intros s s'. split; [vm_compute; reflexivity|].
  split; [vm_compute; reflexivity|].
  destruct (cleanup_keeps_the_answers_of_the_gate (seconds 5000)
              (seconds 5000) (UInt 1) s) as (_ & Hc & _).
  - lia.
  - vm_compute. discriminate.
  - exact Hc.
Defined.

Lemma cleanup_spares_the_cache_witness :
  let q := Request "d41d8cd98f00b204e9800998ecf8427e" "caption" None
                   "neutral" "medium" "en" None in
  let r := Result (ModelText "A quiet harbour at dusk.") Low (seconds 1)
                  false 0 (Some "gemini-2.0-flash") (Some false) in
  let s := cache_each (numbered_entries 1000) (initial_state 738000) in
  let after_store := final (store_request q r s) in
  gemini_request_cache (final (cleanup_gemini_cache (seconds 5000)
                                 after_store))
  = gemini_request_cache after_store.
Proof.
  intros q r s after_store.
  destruct (cleanup_spares_the_cache_of_the_gatekeeper
              (example_env (seconds 63000000000) every_model_responds)
              "static/uploads/a.png" q r (UInt 1) (seconds 5000) s)
    as (_ & Hstore & _).
  - apply (bool_decide_unpack _). vm_compute. exact I.
  - exact Hstore.
Defined.

Lemma user_quota_witness :
  let e := example_env (seconds 63000000000) every_model_responds in
  let s := increment_times 15 (UInt 1) (initial_state 738000) in
  has_quota (value (user_quota (today e) (now_at_check e) (UInt 1) s))
  = false
  ∧ value (admission e (UInt 1) s)
    = Some (Result (DailyQuotaExceeded 15 15) Low 0 false (seconds 3600)
                   None (Some true)).
Proof.
  intros e s. split; [vm_compute; reflexivity|].
  destruct (user_quota_predicts_admission e (UInt 1) s eq_refl)
    as (_ & _ & Hq & _).
  rewrite Hq; [|vm_compute; reflexivity].
  vm_compute. reflexivity.
Defined.

(** * Names of uploaded files *)

Lemma contains_dot_cons c s :
  PyStr.contains "." (String c s)
  = bool_decide (c = "."%char) || PyStr.contains "." s.
Proof.
  cbn [PyStr.contains String.prefix].
  destruct (ascii_dec "." c) as [<-|Hne].
  - rewrite bool_decide_true by done. by destruct s.
  - rewrite bool_decide_false by congruence. done.
Qed.

(** [rsplit_1] cuts at the last dot. *)
Lemma rsplit_1_dot s :
  (PyStr.contains "." s = false ∧ rsplit_1 "." s = [s])
  ∨ (∃ stem ext, s = stem +:+ "." +:+ ext
                 ∧ PyStr.contains "." ext = false
                 ∧ rsplit_1 "." s = [stem; ext]).
Proof.
  induction s as [|c s IH]; [by left|].
  rewrite contains_dot_cons. cbn [rsplit_1].
  destruct IH as [[Hno ->]|(stem & ext & -> & Hext & ->)].
  - destruct (decide (c = "."%char)) as [->|Hne].
    + right. by exists "", s.
    + left. by rewrite bool_decide_false.
  - right. by exists (String c stem), ext.
Qed.

Lemma rsplit_1_append stem ext :
  PyStr.contains "." ext = false →
  rsplit_1 "." (stem +:+ "." +:+ ext) = [stem; ext].
Proof.
  intros Hext. induction stem as [|c stem IH].
  - change ("" +:+ "." +:+ ext) with (String "." ext). cbn [rsplit_1].
    destruct (rsplit_1_dot ext) as [[_ ->]|(stem' & ext' & -> & _ & _)].
    + by rewrite decide_True.
    + exfalso. clear -Hext. induction stem' as [|c' stem' IH'].
      * change ("" +:+ "." +:+ ext') with (String "." ext') in Hext.
        rewrite contains_dot_cons, bool_decide_true in Hext by done. done.
      * change (String c' stem' +:+ "." +:+ ext')
          with (String c' (stem' +:+ "." +:+ ext')) in Hext.
        rewrite contains_dot_cons in Hext.
        apply orb_false_iff in Hext as [_ Hext]. by apply IH'.
    - change (String c stem +:+ "." +:+ ext)
        with (String c (stem +:+ "." +:+ ext)).
      cbn [rsplit_1]. by rewrite IH.
Qed.

Lemma contains_dot_append stem ext :
  PyStr.contains "." (stem +:+ "." +:+ ext) = true.
Proof.
  induction stem as [|c stem IH].
  - change ("" +:+ "." +:+ ext) with (String "." ext).
    by rewrite contains_dot_cons, bool_decide_true.
  - change (String c stem +:+ "." +:+ ext)
      with (String c (stem +:+ "." +:+ ext)).
    rewrite contains_dot_cons, IH. by destruct (bool_decide _).
Qed.

Lemma allowed_file_append stem ext :
  PyStr.contains "." ext = false →
  allowed_file (stem +:+ "." +:+ ext)
  = inr (bool_decide (PyStr.lower ext ∈ ALLOWED_EXTENSIONS)).
Proof.
  intros Hext. unfold allowed_file.
  by rewrite contains_dot_append, rsplit_1_append.
Qed.

Lemma allowed_extension_plain ext :
  ext ∈ ALLOWED_EXTENSIONS →
  PyStr.contains "." ext = false ∧ PyStr.lower ext = ext.
Proof.
  unfold ALLOWED_EXTENSIONS.
  rewrite !elem_of_union, !elem_of_singleton.
  intros [[[->| ->]| ->]| ->]; by vm_compute.
Qed.

(** X22: [allowed_file] never raises: its test for a dot guards the
    index.  A name without a dot is refused, and a name with one is judged
    by the text after its last dot, lower-cased.  Without the guard the
    same index raises: [generate_unique_filename] fails with [IndexError]
    exactly on the names without a dot. *)
Theorem allowed_file_reads_the_last_extension (uuid4_hex filename : string) :
  if PyStr.contains "." filename then
    ∃ stem ext,
      filename = stem +:+ "." +:+ ext
      ∧ PyStr.contains "." ext = false
      ∧ allowed_file filename
        = inr (bool_decide (PyStr.lower ext ∈ ALLOWED_EXTENSIONS))
      ∧ generate_unique_filename uuid4_hex filename
        = inr (uuid4_hex +:+ "." +:+ PyStr.lower ext)
  else
    allowed_file filename = inr false
    ∧ generate_unique_filename uuid4_hex filename = inl IndexError.
Proof.
  unfold allowed_file, generate_unique_filename.
  destruct (rsplit_1_dot filename)
    as [[-> ->]|(stem & ext & Heq & Hext & ->)]; [done|].
  assert (PyStr.contains "." filename = true) as ->.
  { subst filename. apply contains_dot_append. }
  by exists stem, ext.
Qed.

(** X23: a name that [allowed_file] accepts gets a unique name from
    [generate_unique_filename] without an exception; the new name ends in
    one of the allowed extensions, in lower case, and is itself accepted
    by [allowed_file], whatever the [uuid4] text. *)
Theorem allowed_file_gets_an_allowed_name (uuid4_hex filename : string) :
  allowed_file filename = inr true →
  ∃ ext, generate_unique_filename uuid4_hex filename
         = inr (uuid4_hex +:+ "." +:+ ext)
         ∧ ext ∈ ALLOWED_EXTENSIONS
         ∧ allowed_file (uuid4_hex +:+ "." +:+ ext) = inr true.
Proof.
  unfold allowed_file at 1. unfold generate_unique_filename.
  destruct (PyStr.contains "." filename); [|done].
  destruct (rsplit_1 "." filename !! 1%nat) as [ext|]; [|done].
  intros [= Hin%bool_decide_eq_true]. exists (PyStr.lower ext).
  split; [done|]. split; [done|].
  destruct (allowed_extension_plain _ Hin) as [Hdot Hlow].
  rewrite allowed_file_append by done.
  rewrite Hlow. by rewrite bool_decide_true.
Qed.

Lemma allowed_file_gets_an_allowed_name_witness :
  generate_unique_filename "0f8fad5bd9cb469fa16570867728950e"
                           "Holiday.Photo.JPG"
  = inr "0f8fad5bd9cb469fa16570867728950e.jpg"
  ∧ allowed_file "0f8fad5bd9cb469fa16570867728950e.jpg" = inr true.
Proof.
  destruct (allowed_file_gets_an_allowed_name
              "0f8fad5bd9cb469fa16570867728950e" "Holiday.Photo.JPG")
    as (ext & Hg & _ & Ha).
  - vm_compute. reflexivity.
  - vm_compute in Hg. injection Hg as <-. split; [reflexivity|exact Ha].
Defined.

(** * PDF export *)

Lemma append_nil_r (a : string) : a +:+ "" = a.
Proof.
  induction a as [|x a IH]; [done|].
  change (String x (a +:+ "") = String x a). by rewrite IH.
Qed.

Lemma length_append (a b : string) :
  String.length (a +:+ b) = (String.length a + String.length b)%nat.
Proof.
  induction a as [|x a IH]; [done|].
  change (S (String.length (a +:+ b))
          = S (String.length a + String.length b))%nat.
  by rewrite IH.
Qed.

Lemma join_app l1 l2 : join (l1 ++ l2) = join l1 +:+ join l2.
Proof.
  induction l1 as [|a l1 IH]; [done|].
  change (a +:+ join (l1 ++ l2) = (a +:+ join l1) +:+ join l2).
  by rewrite IH, append_assoc.
Qed.

Lemma join_singleton a : join [a] = a.
Proof. apply append_nil_r. Qed.

(** The loop loses nothing: the lines and the open line hold what they
    held, followed by every word with its space. *)
Lemma wrap_loop_join words : ∀ lines line,
  join (wrap_loop lines line words).1 +:+ (wrap_loop lines line words).2
  = join lines +:+ line +:+ join ((λ word, word +:+ " ") <$> words).
Proof.
  induction words as [|word rest IH]; intros lines line.
  - cbn [wrap_loop fst snd fmap list_fmap join foldr].
    by rewrite append_nil_r.
  - cbn [wrap_loop]. destruct (_ <? _)%nat; rewrite IH.
    + change (join ((λ word, word +:+ " ") <$> word :: rest))
        with ((word +:+ " ") +:+ join ((λ word, word +:+ " ") <$> rest)).
      by rewrite !append_assoc.
    + change (join ((λ word, word +:+ " ") <$> word :: rest))
        with ((word +:+ " ") +:+ join ((λ word, word +:+ " ") <$> rest)).
      by rewrite join_app, join_singleton, !append_assoc.
Qed.

(** X24: cutting into lines loses and reorders nothing: the lines, put
    end to end, are the words in order, each followed by one space.  The
    lines written to the page are the first 30 of them at most; their text
    is a prefix of the whole, and the whole when there are no more than 30
    lines. *)
Theorem wrapped_lines_hold_the_words (words : list string) :
  join (wrap_lines words) = join ((λ word, word +:+ " ") <$> words)
  ∧ (length (drawn_lines words) ≤ 30)%nat
  ∧ join (wrap_lines words)
    = join (drawn_lines words) +:+ join (drop 30 (wrap_lines words))
  ∧ ((length (wrap_lines words) ≤ 30)%nat →
     drawn_lines words = wrap_lines words).
Proof.
  split; [|split; [|split]].
  - unfold wrap_lines. pose proof (wrap_loop_join words [] "") as H.
    destruct (wrap_loop [] "" words) as [lines line]. cbn [fst snd] in H.
    change (join [] +:+ "" +:+ ?x) with x in H. rewrite <- H.
    destruct line as [|c line]; cbn [PyStr.truthy].
    + by rewrite append_nil_r.
    + by rewrite join_app, join_singleton.
  - unfold drawn_lines. rewrite length_take. lia.
  - unfold drawn_lines. by rewrite <- join_app, take_drop.
  - intros Hlen. unfold drawn_lines. by apply take_ge.
Qed.

Lemma wrap_loop_fits all words : ∀ lines line,
  words ⊆ all → Forall (fits all) lines → fits all line →
  Forall (fits all) (wrap_loop lines line words).1
  ∧ fits all (wrap_loop lines line words).2.
Proof.
  induction words as [|word rest IH]; intros lines line Hsub Hlines Hline.
  { done. }
  assert (Hword : word ∈ all) by (apply Hsub; by left).
  assert (Hrest : rest ⊆ all) by (intros w Hw; apply Hsub; by right).
  cbn [wrap_loop].
  destruct (Nat.ltb_spec (String.length line + String.length word) 70).
  - apply IH; [done..|]. left.
    rewrite !length_append. cbn [String.length]. lia.
  - apply IH; [done| |].
    + apply Forall_app. split; [done|]. by apply Forall_singleton.
    + destruct (Nat.le_gt_cases 70 (String.length word)).
      * right. by exists word.
      * left. rewrite length_append. cbn [String.length]. lia.
Qed.

(** X25: every line is at most 70 characters long, its closing space
    included, unless it is a single word of 70 characters or more, which
    gets a line of its own and is not cut. *)
Theorem wrapped_line_width (words : list string) (line : string) :
  line ∈ wrap_lines words →
  (String.length line ≤ 70)%nat
  ∨ ∃ word, word ∈ words ∧ line = word +:+ " "
            ∧ (70 ≤ String.length word)%nat.
Proof.
  unfold wrap_lines.
  destruct (wrap_loop_fits words words [] "") as [Hlines Hline];
    [by intros ?|by constructor|left; cbn [String.length]; lia|].
  destruct (wrap_loop [] "" words) as [lines last_line].
  cbn [fst snd] in *. rewrite Forall_forall in Hlines.
  destruct (PyStr.truthy last_line).
  - intros [Hin|Hin%list_elem_of_singleton]%elem_of_app;
      [by apply Hlines|by subst].
  - apply Hlines.
Qed.

Lemma append_space_nonempty a : a +:+ " " ≠ "".
Proof. by destruct a. Qed.

(** Once the open line is not empty, no empty line is added. *)
Lemma wrap_loop_nonempty words : ∀ lines line,
  line ≠ "" →
  (wrap_loop lines line words).2 ≠ ""
  ∧ ∃ more, (wrap_loop lines line words).1 = lines ++ more ∧ "" ∉ more.
Proof.
  induction words as [|word rest IH]; intros lines line Hline.
  { split; [done|]. exists []. split; [by rewrite app_nil_r|].
    apply not_elem_of_nil. }
  cbn [wrap_loop]. destruct (_ <? _)%nat.
  - apply IH. by destruct line.
  - destruct (IH (lines ++ [line]) (word +:+ " "))
      as (Hlast & more & -> & Hmore); [apply append_space_nonempty|].
    split; [done|]. exists (line :: more).
    split; [by rewrite <- app_assoc|].
    rewrite not_elem_of_cons. by split.
Qed.

(** The shape of the lines by the first word. *)
Lemma wrap_lines_shape words :
  match words with
  | [] => wrap_lines words = []
  | word :: _ =>
      if (String.length word <? 70)%nat
      then ("" ∉ wrap_lines words) ∧ (wrap_lines words ≠ [])
      else ∃ more, wrap_lines words = "" :: more ∧ ("" ∉ more) ∧ more ≠ []
  end.
Proof.
  destruct words as [|word rest]; [done|].
  unfold wrap_lines. cbn [wrap_loop String.length Nat.add].
  destruct (String.length word <? 70)%nat.
  - destruct (wrap_loop_nonempty rest [] ("" +:+ word +:+ " "))
      as (Hlast & more & Hlines & Hmore); [apply append_space_nonempty|].
    destruct (wrap_loop [] ("" +:+ word +:+ " ") rest) as [lines line].
    cbn [fst snd] in *. subst lines. cbn [app].
    destruct line as [|c line]; [done|]. cbn [PyStr.truthy]. split.
    + rewrite elem_of_app, list_elem_of_singleton. by intros [?|?].
    + by destruct more.
  - destruct (wrap_loop_nonempty rest ([] ++ [""]) (word +:+ " "))
      as (Hlast & more & Hlines & Hmore); [apply append_space_nonempty|].
    destruct (wrap_loop ([] ++ [""]) (word +:+ " ") rest) as [lines line].
    cbn [fst snd] in *. subst lines.
    destruct line as [|c line]; [done|]. cbn [PyStr.truthy app].
    exists (more ++ [String c line]). split; [done|]. split.
    + rewrite elem_of_app, list_elem_of_singleton. by intros [?|?].
    + by destruct more.
Qed.

(** X26: an empty line is written exactly when the first word is 70
    characters long or more, and then it is the first line; no other line
    is ever empty.  A text with at least one word gives at least one line
    that is not empty, a text without words no line. *)
Theorem wrapped_empty_line (words : list string) :
  ("" ∈ wrap_lines words
   ↔ ∃ word rest, words = word :: rest ∧ (70 ≤ String.length word)%nat)
  ∧ ("" ∈ wrap_lines words → head (wrap_lines words) = Some "")
  ∧ (∀ i, wrap_lines words !! S i ≠ Some "")
  ∧ (words = [] ↔ wrap_lines words = [])
  ∧ (words ≠ [] → ∃ line, line ∈ wrap_lines words ∧ line ≠ "").
Proof.
  pose proof (wrap_lines_shape words) as Hshape.
  destruct words as [|word rest].
  { rewrite Hshape. split; [|split; [|split; [|split]]].
    - split; [by intros ?%elem_of_nil|by intros (? & ? & ? & _)].
    - by intros ?%elem_of_nil.
    - done.
    - done.
    - done. }
  destruct (Nat.ltb_spec (String.length word) 70) as [Hlt|Hge].
  - destruct Hshape as [Hno Hne]. split; [|split; [|split; [|split]]].
    + split; [done|]. intros (w & r & [= <- <-] & Hlen). lia.
    + done.
    + intros i Hi. apply Hno. by eapply list_elem_of_lookup_2.
    + split; [done|]. intros Hnil. by rewrite Hnil in Hne.
    + intros _. destruct (wrap_lines (word :: rest)) as [|line lines] eqn:Hl;
        [done|]. exists line. split; [by left|].
      intros ->. apply Hno. by left.
  - destruct Hshape as (more & -> & Hmore & Hne).
    split; [|split; [|split; [|split]]].
    + split; [by exists word, rest|]. intros _. by left.
    + done.
    + intros i Hi. apply Hmore. by eapply list_elem_of_lookup_2.
    + split; done.
    + intros _. destruct more as [|line more]; [done|].
      exists line. split; [right; by left|].
      intros ->. apply Hmore. by left.
Qed.

Lemma wrapped_line_width_witness :
  (String.length "A quiet harbour at dusk. " ≤ 70)%nat
  ∨ ∃ word, word ∈ ["A"; "quiet"; "harbour"; "at"; "dusk."]
            ∧ "A quiet harbour at dusk. " = word +:+ " "
            ∧ (70 ≤ String.length word)%nat.
Proof.
  apply (wrapped_line_width ["A"; "quiet"; "harbour"; "at"; "dusk."]
           "A quiet harbour at dusk. ").
  vm_compute. by left.
Defined.

(** * The view [process_image] *)

(** The view past its own checks: the call, then the response built from
    its result. *)
Lemma process_image_run w data s image_id file_path :
  user_image w = Some (image_id, file_path) →
  path_exists w file_path = true →
  let v := user_quota (today_at_view w) (now_at_view w) (current_user_id w)
                      s in
  has_quota (value v) = true →
  can_call (value v) = true →
  let inner := view_call w data file_path (final v) in
  process_image w data s =
    (save_and_respond w data image_id (daily_used (value v))
                      (quota_daily_limit (value v)) (value inner),
     final inner, calls v ++ calls inner).
Proof.
  intros Himg Hpath v. subst v. rewrite user_quota_run. cbn zeta.
  unfold value, final, calls;
    cbn [fst snd has_quota can_call daily_used quota_daily_limit].
  intros Hq Hc. unfold process_image. rewrite Himg, Hpath. cbn [negb].
  unfold mbind, M_bind, bind. rewrite check_daily_quota_run. cbn zeta.
  cbv beta iota. rewrite Hq. cbn [negb].
  set (s1 := after_rollover (today_at_view w) s) in *.
  pose proof (check_gemini_cooldown_state (now_at_view w)
                (current_user_id w) s1) as Hs.
  pose proof (check_gemini_cooldown_calls (now_at_view w)
                (current_user_id w) s1) as Hl.
  destruct (check_gemini_cooldown (now_at_view w) (current_user_id w) s1)
    as [[[[can wt] msg] s'] l].
  unfold final, calls in Hs, Hl; cbn [fst snd] in *. subst s' l can.
  cbn [negb].
  destruct (view_call w data file_path s1) as [[r s2] l2].
  unfold mret, M_ret, ret. cbn [fst snd]. by rewrite app_nil_r.
Qed.

(** Past the view's own checks, which are the two checks of [user_quota],
    and with a clock that has not gone back, the admission checks of the
    call pass as well. *)
Lemma view_call_is_let_through
    (w : web) (data : process_json) (image_id : Z) (file_path : string)
    (s : state) :
  user_image w = Some (image_id, file_path) →
  path_exists w file_path = true →
  now_at_view w ≤ now_at_check (call_env w) →
  let u := current_user_id w in
  let v := user_quota (today_at_view w) (now_at_view w) u s in
  has_quota (value v) = true →
  can_call (value v) = true →
  let inner := view_call w data file_path (final v) in
  value (admission (call_env w) u (final v)) = None
  ∧ Called_calculate_image_hash ∈ calls inner
  ∧ process_image w data s =
      (save_and_respond w data image_id (daily_used (value v))
                        (quota_daily_limit (value v)) (value inner),
       final inner, calls v ++ calls inner).
Proof.
  intros Himg Hpath Hclock u v Hq Hc inner.
  assert (Hadm : value (admission (call_env w) u (final v)) = None).
  { subst v. rewrite user_quota_run in *. cbn zeta in *.
    unfold value, final in Hq, Hc |- *;
      cbn [fst snd has_quota can_call] in Hq, Hc |- *.
    set (s1 := after_rollover (today_at_view w) s) in *.
    rewrite admission_run. cbn zeta.
    destruct (after_admission_cooldown (call_env w) u s1) as (Hl & Hu & _).
    assert (Hused : truthy_user u = true →
              default 0 (gemini_daily_counts
                           (after_admission (call_env w) u s1) !! u)
              < FREE_TIER_DAILY_LIMIT).
    { intros Htr. unfold after_admission, after_rollover at 1. rewrite Htr.
      destruct (decide _) as [_|_].
      - apply negb_true_iff in Hq. by apply Z.leb_gt in Hq.
      - cbn [gemini_daily_counts]. by rewrite lookup_empty. }
    assert (Hpass : (check_gemini_cooldown (now_at_check (call_env w)) u
                       (after_admission (call_env w) u s1)).1.1.1.1 = true).
    { pose proof (check_gemini_cooldown_value (now_at_check (call_env w)) u
                    (after_admission (call_env w) u s1)) as Hv.
      pose proof (check_gemini_cooldown_value (now_at_view w) u s1) as Hv1.
      unfold value in Hv, Hv1. rewrite Hv. rewrite Hv1 in Hc. clear Hv Hv1.
      cbn zeta in *. rewrite Hl, Hu.
      destruct (Z.ltb_spec (now_at_view w - gemini_last_call_time s1)
                           (seconds FREE_TIER_COOLDOWN)) as [|Hg];
        [done|].
      destruct (Z.ltb_spec
                  (now_at_check (call_env w) - gemini_last_call_time s1)
                  (seconds FREE_TIER_COOLDOWN)); [lia|].
      destruct (truthy_user u); cbn [andb] in *; [|done].
      destruct (Z.ltb_spec
                  (now_at_view w
                   - default datetime_min (gemini_user_cooldowns s1 !! u))
                  (seconds FREE_TIER_COOLDOWN)); [done|].
      destruct (Z.ltb_spec
                  (now_at_check (call_env w)
                   - default datetime_min (gemini_user_cooldowns s1 !! u))
                  (seconds FREE_TIER_COOLDOWN)); [lia|done]. }
    destruct (truthy_user u) eqn:Htr; cbn [andb].
    - destruct (Z.leb_spec FREE_TIER_DAILY_LIMIT
                  (default 0 (gemini_daily_counts
                                (after_admission (call_env w) u s1) !! u)));
        [specialize (Hused eq_refl); lia|].
      unfold value in *. cbn [fst snd]. by rewrite Hpass.
    - unfold value in *. cbn [fst snd]. by rewrite Hpass. }
  split; [done|]. split.
  - subst inner u. unfold view_call. rewrite process_run. cbn zeta.
    destruct (admission (call_env w) (current_user_id w) (final v))
      as [[rej s'] l1].
    unfold value in Hadm; cbn [fst] in Hadm. subst rej.
    destruct (cache_hit _ _ _).
    + unfold calls; cbn [snd]. apply elem_of_app. right. by left.
    + destruct (provider_adapter _ _ _ _ _ _ _ _ _ _ _) as [[r s2] l2].
      unfold calls; cbn [snd]. apply elem_of_app. right. by left.
  - by apply process_image_run.
Qed.

(** X27: the view makes the call only after its own quota and cooldown
    checks (the two checks of [user_quota]) have passed, and when the clock
    has not gone back between the view's cooldown check and the call's, the
    admission checks of the call pass as well.  So a request ends in one of
    two ways: the view answers from its own checks, having called nothing
    but them and saving no row; or the call is let through to its
    fingerprint step and the response is built from its result.  The two
    rejections of [process_image_with_gemini] do not reach the view. *)
Theorem view_checks_cover_the_call
    (w : web) (data : process_json) (s : state) :
  now_at_view w ≤ now_at_check (call_env w) →
  let u := current_user_id w in
  let r := process_image w data s in
  ((value r).2 = None
   ∧ Forall (λ ev, ev = Called_check_daily_quota u
                   ∨ ev = Called_check_gemini_cooldown u) (calls r))
  ∨ ∃ image_id file_path,
      let v := user_quota (today_at_view w) (now_at_view w) u s in
      let inner := view_call w data file_path (final v) in
      user_image w = Some (image_id, file_path)
      ∧ value (admission (call_env w) u (final v)) = None
      ∧ Called_calculate_image_hash ∈ calls inner
      ∧ r = (save_and_respond w data image_id (daily_used (value v))
                              (quota_daily_limit (value v)) (value inner),
             final inner, calls v ++ calls inner).
Proof.
  intros Hclock u r.
  destruct (user_image w) as [[image_id file_path]|] eqn:Himg.
  2: { left. subst r. unfold process_image. rewrite Himg. by split. }
  destruct (path_exists w file_path) eqn:Hpath.
  2: { left. subst r. unfold process_image. rewrite Himg, Hpath. by split. }
  pose proof (user_quota_run (today_at_view w) (now_at_view w) u s) as Hv.
  cbn zeta in Hv.
  destruct (has_quota (value (user_quota (today_at_view w) (now_at_view w)
                                         u s))) eqn:Hq.
  2: { left. subst r. unfold process_image. rewrite Himg, Hpath. cbn [negb].
       unfold mbind, M_bind, bind. rewrite check_daily_quota_run. cbn zeta.
       cbv beta iota. rewrite Hv in Hq. unfold value in Hq.
       cbn [fst has_quota] in Hq. fold u. rewrite Hq. cbn [negb].
       unfold ret, value, calls; cbn [fst snd]. split; [done|].
       apply Forall_cons. split; [by left|]. constructor. }
  destruct (can_call (value (user_quota (today_at_view w) (now_at_view w)
                                        u s))) eqn:Hc.
  2: { left. subst r. unfold process_image. rewrite Himg, Hpath. cbn [negb].
       unfold mbind, M_bind, bind. rewrite check_daily_quota_run. cbn zeta.
       cbv beta iota. rewrite Hv in Hq, Hc. unfold value in Hq, Hc.
       cbn [fst has_quota can_call] in Hq, Hc. fold u. rewrite Hq.
       cbn [negb].
       set (s1 := after_rollover (today_at_view w) s) in *.
       pose proof (check_gemini_cooldown_calls (now_at_view w) u s1) as Hl.
       destruct (check_gemini_cooldown (now_at_view w) u s1)
         as [[[[can wt] msg] s'] l].
       unfold calls in Hl; cbn [fst snd] in *. subst l can. cbn [negb].
       unfold ret, value, calls; cbn [fst snd]. split; [done|].
       apply Forall_cons. split; [by left|].
       apply Forall_cons. split; [by right|]. constructor. }
  right. exists image_id, file_path. cbn zeta.
  destruct (view_call_is_let_through w data image_id file_path s
              Himg Hpath Hclock Hq Hc) as (Ha & Hin & Hrun).
  by repeat split.
Qed.

(** What the [try] block does with a result that carries no quota signal
    and, if it is a cache hit, has no earlier row. *)
Lemma save_and_respond_saves w data image_id current_count daily_limit
    result result_id :
  commit w = inr result_id →
  quota_exceeded result ≠ Some true →
  (cached result = true → existing_result w = inr None) →
  save_and_respond w data image_id current_count daily_limit result =
    (Success_json (cached result) result_id (text result)
                  (confidence result) (processing_time result)
                  (default "detailed_description" (json_mode data))
                  (default "en" (json_language data)) (cooldown result)
                  (current_count + 1) daily_limit,
     Some (AI_result image_id
             (default "detailed_description" (json_mode data))
             (if PyStr.truthy (default "" (json_custom_prompt data))
              then default "" (json_custom_prompt data)
              else default "" (json_question data))
             (text result) (confidence result)
             (default "en" (json_language data))
             (default "neutral" (json_tone data))
             (default "medium" (json_length data))
             (processing_time result))).
Proof.
  intros Hcommit Hquota Hcached. unfold save_and_respond. cbn zeta.
  destruct (cached result).
  - rewrite Hcached by done. rewrite bool_decide_false by done.
    by rewrite Hcommit.
  - rewrite bool_decide_false by done. by rewrite Hcommit.
Qed.

(** X28: a call that returns neither the response of a model nor a quota
    signal, and no cache hit with an earlier row, is saved and answered as
    a success: the failure text becomes the ['result_text'] of a new row,
    the response says ['success'] with ['daily_used'] one above the count
    the view read, while on the same day the count itself is where it
    was. *)
Theorem failed_call_is_saved_as_a_result
    (w : web) (data : process_json) (image_id : Z) (file_path : string)
    (result_id : Z) (s : state) :
  user_image w = Some (image_id, file_path) →
  path_exists w file_path = true →
  commit w = inr result_id →
  today (call_env w) = today_at_view w →
  let u := current_user_id w in
  let v := user_quota (today_at_view w) (now_at_view w) u s in
  has_quota (value v) = true →
  can_call (value v) = true →
  let inner := value (view_call w data file_path (final v)) in
  model_used inner = None →
  quota_exceeded inner ≠ Some true →
  (cached inner = true → existing_result w = inr None) →
  let r := process_image w data s in
  (value r).1 = Success_json (cached inner) result_id (text inner)
                             (confidence inner) (processing_time inner)
                             (default "detailed_description" (json_mode data))
                             (default "en" (json_language data))
                             (cooldown inner)
                             (daily_used (value v) + 1) FREE_TIER_DAILY_LIMIT
  ∧ (ai_result_text <$> (value r).2) = Some (text inner)
  ∧ default 0 (gemini_daily_counts (final r) !! u) = daily_used (value v).
Proof.
  intros Himg Hpath Hcommit Hday u v Hq Hc inner Hmodel Hquota Hcached r.
  pose proof (process_image_run w data s image_id file_path Himg Hpath Hq Hc)
    as Hrun. cbn zeta in Hrun. fold u v in Hrun.
  assert (Hval : value r
                 = save_and_respond w data image_id (daily_used (value v))
                     (quota_daily_limit (value v)) inner)
    by (subst r; by rewrite Hrun).
  assert (Hfin : final r = final (view_call w data file_path (final v)))
    by (subst r; by rewrite Hrun).
  rewrite Hval, Hfin.
  rewrite (save_and_respond_saves _ _ _ _ _ _ result_id) by done.
  cbn [fst snd fmap option_fmap option_map ai_result_text].
  assert (Hv : value v
               = Quota_status u
                   (default 0 (gemini_daily_counts
                                 (after_rollover (today_at_view w) s) !! u))
                   FREE_TIER_DAILY_LIMIT
                   (has_quota (value v)) (can_call (value v))
                   (wait_time (value v)) (quota_message (value v))
                   FREE_TIER_COOLDOWN
               ∧ final v = after_rollover (today_at_view w) s).
  { subst v. by rewrite user_quota_run. }
  destruct Hv as [Hv Hfv].
  split; [by rewrite Hv|]. split; [done|].
  destruct (process_cases (call_env w) file_path
              (default "detailed_description" (json_mode data))
              (Some (default "" (json_custom_prompt data)))
              (default "neutral" (json_tone data))
              (default "medium" (json_length data))
              (default "en" (json_language data))
              (Some (default "" (json_question data))) u (final v))
    as (head & _ & [(_ & Hf & _)|(m & txt & fin & _ & _ & _ & _ & Hrun')]).
  - unfold view_call. fold u. rewrite Hf, Hv, Hfv. cbn [daily_used].
    unfold after_admission. rewrite Hday.
    destruct (truthy_user u); [|done].
    unfold after_rollover at 1.
    rewrite decide_True; [done|].
    unfold after_rollover. by destruct (decide _).
  - subst inner. unfold view_call in Hmodel. fold u in Hmodel.
    rewrite Hrun', on_success_run in Hmodel. done.
Qed.

Lemma view_checks_cover_the_call_witness :
  let w := example_web (seconds 63000000000) every_model_responds in
  let r := process_image w empty_json (initial_state 738000) in
  (value r).1 = Success_json false 12 (ModelText "A quiet harbour at dusk.")
                             Low (seconds 1) "detailed_description" "en" 0
                             1 15
  ∧ Called_calculate_image_hash ∈ calls r.
Proof.
  intros w r.
  destruct (view_checks_cover_the_call w empty_json (initial_state 738000))
    as [[Hrow _]|(image_id & file_path & Himg & _ & Hin & Hrun)].
  - vm_compute. discriminate.
  - vm_compute in Hrow. discriminate Hrow.
  - split; [vm_compute; reflexivity|].
    fold r in Hrun. rewrite Hrun. unfold calls at 1; cbn [snd].
    apply elem_of_app. right. exact Hin.
Defined.

Lemma failed_call_is_saved_witness :
  let w := example_web (seconds 63000000000) every_model_not_found in
  let r := process_image w empty_json (initial_state 738000) in
  (value r).1 = Success_json false 12 AllModelsFailed Low 0
                             "detailed_description" "en" (seconds 300) 1 15
  ∧ default 0 (gemini_daily_counts (final r) !! UInt 1) = 0.
Proof.
  intros w r.
  destruct (failed_call_is_saved_as_a_result w empty_json 7
              "static/uploads/a.png" 12 (initial_state 738000))
    as (Hresp & _ & Hcount).
  - reflexivity.
  - reflexivity.
  - reflexivity.
  - reflexivity.
  - reflexivity.
  - reflexivity.
  - vm_compute. reflexivity.
  - vm_compute. discriminate.
  - intros _. reflexivity.
  - split.
    + refine (eq_trans Hresp _). vm_compute. reflexivity.
    + refine (eq_trans Hcount _). vm_compute. reflexivity.
Defined.

(** * Orphaned uploads *)

Lemma list_remove_elem x y l :
  NoDup l → y ∈ list_remove x l ↔ y ∈ l ∧ y ≠ x.
Proof.
  induction l as [|z l IH]; intros Hnd; cbn [list_remove].
  { split; [by intros ?%elem_of_nil|by intros [?%elem_of_nil _]]. }
  apply NoDup_cons in Hnd as [Hz Hnd].
  destruct (decide (z = x)) as [->|Hne].
  - rewrite elem_of_cons. split.
    + intros Hy. split; [by right|]. by intros ->.
    + by intros [[?|?] ?].
  - rewrite !elem_of_cons, IH by done. split.
    + intros [->|[? ?]]; [by split; [left|]|by split; [right|]].
    + intros [[->|?] ?]; [by left|by right].
Qed.

Lemma owned_files_elem (u : user_id) filename
    (images : list (user_id * string)) :
  filename ∈ (filter (λ img, img.1 = u) images).*2 ↔ (u, filename) ∈ images.
Proof.
  rewrite list_elem_of_fmap. split.
  - intros ([owner f] & -> & [Ho Hin]%list_elem_of_filter).
    cbn [fst snd] in *. by subst.
  - intros Hin. exists (u, filename). split; [done|].
    by apply list_elem_of_filter.
Qed.

(** X29: [clean_old_files] removes every file of the upload folder,
    [.gitkeep] apart, that can be removed and is not registered: when a
    user id is given, registered means registered to that user, so the
    files of the images of every other user are removed; without one it
    means registered to any user.  It then runs the cache cleanup. *)
Theorem clean_old_files_spares_the_registered_files
    (now : datetime) (all_files : list string)
    (images : list (user_id * string)) (os_remove : string → bool)
    (u : user_id) (s : state) :
  NoDup all_files →
  let r := clean_old_files now (inr all_files) (inr images) os_remove u s in
  (∀ filename,
     filename ∈ value r ↔
       filename ∈ all_files ∧ filename ≠ ".gitkeep"
       ∧ os_remove filename = true
       ∧ if truthy_user u then (u, filename) ∉ images
         else filename ∉ images.*2)
  ∧ final r = final (cleanup_gemini_cache now s).
Proof.
  intros Hnd r. subst r. unfold clean_old_files. split; [|done].
  intros filename. unfold value, mbind, M_bind, bind.
  destruct (cleanup_gemini_cache now s) as [[[] s'] l].
  unfold mret, M_ret, ret. cbn [fst snd].
  rewrite list_elem_of_filter.
  assert (Hfiles : filename ∈ (if bool_decide (".gitkeep" ∈ all_files)
                               then list_remove ".gitkeep" all_files
                               else all_files)
                   ↔ filename ∈ all_files ∧ filename ≠ ".gitkeep").
  { case_bool_decide as Hkeep.
    - by apply list_remove_elem.
    - split; [|by intros [? _]]. intros Hin. split; [done|].
      by intros ->. }
  rewrite Hfiles. destruct (truthy_user u).
  - rewrite owned_files_elem. tauto.
  - tauto.
Qed.

Lemma clean_old_files_witness :
  let images := [(UInt 1, "a.png"); (UInt 2, "b.png")] in
  let all_files := [".gitkeep"; "a.png"; "b.png"; "tmp.png"] in
  "b.png" ∈ value (clean_old_files (seconds 5000) (inr all_files)
                     (inr images) (λ _, true) (UInt 1)
                     (initial_state 738000)).
Proof.
  intros images all_files.
  destruct (clean_old_files_spares_the_registered_files (seconds 5000)
              all_files images (λ _, true) (UInt 1) (initial_state 738000))
    as [Hdel _].
  - apply (bool_decide_unpack _). vm_compute. exact I.
  - apply Hdel. split; [|split; [|split]].
    + vm_compute. repeat constructor.
    + discriminate.
    + reflexivity.
    + cbn [truthy_user Z.eqb negb]. intros Hin.
      apply elem_of_cons in Hin as [Hin|Hin]; [discriminate Hin|].
      apply list_elem_of_singleton in Hin. discriminate Hin.
Defined.
